(** * flutter_ocr_kit: the native post-processing pipeline

    A shallow embedding of [src/detect/doc_detector.cpp], [src/detect/utils.cpp],
    [src/ocr/ocr_engine.cpp] and the entry points of [src/native_lib.cpp], and
    the properties of the layout post-processor, the DB probability-map
    decoder, the text-region cropper, the greedy CTC decoder, the dictionary
    loader, the life cycle of the two engines and the JSON output.

    Conventions of the embedding.
    - A C++ [float] is a rational number ([Q]): comparison, selection and
      clamping are exact.  The four operations are exact too, except where
      their result is truncated to an [int] or compared with a float
      constant, in [PreprocessForDetection], [PreprocessForRecognition] and
      the activation test of [CTCDecode]: there every operation is rounded
      to single precision with [fl32].  Infinities and NaN are outside the
      model.  Numeric equalities are stated with [==].
    - A C++ [int] is a [Z]; the sizes that occur stay far from wrap-around,
      and below 2^24, so that their conversion to [float] is exact.
    - The functions of OpenCV, ONNX Runtime and libm that the code calls are
      not code of the repository.  They are the methods of the classes
      [LibM], [OpenCV] and the fields of [Session]; a call that can raise
      returns an [outcome].
    - A file is what [std::ifstream] reads from it ([FileSystem]); the
      output of a float in fixed notation is a method of [IoStream].
      A [std::string] is a [string] of bytes.
    - [LOGD] calls and the counters that only feed them are left out. *)

From Stdlib Require Import ZArith QArith Qpower Qround Qabs List String Bool Lia Lqa.
From Stdlib Require Import Permutation Sorted Ascii DecimalString.
Import ListNotations.

Open Scope Z_scope.
Open Scope Q_scope.

Definition float := Q.

(** ** C++ building blocks *)

(** [static_cast<int>(f)]: truncation toward zero. *)
Definition static_cast_int (f : float) : Z := Z.quot (Qnum f) (Zpos (Qden f)).

(** [static_cast<float>(n)]. *)
Definition static_cast_float (n : Z) : float := inject_Z n.

(** [a < b], [a >= b] and [a > b] on floats, as booleans. *)
Definition ltb (a b : float) : bool := negb (Qle_bool b a).
Definition geb (a b : float) : bool := Qle_bool b a.
Definition gtb (a b : float) : bool := ltb b a.

(** *** Rounding to single precision

    Where the code truncates the result of a float operation to an [int],
    or compares it with a float constant, the rounding of the operation
    decides the outcome, and the operation is written with [fl32]: the
    nearest number with a 24-bit significand, ties to the even one, with
    the gradual underflow of IEEE 754 binary32. *)

Definition exp2 (k : Z) : Q := 2 ^ k.

(** The exponent of a positive number: [exp2 e <= a < exp2 (e + 1)]. *)
Definition ilog2 (a : Q) : Z :=
  let k := (Z.log2 (Qnum a) - Z.log2 (Zpos (Qden a)))%Z in
  if Qle_bool (exp2 k) a then k else (k - 1)%Z.

(** To the nearest integer, halves to the even one. *)
Definition rint (v : Q) : Z :=
  let f := Qfloor v in
  let r := v - inject_Z f in
  if ltb r (1 # 2) then f
  else if ltb (1 # 2) r then (f + 1)%Z
  else if Z.even f then f else (f + 1)%Z.

Definition fl32 (v : Q) : float :=
  let v := Qred v in
  if Qeq_bool v 0 then 0
  else
    let a := Qabs v in
    let s := Z.max (ilog2 a - 23) (-149) in
    let r := inject_Z (rint (a / exp2 s)) * exp2 s in
    if ltb v 0 then - r else r.

(** [p[i]] on a buffer of floats; reading past the end is undefined in C++
    and yields 0 here. *)
Definition at_ (p : list float) (i : Z) : float := nth (Z.to_nat i) p 0.

(** The values [lo, lo+1, ..., hi-1] that [for (int v = lo; v < hi; v++)]
    runs through. *)
Definition range (lo hi : Z) : list Z :=
  map (fun k => lo + Z.of_nat k)%Z (seq 0 (Z.to_nat (hi - lo))).

Module std.

(** [std::min(a, b)] is [(b < a) ? b : a]; [std::max(a, b)] is
    [(a < b) ? b : a]. *)
Definition min (a b : float) : float := if ltb b a then b else a.
Definition max (a b : float) : float := if ltb a b then b else a.

(** [std::abs]. *)
Definition abs (a : float) : float := if ltb a 0 then - a else a.

(** [std::sort(first, last, comp)], as an insertion sort.  For a comparator
    that is a strict weak ordering the result is the one of [std::sort] up
    to the order of equivalent elements, which [std::sort] leaves open.
    The comparator of the final sort of the boxes is not one (it is not
    transitive), so that the order of the boxes that the library returns
    is not fixed by the code; the properties below use
    only that the result is a rearrangement of the input and, where the
    comparator compares a key, that it is ordered by the key. *)
Fixpoint insert {A} (comp : A -> A -> bool) (x : A) (l : list A) : list A :=
  match l with
  | [] => [x]
  | y :: l' => if comp y x then y :: insert comp x l' else x :: l
  end.

Definition sort {A} (comp : A -> A -> bool) (l : list A) : list A :=
  fold_right (insert comp) [] l.

End std.

(** Exceptions derived from [std::exception]. *)
Inductive exception := OrtException | CvException | StdException.

(** The result of a call that may raise. *)
Inductive outcome (A : Type) :=
| Returns (a : A)
| Throws (e : exception).
Arguments Returns {A} a.
Arguments Throws {A} e.

Definition bind {A B} (c : outcome A) (k : A -> outcome B) : outcome B :=
  match c with
  | Returns a => k a
  | Throws e => Throws e
  end.

Notation "x <- c ;; k" := (bind c (fun x => k))
  (at level 61, c at next level, right associativity).

(** [try { body } catch (const std::exception& e) { handler }]. *)
Definition try_catch {A} (body : outcome A) (handler : exception -> outcome A)
  : outcome A :=
  match body with
  | Returns a => Returns a
  | Throws e => handler e
  end.

(** ** What the code takes from its libraries *)

(** [cv::Mat] as far as the code looks at it: the dimensions, and the pixel
    buffer as an opaque payload. *)
Record Mat := { rows : Z; cols : Z; pixels : list Z }.

(** [cv::Mat()]. *)
Definition Mat_default : Mat := {| rows := 0; cols := 0; pixels := [] |}.

(** [m.empty()]. *)
Definition Mat_empty (m : Mat) : bool := (rows m =? 0)%Z || (cols m =? 0)%Z.

(** [cv::Point2f] and [cv::Point]. *)
Record Point2f := { px : float; py : float }.
Definition Point := (Z * Z)%type.

(** [cv::RotatedRect]. *)
Record RotatedRect :=
  { center : Point2f; size_width : float; size_height : float; angle : float }.

(** A tensor of the inference engine: its shape and its flat buffer. *)
Record Tensor := { shape : list Z; data : list float }.

(** [Ort::Session]: the number of model inputs and outputs, the name of
    an input, and [Run] with one requested output. *)
Record Session :=
  { GetInputCount : Z;
    GetOutputCount : Z;
    GetInputName : Z -> string;
    Run : list (string * Tensor) -> outcome Tensor }.

(** [std::exp] and [std::sqrt]. *)
Class LibM := { exp : float -> float; sqrt : float -> float }.

(** The OpenCV functions the pipeline calls whose results the properties
    below do not look into.  A function that produces an image is given by
    the pixels it produces; the size of its result is fixed by its arguments
    as OpenCV documents it and is written out where the function is used.
    [det_blob] and [rec_blob] stand for the pixel arithmetic of
    [PreprocessForDetection] and [PreprocessForRecognition] on the resized
    image (colour order, scaling, mean and deviation, NCHW layout). *)
Class OpenCV :=
  { cvtColor_pixels : Mat -> list Z;
    resize_pixels : Mat -> Z -> Z -> list Z;
    blobFromImage : Mat -> list float;
    det_blob : Mat -> list float;
    rec_blob : Mat -> list float;
    findContours : list Z -> Z -> Z -> list (list Point);
    minAreaRect : list Point -> RotatedRect;
    RotatedRect_points : RotatedRect -> Point2f * Point2f * Point2f * Point2f;
    drawContours_filled : Z -> Z -> list Point -> list Z;
    warpPerspective_pixels :
      Mat -> list Point2f -> list Point2f -> Z -> Z -> outcome (list Z);
    rotate_90_clockwise_pixels : Mat -> list Z }.

(** The OpenCV functions whose result the code computes with. *)
Module cv.

(** [cv::minMaxLoc(m, &min_val, &max_val)]. *)
Definition minMaxLoc (m : list float) : float * float :=
  match m with
  | [] => (0, 0)
  | v :: m' =>
      fold_left (fun '(lo, hi) x => (std.min lo x, std.max hi x)) m' (v, v)
  end.

(** [cv::threshold(src, dst, thresh, maxval, cv::THRESH_BINARY)]. *)
Definition threshold (src : list float) (thresh maxval : float) : list float :=
  map (fun v => if gtb v thresh then maxval else 0) src.

(** [cvRound]: to the nearest integer, halves to the even one. *)
Definition cvRound (v : float) : Z :=
  let f := Qfloor v in
  let r := v - inject_Z f in
  if ltb r (1 # 2) then f
  else if ltb (1 # 2) r then (f + 1)%Z
  else if Z.even f then f else (f + 1)%Z.

(** [cv::saturate_cast<uchar>]. *)
Definition saturate_cast_uchar (v : float) : Z := Z.max 0 (Z.min 255 (cvRound v)).

(** [m.convertTo(dst, CV_8UC1, alpha)]. *)
Definition convertTo_8U (m : list float) (alpha : float) : list Z :=
  map (fun v => saturate_cast_uchar (v * alpha)) m.

(** The entries of [m] at which [mask] is not zero. *)
Definition masked (m : list float) (mask : list Z) : list float :=
  map fst (filter (fun p => negb (snd p =? 0)%Z) (combine m mask)).

Definition sum (l : list float) : float := fold_right Qplus 0 l.

(** [cv::mean(m, mask)[0]]: the mean of [m] over the non-zero pixels of
    [mask], 0 when there is none. *)
Definition mean (m : list float) (mask : list Z) : float :=
  match masked m mask with
  | [] => 0
  | sel => sum sel / inject_Z (Z.of_nat (List.length sel))
  end.

End cv.

(** ** Layout detection: [src/detect/utils.cpp], [src/detect/doc_detector.cpp] *)

Module Layout.

(** [struct DetectionBox]. *)
Record DetectionBox :=
  { x1 : float; y1 : float; x2 : float; y2 : float;
    score : float;
    class_id : Z;
    class_name : string }.

(** The 23 document element classes. *)
Definition DOC_CLASSES : list string :=
  [ "paragraph_title"; "image"; "text"; "number"; "abstract"; "content";
    "figure_title"; "formula"; "table"; "table_title"; "reference";
    "doc_title"; "footnote"; "header"; "algorithm"; "footer"; "seal";
    "chart_title"; "chart"; "formula_number"; "header_image";
    "footer_image"; "aside_text" ]%string.

(** The process-wide state of the detector: [g_session], [g_initialized]
    and the configured model path. *)
Record Globals :=
  { g_session : option Session;
    g_initialized : bool;
    MODEL_PATH : string }.

Section Detector.

Context {cv : OpenCV}.

(** The constructor of [Ort::Session] on a model file. *)
Variable new_Session : string -> outcome Session.

(** [preprocessImage]: the stretched image and the scale factors
    [(target_width / orig_width, target_height / orig_height)]. *)
Definition preprocessImage (img : Mat) (target_width target_height : Z)
  : Mat * list float :=
  let orig_height := rows img in
  let orig_width := cols img in
  let scale_x := static_cast_float target_width / static_cast_float orig_width in
  let scale_y := static_cast_float target_height / static_cast_float orig_height in
  let scale_factor := [scale_x; scale_y] in
  let img_rgb :=
    {| rows := rows img; cols := cols img; pixels := cvtColor_pixels img |} in
  let resized :=
    {| rows := target_height; cols := target_width;
       pixels := resize_pixels img_rgb target_width target_height |} in
  (resized, scale_factor).

(** [imageToBlob]. *)
Definition imageToBlob (img : Mat) : list float := blobFromImage img.

(** [initOnnxSession]: creates the session once. *)
Definition initOnnxSession (g : Globals) : outcome unit * Globals :=
  if g_initialized g then (Returns tt, g)
  else
    match new_Session (MODEL_PATH g) with
    | Throws e => (Throws e, g)
    | Returns s =>
        (Returns tt,
         {| g_session := Some s; g_initialized := true;
            MODEL_PATH := MODEL_PATH g |})
    end.

(** The input tensors of the two model variants. *)
Definition layout_inputs (is_l_model : bool) (image : Mat) (blob : list float)
    (scale_factor : list float) (target_width target_height : Z)
  : list (string * Tensor) :=
  let image_tensor :=
    {| shape := [1; 3; target_height; target_width]%Z; data := blob |} in
  let scale_tensor := {| shape := [1; 2]%Z; data := scale_factor |} in
  let im_shape_tensor :=
    {| shape := [1; 2]%Z;
       data := [static_cast_float (rows image); static_cast_float (cols image)] |} in
  let l_scale_tensor := {| shape := [1; 2]%Z; data := [1; 1] |} in
  if is_l_model
  then [("im_shape", im_shape_tensor); ("image", image_tensor);
        ("scale_factor", l_scale_tensor)]%string
  else [("image", image_tensor); ("scale_factor", scale_tensor)]%string.

(** [inv_scale_x] and [inv_scale_y] (component 0 and 1). *)
Definition inv_scale (is_l_model : bool) (scale_factor : list float) (k : Z)
  : float :=
  if is_l_model then 1 else 1 / at_ scale_factor k.

(** Row [i] of the [N x 6] output mapped back to the original image,
    before clamping. *)
Definition restore_box (is_l_model : bool) (scale_factor : list float)
    (output_data : list float) (i : Z) : DetectionBox :=
  let class_id := static_cast_int (at_ output_data (i * 6 + 0)) in
  let score := at_ output_data (i * 6 + 1) in
  let x1 := at_ output_data (i * 6 + 2) in
  let y1 := at_ output_data (i * 6 + 3) in
  let x2 := at_ output_data (i * 6 + 4) in
  let y2 := at_ output_data (i * 6 + 5) in
  {| x1 := x1 * inv_scale is_l_model scale_factor 0;
     y1 := y1 * inv_scale is_l_model scale_factor 1;
     x2 := x2 * inv_scale is_l_model scale_factor 0;
     y2 := y2 * inv_scale is_l_model scale_factor 1;
     score := score;
     class_id := class_id;
     class_name := nth (Z.to_nat class_id) DOC_CLASSES ""%string |}.

(** Clamping of the coordinates to the image bounds. *)
Definition clamp_box (image : Mat) (box : DetectionBox) : DetectionBox :=
  {| x1 := std.max 0 (std.min (x1 box) (static_cast_float (cols image)));
     y1 := std.max 0 (std.min (y1 box) (static_cast_float (rows image)));
     x2 := std.max 0 (std.min (x2 box) (static_cast_float (cols image)));
     y2 := std.max 0 (std.min (y2 box) (static_cast_float (rows image)));
     score := score box;
     class_id := class_id box;
     class_name := class_name box |}.

(** The body of the loop over the rows: what row [i] appends to
    [results]. *)
Definition detect_row (is_l_model : bool) (scale_factor : list float)
    (image : Mat) (conf_threshold : float) (output_data : list float) (i : Z)
  : list DetectionBox :=
  let class_id := static_cast_int (at_ output_data (i * 6 + 0)) in
  let score := at_ output_data (i * 6 + 1) in
  if geb score conf_threshold && (class_id >=? 0)%Z
     && (class_id <? Z.of_nat (List.length DOC_CLASSES))%Z
  then [clamp_box image (restore_box is_l_model scale_factor output_data i)]
  else [].

(** The loop over the rows of the output tensor. *)
Definition parse_output (is_l_model : bool) (scale_factor : list float)
    (image : Mat) (conf_threshold : float) (output : Tensor)
  : list DetectionBox :=
  let num_detections := nth 0 (shape output) 0%Z in
  flat_map
    (detect_row is_l_model scale_factor image conf_threshold (data output))
    (range 0 num_detections).

(** [detectDocLayout].  Everything after the test for an empty image
    runs inside [try]; each handler logs and falls through to
    [return results], and [results] is filled only by the final loop,
    which does not raise. *)
Definition detectDocLayout (g : Globals) (image : Mat) (conf_threshold : float)
  : outcome (list DetectionBox) * Globals :=
  if Mat_empty image then (Returns [], g)
  else
    let (init, g') := initOnnxSession g in
    (try_catch
       (_ <- init ;;
        match g_session g' with
        | None => Returns []
        | Some session =>
            let num_inputs := GetInputCount session in
            let target_width := 640%Z in
            let target_height := 640%Z in
            let (resized_img, scale_factor) :=
              preprocessImage image target_width target_height in
            let blob := imageToBlob resized_img in
            let is_l_model := (num_inputs =? 3)%Z in
            outputs <- Run session
                         (layout_inputs is_l_model image blob scale_factor
                            target_width target_height) ;;
            Returns (parse_output is_l_model scale_factor image
                       conf_threshold outputs)
        end)
       (fun _ => Returns []),
     g').

(** The row test of the loop. *)
Definition row_kept (conf_threshold : float) (output_data : list float) (i : Z)
  : Prop :=
  conf_threshold <= at_ output_data (i * 6 + 1)
  /\ (0 <= static_cast_int (at_ output_data (i * 6 + 0)) < 23)%Z.

(** The test of the loop, as the code evaluates it. *)
Definition row_passes (conf_threshold : float) (output_data : list float) (i : Z)
  : bool :=
  let class_id := static_cast_int (at_ output_data (i * 6 + 0)) in
  let score := at_ output_data (i * 6 + 1) in
  geb score conf_threshold && (class_id >=? 0)%Z
  && (class_id <? Z.of_nat (List.length DOC_CLASSES))%Z.

(** The scale factors that [detectDocLayout] computes for an image. *)
Definition layout_scale (image : Mat) : list float :=
  snd (preprocessImage image 640 640).

End Detector.

End Layout.

(** ** Text detection and recognition: [src/ocr/ocr_engine.cpp] *)

Module Ocr.

Definition DET_MAX_SIDE : Z := 960.
Definition DET_LIMIT_SIDE : Z := 32.
Definition REC_IMG_HEIGHT : Z := 48.
Definition REC_IMG_MAX_WIDTH : Z := 2048.

(** [struct TextLineResult]. *)
Record TextLineResult :=
  { x1 : float; y1 : float; x2 : float; y2 : float;
    score : float;
    text : string }.

(** [struct TextBox]; its field [score] is [box_score] here. *)
Record TextBox := { points : list Point2f; box_score : float }.

(** The members of [class OcrEngine] that a call reads. *)
Record OcrEngine :=
  { det_session_ : option Session;
    rec_session_ : option Session;
    dictionary_ : list string;
    initialized_ : bool }.

(** The state of the decoding loop of [CTCDecode]. *)
Record CtcState :=
  { result : string; total_score : float; char_count : Z; prev_idx : Z }.

Definition origin : Point2f := {| px := 0; py := 0 |}.

(** [box.points[i]]. *)
Definition pt (box : TextBox) (i : nat) : Point2f := nth i (points box) origin.

(** [std::pow(x, 2)]. *)
Definition pow2 (x : float) : float := x * x.

(** [std::max(0.0f, std::min(v, static_cast<float>(bound)))]. *)
Definition clamp (v : float) (bound : Z) : float :=
  std.max 0 (std.min v (static_cast_float bound)).

(** The loop that computes [min_x], [max_x], [min_y], [max_y] over the
    points of a box, in [CropTextRegion] and in [RecognizeText]. *)
Definition bounding (pts : list Point2f) : float * float * float * float :=
  let p0 := nth 0%nat pts origin in
  fold_left
    (fun '(min_x, max_x, min_y, max_y) p =>
       (std.min min_x (px p), std.max max_x (px p),
        std.min min_y (py p), std.max max_y (py p)))
    pts (px p0, px p0, py p0, py p0).

(** The integer bounding rectangle [(x1, y1, x2, y2)] that
    [CropTextRegion] computes from the points of a box. *)
Definition bounding_rect (image : Mat) (box : TextBox) : Z * Z * Z * Z :=
  let '(min_x, max_x, min_y, max_y) := bounding (points box) in
  let x1 := static_cast_int (std.max 0 min_x) in
  let y1 := static_cast_int (std.max 0 min_y) in
  let x2 := static_cast_int (std.min (static_cast_float (cols image)) max_x) in
  let y2 := static_cast_int (std.min (static_cast_float (rows image)) max_y) in
  (x1, y1, x2, y2).

(** The two conditional swaps that follow the sort by [y]. *)
Definition swap_top (pts : list Point2f) : list Point2f :=
  match pts with
  | p0 :: p1 :: rest => if gtb (px p0) (px p1) then p1 :: p0 :: rest else pts
  | _ => pts
  end.

Definition swap_bottom (pts : list Point2f) : list Point2f :=
  match pts with
  | p0 :: p1 :: p2 :: p3 :: rest =>
      if ltb (px p2) (px p3) then p0 :: p1 :: p3 :: p2 :: rest else pts
  | _ => pts
  end.

(** The comparator of the final sort of the boxes. *)
Definition box_before (a b : TextBox) : bool :=
  let a_y := (py (pt a 0) + py (pt a 1)) / 2 in
  let b_y := (py (pt b 0) + py (pt b 1)) / 2 in
  if gtb (std.abs (a_y - b_y)) 10 then ltb a_y b_y
  else ltb (px (pt a 0)) (px (pt b 0)).

Section Engine.

Context {m : LibM} {cv : OpenCV}.

(** [PreprocessForDetection]: the blob, its height and width, and the
    two scale factors.  The ratio, the products that are truncated and the
    scale factors are single-precision results.  [cv::resize] raises when
    it is asked for a size with a side of 0. *)
Definition PreprocessForDetection (image : Mat)
  : outcome (list float * Z * Z * float * float) :=
  let orig_h := rows image in
  let orig_w := cols image in
  let max_side := Z.max orig_h orig_w in
  let ratio :=
    if (max_side >? DET_MAX_SIDE)%Z
    then fl32 (static_cast_float DET_MAX_SIDE / static_cast_float max_side)
    else 1 in
  let new_h := static_cast_int (fl32 (static_cast_float orig_h * ratio)) in
  let new_w := static_cast_int (fl32 (static_cast_float orig_w * ratio)) in
  let new_h :=
    (Z.quot (new_h + DET_LIMIT_SIDE - 1) DET_LIMIT_SIDE * DET_LIMIT_SIDE)%Z in
  let new_w :=
    (Z.quot (new_w + DET_LIMIT_SIDE - 1) DET_LIMIT_SIDE * DET_LIMIT_SIDE)%Z in
  let scale_x := fl32 (static_cast_float new_w / static_cast_float orig_w) in
  let scale_y := fl32 (static_cast_float new_h / static_cast_float orig_h) in
  if (new_w <=? 0)%Z || (new_h <=? 0)%Z then Throws CvException
  else
    let resized :=
      {| rows := new_h; cols := new_w; pixels := resize_pixels image new_w new_h |} in
    Returns (det_blob resized, new_h, new_w, scale_x, scale_y).

(** [PreprocessForRecognition]: the blob and its width.  The ratio and
    the product that is truncated are single-precision results. *)
Definition PreprocessForRecognition (region : Mat) : list float * Z :=
  let src_h := rows region in
  let src_w := cols region in
  let ratio := fl32 (static_cast_float REC_IMG_HEIGHT / static_cast_float src_h) in
  let new_w := static_cast_int (fl32 (static_cast_float src_w * ratio)) in
  let new_w := if (new_w >? REC_IMG_MAX_WIDTH)%Z then REC_IMG_MAX_WIDTH else new_w in
  let new_w := if (new_w <? 1)%Z then 1%Z else new_w in
  let resized :=
    {| rows := REC_IMG_HEIGHT; cols := new_w;
       pixels := resize_pixels region new_w REC_IMG_HEIGHT |} in
  (rec_blob resized, new_w).

(** The probability map after the activation test of [DBPostProcess]:
    the sigmoid is applied when a value lies outside [[-0.1, 1.1]]. *)
Definition db_prob_map (output_data : list float) : list float :=
  let '(min_val, max_val) := cv.minMaxLoc output_data in
  if ltb min_val (- (1 # 10)) || gtb max_val (11 # 10)
  then map (fun v => 1 / (1 + exp (- v))) output_data
  else output_data.

(** The body of the loop over the contours: what one contour appends
    to [boxes]. *)
Definition db_contour (prob_map : list float) (height width : Z)
    (scale_x scale_y : float) (orig_width orig_height : Z)
    (box_threshold : float) (contour : list Point) : list TextBox :=
  if (Z.of_nat (List.length contour) <? 4)%Z then []
  else
    let rect := minAreaRect contour in
    let '(v0, v1, v2, v3) := RotatedRect_points rect in
    let vertices := [v0; v1; v2; v3] in
    let mask := drawContours_filled height width contour in
    let mean_score := cv.mean prob_map mask in
    if ltb mean_score box_threshold then []
    else
      let box_width := size_width rect in
      let box_height := size_height rect in
      if ltb (std.min box_width box_height) 3 then []
      else
        let pts :=
          map (fun v =>
                 {| px := clamp (px v / scale_x) orig_width;
                    py := clamp (py v / scale_y) orig_height |})
              vertices in
        let pts := std.sort (fun a b => ltb (py a) (py b)) pts in
        let pts := swap_top pts in
        let pts := swap_bottom pts in
        [{| points := pts; box_score := mean_score |}].

(** [OcrEngine::DBPostProcess]. *)
Definition DBPostProcess (output_data : list float) (height width : Z)
    (scale_x scale_y : float) (orig_width orig_height : Z)
    (threshold box_threshold : float) : list TextBox :=
  let prob_map := db_prob_map output_data in
  let binary := cv.threshold prob_map threshold 1 in
  let binary := cv.convertTo_8U binary 255 in
  let contours := findContours binary height width in
  let boxes :=
    flat_map
      (db_contour prob_map height width scale_x scale_y
         orig_width orig_height box_threshold)
      contours in
  std.sort box_before boxes.

(** The probabilities of timestep [t]: the softmax of the row when
    [need_softmax], the row itself otherwise. *)
Definition timestep_probs (need_softmax : bool) (output_data : list float)
    (vocab_size t : Z) : list float :=
  let timestep_data v := at_ output_data (t * vocab_size + v) in
  if need_softmax then
    let max_logit :=
      fold_left (fun max_logit v => std.max max_logit (timestep_data v))
        (range 1 vocab_size) (timestep_data 0%Z) in
    let probs :=
      map (fun v => exp (timestep_data v - max_logit)) (range 0 vocab_size) in
    let sum_exp := fold_left Qplus probs 0 in
    map (fun p => p / sum_exp) probs
  else map timestep_data (range 0 vocab_size).

(** The argmax loop: [(max_idx, max_val)]. *)
Definition argmax (probs : list float) (vocab_size : Z) : Z * float :=
  fold_left
    (fun '(max_idx, max_val) v =>
       if gtb (at_ probs v) max_val then (v, at_ probs v)
       else (max_idx, max_val))
    (range 1 vocab_size) (0%Z, at_ probs 0).

(** What the decoding loop does with the argmax of one timestep. *)
Definition ctc_emit (dictionary_ : list string) (st : CtcState)
    (max_idx : Z) (max_val : float) : CtcState :=
  let st' :=
    if (max_idx =? 0)%Z then st
    else if negb (max_idx =? prev_idx st)%Z then
      if (max_idx <? Z.of_nat (List.length dictionary_))%Z then
        {| result := (result st ++ nth (Z.to_nat max_idx) dictionary_ "")%string;
           total_score := total_score st + max_val;
           char_count := char_count st + 1;
           prev_idx := prev_idx st |}
      else st
    else st in
  {| result := result st'; total_score := total_score st';
     char_count := char_count st'; prev_idx := max_idx |}.

(** The body of the loop over the timesteps. *)
Definition ctc_step (dictionary_ : list string) (need_softmax : bool)
    (output_data : list float) (vocab_size : Z) (st : CtcState) (t : Z)
  : CtcState :=
  let probs := timestep_probs need_softmax output_data vocab_size t in
  let '(max_idx, max_val) := argmax probs vocab_size in
  ctc_emit dictionary_ st max_idx max_val.

(** The activation test on the first timestep.  The sum is accumulated in
    single precision, and [-0.001f] and [0.1f] are the single-precision
    numbers nearest to the decimals. *)
Definition need_softmax (output_data : list float) (vocab_size : Z) : bool :=
  let '(first_min, first_max, first_sum) :=
    fold_left
      (fun '(first_min, first_max, first_sum) i =>
         (std.min first_min (at_ output_data i),
          std.max first_max (at_ output_data i),
          fl32 (first_sum + at_ output_data i)))
      (range 0 vocab_size)
      (at_ output_data 0, at_ output_data 0, 0) in
  ltb first_min (fl32 (- (1 # 1000)))
  || gtb (std.abs (fl32 (first_sum - 1))) (fl32 (1 # 10)).

Definition ctc_init : CtcState :=
  {| result := ""%string; total_score := 0; char_count := 0; prev_idx := -1 |}.

(** The state after the loop over the timesteps. *)
Definition ctc_loop (dictionary_ : list string) (output_data : list float)
    (seq_len vocab_size : Z) : CtcState :=
  fold_left
    (ctc_step dictionary_ (need_softmax output_data vocab_size)
       output_data vocab_size)
    (range 0 seq_len) ctc_init.

(** [OcrEngine::CTCDecode]. *)
Definition CTCDecode (dictionary_ : list string) (output_data : list float)
    (seq_len vocab_size : Z) : string * float :=
  let st := ctc_loop dictionary_ output_data seq_len vocab_size in
  let avg_score :=
    if (char_count st >? 0)%Z
    then total_score st / static_cast_float (char_count st)
    else 0 in
  (result st, avg_score).

(** [OcrEngine::CropTextRegion]. *)
Definition CropTextRegion (image : Mat) (box : TextBox) : outcome Mat :=
  if negb (List.length (points box) =? 4)%nat then Returns Mat_default
  else
    let '(x1, y1, x2, y2) := bounding_rect image box in
    if (x2 <=? x1)%Z || (y2 <=? y1)%Z then Returns Mat_default
    else
      let width :=
        sqrt (pow2 (px (pt box 1) - px (pt box 0))
              + pow2 (py (pt box 1) - py (pt box 0))) in
      let height :=
        sqrt (pow2 (px (pt box 3) - px (pt box 0))
              + pow2 (py (pt box 3) - py (pt box 0))) in
      let width := if ltb width 1 then 1 else width in
      let height := if ltb height 1 then 1 else height in
      let src_pts := [pt box 0; pt box 1; pt box 2; pt box 3] in
      let dst_pts :=
        [ {| px := 0; py := 0 |}; {| px := width; py := 0 |};
          {| px := width; py := height |}; {| px := 0; py := height |} ] in
      warped <- warpPerspective_pixels image src_pts dst_pts
                  (static_cast_int width) (static_cast_int height) ;;
      let cropped :=
        {| rows := static_cast_int height; cols := static_cast_int width;
           pixels := warped |} in
      if gtb (static_cast_float (rows cropped))
             (static_cast_float (cols cropped) * (3 # 2))
      then Returns {| rows := cols cropped; cols := rows cropped;
                      pixels := rotate_90_clockwise_pixels cropped |}
      else Returns cropped.

(** [OcrEngine::DetectText].  Both handlers log and fall through to
    [return boxes] with [boxes] still empty. *)
Definition DetectText (eng : OcrEngine) (image : Mat) (threshold : float)
  : outcome (list TextBox) :=
  match initialized_ eng, det_session_ eng with
  | true, Some session =>
      if Mat_empty image then Returns []
      else
        try_catch
          (pre <- PreprocessForDetection image ;;
           let '(blob, height, width, scale_x, scale_y) := pre in
           let input_tensor :=
             {| shape := [1; 3; height; width]%Z; data := blob |} in
           outputs <- Run session [(GetInputName session 0, input_tensor)] ;;
           let out_h := nth 2%nat (shape outputs) 0%Z in
           let out_w := nth 3%nat (shape outputs) 0%Z in
           Returns (DBPostProcess (data outputs) out_h out_w scale_x scale_y
                      (cols image) (rows image) threshold (3 # 10)))
          (fun _ => Returns [])
  | _, _ => Returns []
  end.

(** [OcrEngine::RecognizeRegion]. *)
Definition RecognizeRegion (eng : OcrEngine) (region : Mat)
  : outcome (string * float) :=
  match initialized_ eng, rec_session_ eng with
  | true, Some session =>
      if Mat_empty region then Returns (""%string, 0)
      else
        try_catch
          (let '(blob, width) := PreprocessForRecognition region in
           let input_tensor :=
             {| shape := [1; 3; REC_IMG_HEIGHT; width]%Z; data := blob |} in
           outputs <- Run session [(GetInputName session 0, input_tensor)] ;;
           let seq_len := nth 1%nat (shape outputs) 0%Z in
           let vocab_size := nth 2%nat (shape outputs) 0%Z in
           Returns (CTCDecode (dictionary_ eng) (data outputs) seq_len vocab_size))
          (fun _ => Returns (""%string, 0))
  | _, _ => Returns (""%string, 0)
  end.

(** The loop of [RecognizeText] over the detected boxes. *)
Fixpoint recognize_boxes (eng : OcrEngine) (image : Mat) (rec_threshold : float)
    (boxes : list TextBox) (results : list TextLineResult)
  : outcome (list TextLineResult) :=
  match boxes with
  | [] => Returns results
  | box :: rest =>
      region <- CropTextRegion image box ;;
      if Mat_empty region
      then recognize_boxes eng image rec_threshold rest results
      else
        r <- RecognizeRegion eng region ;;
        let '(text, score) := r in
        if (String.length text =? 0)%nat
        then recognize_boxes eng image rec_threshold rest results
        else if ltb score rec_threshold
        then recognize_boxes eng image rec_threshold rest results
        else
          let '(min_x, max_x, min_y, max_y) := bounding (points box) in
          recognize_boxes eng image rec_threshold rest
            (results ++
             [{| x1 := min_x; y1 := min_y; x2 := max_x; y2 := max_y;
                 score := score; text := text |}])
  end.

(** [OcrEngine::RecognizeText]. *)
Definition RecognizeText (eng : OcrEngine) (image : Mat)
    (det_threshold rec_threshold : float) : outcome (list TextLineResult) :=
  if negb (initialized_ eng) then Returns []
  else if Mat_empty image then Returns []
  else
    boxes <- DetectText eng image det_threshold ;;
    match boxes with
    | [] => Returns []
    | _ => recognize_boxes eng image rec_threshold boxes []
    end.

(** The point that a vertex of the fitted rectangle becomes. *)
Definition map_back (scale_x scale_y : float) (orig_width orig_height : Z)
    (v : Point2f) : Point2f :=
  {| px := clamp (px v / scale_x) orig_width;
     py := clamp (py v / scale_y) orig_height |}.

(** The vertices of the fitted rectangle of a contour. *)
Definition vertices_of (contour : list Point) : list Point2f :=
  let '(v0, v1, v2, v3) := RotatedRect_points (minAreaRect contour) in
  [v0; v1; v2; v3].

(** What a contour must pass to give a box. *)
Definition contour_kept (prob_map : list float) (height width : Z)
    (box_threshold : float) (contour : list Point) : Prop :=
  (4 <= Z.of_nat (List.length contour))%Z
  /\ box_threshold <= cv.mean prob_map (drawContours_filled height width contour)
  /\ 3 <= std.min (size_width (minAreaRect contour))
                  (size_height (minAreaRect contour)).

(** The per-timestep [(max_idx, max_val)] pairs of a decoding run. *)
Definition ctc_steps (output_data : list float) (seq_len vocab_size : Z)
  : list (Z * float) :=
  map (fun t =>
         argmax (timestep_probs (need_softmax output_data vocab_size)
                   output_data vocab_size t) vocab_size)
      (range 0 seq_len).

(** The argmax pair of timestep [t]. *)
Definition ctc_step_at (data : list float) (vocab_size t : Z) : Z * float :=
  argmax (timestep_probs (need_softmax data vocab_size) data vocab_size t) vocab_size.

(** The line that an accepted box gives: the extrema of its points, the
    decoded text and its score. *)
Definition text_line (box : TextBox) (text : string) (score : float)
  : TextLineResult :=
  let '(min_x, max_x, min_y, max_y) := bounding (points box) in
  {| x1 := min_x; y1 := min_y; x2 := max_x; y2 := max_y;
     score := score; text := text |}.

(** What one box contributes to the results of [RecognizeText]: nothing
    when its crop is empty, when the decoded text is empty or when the score
    is below the threshold, and its line otherwise. *)
Definition box_lines (eng : OcrEngine) (image : Mat) (rec_threshold : float)
    (box : TextBox) : list TextLineResult :=
  match CropTextRegion image box with
  | Returns region =>
      if Mat_empty region then []
      else
        match RecognizeRegion eng region with
        | Returns (text, score) =>
            if (String.length text =? 0)%nat then []
            else if ltb score rec_threshold then []
            else [text_line box text score]
        | Throws _ => []
        end
  | Throws _ => []
  end.

End Engine.

End Ocr.

(** ** The properties in the words of the specification *)

Module Spec.

(** The emission rule of the CTC decoder: the argmax index is not the
    blank, differs from the argmax index of the preceding timestep, and
    is a valid index of the dictionary. *)
Definition emits (dictionary_ : list string) (prev idx : Z) : bool :=
  negb (idx =? 0)%Z && negb (idx =? prev)%Z
  && (0 <=? idx)%Z && (idx <? Z.of_nat (List.length dictionary_))%Z.

(** The timesteps that emit, out of the per-timestep [(argmax, probability)]
    pairs; [prev] is the argmax index of the timestep before the first. *)
Fixpoint emitted (dictionary_ : list string) (prev : Z)
    (steps : list (Z * float)) : list (Z * float) :=
  match steps with
  | [] => []
  | (idx, p) :: rest =>
      if emits dictionary_ prev idx
      then (idx, p) :: emitted dictionary_ idx rest
      else emitted dictionary_ idx rest
  end.

(** The tokens of a list of emissions, concatenated. *)
Definition tokens (dictionary_ : list string) (es : list (Z * float)) : string :=
  fold_right
    (fun e acc => (nth (Z.to_nat (fst e)) dictionary_ "" ++ acc)%string)
    ""%string es.

(** The decoded text: the tokens of the emitting timesteps, in order. *)
Definition decoded (dictionary_ : list string) (steps : list (Z * float))
  : string :=
  tokens dictionary_ (emitted dictionary_ (-1) steps).


(** A score is a probability. *)
Definition unit_interval (v : float) : Prop := 0 <= v /\ v <= 1.

End Spec.

(** ** Test vectors

    Concrete library instances and inputs on which the definitions above
    are run.  [libm] is exact on the perfect squares and stands in for
    [std::exp] with a function of the same sign and monotonicity.
    [axis_aligned] is OpenCV restricted to masks whose foreground is one
    solid axis-aligned rectangle: the contour of such a region is the list
    of its corner pixels, its minimum-area rectangle is its bounding
    rectangle at angle 0, and filling its contour gives the region back. *)

Module Vectors.

#[local] Instance libm : LibM :=
  {| exp := fun x => if ltb x 0 then 1 / (1 - x) else 1 + x;
     sqrt := fun x =>
       inject_Z (Z.sqrt (Qnum x * Zpos (Qden x))) / inject_Z (Zpos (Qden x)) |}.

(** The coordinates [(x, y)] of the non-zero pixels of a [width]-column
    image. *)
Definition foreground (binary : list Z) (width : Z) : list Point :=
  flat_map
    (fun kv => if (snd kv =? 0)%Z then []
               else [((Z.of_nat (fst kv) mod width)%Z, (Z.of_nat (fst kv) / width)%Z)])
    (combine (seq 0 (List.length binary)) binary).

(** The extent [(x0, x1, y0, y1)] of a list of points. *)
Definition extent (ps : list Point) : Z * Z * Z * Z :=
  match ps with
  | [] => (0, 0, 0, 0)%Z
  | (x, y) :: rest =>
      fold_left
        (fun '(x0, x1, y0, y1) p =>
           (Z.min x0 (fst p), Z.max x1 (fst p), Z.min y0 (snd p), Z.max y1 (snd p)))
        rest (x, x, y, y)
  end.

Definition corners (ps : list Point) : list Point :=
  let '(x0, x1, y0, y1) := extent ps in
  if (x0 =? x1)%Z && (y0 =? y1)%Z then [(x0, y0)]
  else if (x0 =? x1)%Z then [(x0, y0); (x0, y1)]
  else if (y0 =? y1)%Z then [(x0, y0); (x1, y0)]
  else [(x0, y0); (x0, y1); (x1, y1); (x1, y0)].

#[local] Instance axis_aligned : OpenCV :=
  {| cvtColor_pixels := pixels;
     resize_pixels := fun m _ _ => pixels m;
     blobFromImage := fun _ => [];
     det_blob := fun _ => [];
     rec_blob := fun _ => [];
     findContours := fun binary height width =>
       match foreground binary width with
       | [] => []
       | ps => [corners ps]
       end;
     minAreaRect := fun contour =>
       let '(x0, x1, y0, y1) := extent contour in
       {| center := {| px := inject_Z (x0 + x1) / 2; py := inject_Z (y0 + y1) / 2 |};
          size_width := inject_Z (x1 - x0);
          size_height := inject_Z (y1 - y0);
          angle := 0 |};
     RotatedRect_points := fun r =>
       let cx := px (center r) in
       let cy := py (center r) in
       let w := size_width r in
       let h := size_height r in
       ({| px := cx - w / 2; py := cy + h / 2 |},
        {| px := cx - w / 2; py := cy - h / 2 |},
        {| px := cx + w / 2; py := cy - h / 2 |},
        {| px := cx + w / 2; py := cy + h / 2 |});
     drawContours_filled := fun height width contour =>
       let '(x0, x1, y0, y1) := extent contour in
       map (fun k =>
              let x := (Z.of_nat k mod width)%Z in
              let y := (Z.of_nat k / width)%Z in
              if (x0 <=? x)%Z && (x <=? x1)%Z && (y0 <=? y)%Z && (y <=? y1)%Z
              then 255%Z else 0%Z)
           (seq 0 (Z.to_nat (height * width)));
     warpPerspective_pixels := fun _ _ _ _ _ => Returns [];
     rotate_90_clockwise_pixels := fun _ => [] |}.

(** A session whose model has [n] inputs and answers every run with
    [out]. *)
Definition session (n : Z) (out : Tensor) : Session :=
  {| GetInputCount := n; GetOutputCount := 1;
     GetInputName := fun _ => "x"%string;
     Run := fun _ => Returns out |}.

(** A session whose every run fails. *)
Definition failing_session : Session :=
  {| GetInputCount := 2; GetOutputCount := 1;
     GetInputName := fun _ => "x"%string;
     Run := fun _ => Throws OrtException |}.

Definition new_Session (n : Z) (out : Tensor) (path : string) : outcome Session :=
  Returns (session n out).

Definition globals : Layout.Globals :=
  {| Layout.g_session := None; Layout.g_initialized := false;
     Layout.MODEL_PATH := "layout.onnx" |}.

(** The detector state after a first call has created the session. *)
Definition ready_globals (n : Z) (out : Tensor) : Layout.Globals :=
  {| Layout.g_session := Some (session n out); Layout.g_initialized := true;
     Layout.MODEL_PATH := "layout.onnx" |}.

Definition image (height width : Z) : Mat :=
  {| rows := height; cols := width; pixels := [] |}.

(** The 4 x 4 probability map of the single-blob scenario, with the values
    [a], [b], [c], [d] on the 2 x 2 block at (1,1)-(2,2). *)
Definition blob_map (a b c d : float) : list float :=
  [ 0; 0; 0; 0;
    0; a; b; 0;
    0; c; d; 0;
    0; 0; 0; 0 ].

(** Its binary mask. *)
Definition blob_mask : list Z :=
  [ 0; 0; 0; 0;
    0; 255; 255; 0;
    0; 255; 255; 0;
    0; 0; 0; 0 ]%Z.

(** The contour of the block: its four corner pixels. *)
Definition blob_contour : list Point := [(1, 1); (1, 2); (2, 2); (2, 1)]%Z.

(** An 8 x 8 probability map with value [v] on the 4 x 4 block at
    (2,2)-(5,5). *)
Definition block_map (v : float) : list float :=
  map (fun k =>
         let x := (Z.of_nat k mod 8)%Z in
         let y := (Z.of_nat k / 8)%Z in
         if (2 <=? x)%Z && (x <=? 5)%Z && (2 <=? y)%Z && (y <=? 5)%Z then v else 0)
      (seq 0 64).

(** An 8 x 8 probability map with 0.9 on the 4 x 4 block at (2,2)-(5,5),
    0.4 on the ring of pixels around it, and 0 elsewhere. *)
Definition ring_map : list float :=
  map (fun k =>
         let x := (Z.of_nat k mod 8)%Z in
         let y := (Z.of_nat k / 8)%Z in
         if (2 <=? x)%Z && (x <=? 5)%Z && (2 <=? y)%Z && (y <=? 5)%Z then 9 # 10
         else if (1 <=? x)%Z && (x <=? 6)%Z && (1 <=? y)%Z && (y <=? 6)%Z then 2 # 5
         else 0)
      (seq 0 64).

(** One-hot rows of a [[seq_len, vocab_size]] tensor with the given
    argmax indices. *)
Definition one_hot (vocab_size : nat) (idxs : list nat) : list float :=
  flat_map
    (fun i => map (fun v => if (v =? i)%nat then 1 else 0) (seq 0 vocab_size))
    idxs.

(** A dictionary with the blank at index 0 and ["A"] at index 5. *)
Definition dictionary : list string :=
  [ ""; "x"; "y"; "z"; "w"; "A"; " "; "" ]%string.

Definition engine (det rec : Tensor) : Ocr.OcrEngine :=
  {| Ocr.det_session_ := Some (session 1 det);
     Ocr.rec_session_ := Some (session 1 rec);
     Ocr.dictionary_ := dictionary;
     Ocr.initialized_ := true |}.

End Vectors.

(** ** Engine lifecycle and dictionary: [OcrEngine::LoadDictionary],
    [OcrEngine::Init], [OcrEngine::Release] *)

(** [std::ifstream file(path)]: the content of the file, [None] when it
    cannot be opened. *)
Class FileSystem := { ifstream : string -> option string }.

Module Dictionary.

Definition LF : ascii := "010"%char.
Definition CR : ascii := "013"%char.
Definition TAB : ascii := "009"%char.

(** The lines that the successive calls of [std::getline] deliver: a line
    ends at a line feed, which is dropped; the characters after the last
    line feed are a line when there is at least one. *)
Fixpoint getlines_from (line content : string) : list string :=
  match content with
  | EmptyString => if (String.length line =? 0)%nat then [] else [line]
  | String c rest =>
      if Ascii.eqb c LF then line :: getlines_from EmptyString rest
      else getlines_from (line ++ String c EmptyString) rest
  end.

Definition getlines (content : string) : list string :=
  getlines_from EmptyString content.

Definition is_eol (c : ascii) : bool := Ascii.eqb c CR || Ascii.eqb c LF.

Fixpoint drop_while (f : ascii -> bool) (l : list ascii) : list ascii :=
  match l with
  | [] => []
  | c :: l' => if f c then drop_while f l' else l
  end.

(** [while (!line.empty() && (line.back() == '\r' || line.back() == '\n'))
    line.pop_back();] *)
Definition strip_eol (line : string) : string :=
  string_of_list_ascii (rev (drop_while is_eol (rev (list_ascii_of_string line)))).

(** What a line of the file becomes in the dictionary. *)
Definition entry_of_line (line : string) : string :=
  let line := strip_eol line in
  if (String.length line =? 0)%nat then " "%string else line.

(** The body of the loop over the lines of the file. *)
Definition push_line (dictionary_ : list string) (line : string) : list string :=
  let line := strip_eol line in
  if (String.length line =? 0)%nat then dictionary_ ++ [" "%string]
  else dictionary_ ++ [line].

(** [OcrEngine::LoadDictionary]: the dictionary after the call. *)
Definition LoadDictionary {fs : FileSystem} (dict_path : string)
    (dictionary_ : list string) : list string :=
  match ifstream dict_path with
  | None => dictionary_
  | Some content =>
      let dictionary_ := [""%string] in
      let dictionary_ := fold_left push_line (getlines content) dictionary_ in
      let dictionary_ :=
        if match dictionary_ with [] => true | _ => false end
           || negb (String.eqb (last dictionary_ ""%string) " ")
        then dictionary_ ++ [" "%string]
        else dictionary_ in
      dictionary_ ++ [""%string]
  end.

End Dictionary.

Module Lifecycle.

Section Lifecycle.

Context {fs : FileSystem}.

(** The constructor of [Ort::Session] on a model file. *)
Variable new_Session : string -> outcome Session.

(** [OcrEngine::Init]: nothing when the engine is initialized; otherwise
    the dictionary is loaded and the two sessions are created, in this
    order, and [initialized_] is set after both. *)
Definition Init (eng : Ocr.OcrEngine) (det_model_path rec_model_path dict_path : string)
  : outcome unit * Ocr.OcrEngine :=
  if Ocr.initialized_ eng then (Returns tt, eng)
  else
    let dictionary_ := Dictionary.LoadDictionary dict_path (Ocr.dictionary_ eng) in
    match new_Session det_model_path with
    | Throws e =>
        (Throws e,
         {| Ocr.det_session_ := Ocr.det_session_ eng;
            Ocr.rec_session_ := Ocr.rec_session_ eng;
            Ocr.dictionary_ := dictionary_;
            Ocr.initialized_ := false |})
    | Returns det =>
        match new_Session rec_model_path with
        | Throws e =>
            (Throws e,
             {| Ocr.det_session_ := Some det;
                Ocr.rec_session_ := Ocr.rec_session_ eng;
                Ocr.dictionary_ := dictionary_;
                Ocr.initialized_ := false |})
        | Returns rec =>
            (Returns tt,
             {| Ocr.det_session_ := Some det;
                Ocr.rec_session_ := Some rec;
                Ocr.dictionary_ := dictionary_;
                Ocr.initialized_ := true |})
        end
    end.

(** [OcrEngine::Release]. *)
Definition Release (eng : Ocr.OcrEngine) : Ocr.OcrEngine :=
  {| Ocr.det_session_ := None;
     Ocr.rec_session_ := None;
     Ocr.dictionary_ := [];
     Ocr.initialized_ := false |}.

(** The engine of a fresh process: the default member initializers. *)
Definition fresh : Ocr.OcrEngine :=
  {| Ocr.det_session_ := None;
     Ocr.rec_session_ := None;
     Ocr.dictionary_ := [];
     Ocr.initialized_ := false |}.

End Lifecycle.

End Lifecycle.

(** ** Serialization: [getFullText], [ocrResultsToJson], [detectionsToJson]
    and the JSON of [src/native_lib.cpp] *)

(** [stream << v] for a float [v] after [std::fixed] and
    [std::setprecision(p)]. *)
Class IoStream := { fixed : nat -> float -> string }.

Module Json.

(** The double quote and the backslash. *)
Definition DQUOTE : ascii := "034"%char.
Definition BACKSLASH : ascii := "092"%char.

Definition dquote : string := String DQUOTE EmptyString.

(** [stream << n] for an integer. *)
Definition decimal (n : Z) : string := NilZero.string_of_int (Z.to_int n).

(** The [switch] that escapes one character of a text. *)
Definition escape_char (c : ascii) : string :=
  if Ascii.eqb c DQUOTE then String BACKSLASH (String DQUOTE EmptyString)
  else if Ascii.eqb c BACKSLASH then String BACKSLASH (String BACKSLASH EmptyString)
  else if Ascii.eqb c Dictionary.LF then String BACKSLASH "n"
  else if Ascii.eqb c Dictionary.CR then String BACKSLASH "r"
  else if Ascii.eqb c Dictionary.TAB then String BACKSLASH "t"
  else String c EmptyString.

(** The loop [for (char c : r.text)]. *)
Fixpoint escape (text : string) : string :=
  match text with
  | EmptyString => EmptyString
  | String c rest => (escape_char c ++ escape rest)%string
  end.

(** A quoted key followed by a colon. *)
Definition key (k : string) : string := (dquote ++ k ++ dquote ++ ":")%string.

Definition TextLineResult_default : Ocr.TextLineResult :=
  {| Ocr.x1 := 0; Ocr.y1 := 0; Ocr.x2 := 0; Ocr.y2 := 0;
     Ocr.score := 0; Ocr.text := ""%string |}.

Definition DetectionBox_default : Layout.DetectionBox :=
  {| Layout.x1 := 0; Layout.y1 := 0; Layout.x2 := 0; Layout.y2 := 0;
     Layout.score := 0; Layout.class_id := 0; Layout.class_name := ""%string |}.

(** [getFullText]. *)
Definition getFullText (results : list Ocr.TextLineResult) : string :=
  let size := Z.of_nat (List.length results) in
  fold_left
    (fun text i =>
       let text :=
         (text ++ Ocr.text (nth (Z.to_nat i) results TextLineResult_default))%string in
       if (i <? size - 1)%Z then (text ++ String Dictionary.LF EmptyString)%string
       else text)
    (range 0 size) EmptyString.

Section Streams.

Context {io : IoStream}.

(** What the body of the loop of [ocrResultsToJson] writes for one result,
    up to the closing brace. *)
Definition ocr_object (r : Ocr.TextLineResult) : string :=
  ("{" ++ key "x1" ++ fixed 2 (Ocr.x1 r) ++ ","
   ++ key "y1" ++ fixed 2 (Ocr.y1 r) ++ ","
   ++ key "x2" ++ fixed 2 (Ocr.x2 r) ++ ","
   ++ key "y2" ++ fixed 2 (Ocr.y2 r) ++ ","
   ++ key "score" ++ fixed 4 (Ocr.score r) ++ ","
   ++ key "text" ++ dquote ++ escape (Ocr.text r) ++ dquote ++ "}")%string.

(** The loop over the results, with a comma after every result but the
    last. *)
Definition ocr_objects (results : list Ocr.TextLineResult) : string :=
  let size := Z.of_nat (List.length results) in
  fold_left
    (fun json i =>
       let json :=
         (json ++ ocr_object (nth (Z.to_nat i) results TextLineResult_default))%string in
       if (i <? size - 1)%Z then (json ++ ",")%string else json)
    (range 0 size) EmptyString.

(** [ocrResultsToJson]. *)
Definition ocrResultsToJson (results : list Ocr.TextLineResult) : string :=
  ("{" ++ key "results" ++ "[" ++ ocr_objects results
   ++ "]," ++ key "count" ++ decimal (Z.of_nat (List.length results)) ++ "}")%string.

(** What the body of the loop of [detectionsToJson] writes for one
    detection. *)
Definition detection_object (box : Layout.DetectionBox) : string :=
  ("{" ++ key "x1" ++ fixed 2 (Layout.x1 box) ++ ","
   ++ key "y1" ++ fixed 2 (Layout.y1 box) ++ ","
   ++ key "x2" ++ fixed 2 (Layout.x2 box) ++ ","
   ++ key "y2" ++ fixed 2 (Layout.y2 box) ++ ","
   ++ key "score" ++ fixed 4 (Layout.score box) ++ ","
   ++ key "class_id" ++ decimal (Layout.class_id box) ++ ","
   ++ key "class_name" ++ dquote ++ Layout.class_name box ++ dquote
   ++ "}")%string.

Definition detection_objects (detections : list Layout.DetectionBox) : string :=
  let size := Z.of_nat (List.length detections) in
  fold_left
    (fun json i =>
       let json :=
         (json ++ detection_object
                    (nth (Z.to_nat i) detections DetectionBox_default))%string in
       if (i <? size - 1)%Z then (json ++ ",")%string else json)
    (range 0 size) EmptyString.

(** [detectionsToJson]. *)
Definition detectionsToJson (detections : list Layout.DetectionBox) : string :=
  ("{" ++ key "detections" ++ "[" ++ detection_objects detections
   ++ "]," ++ key "count" ++ decimal (Z.of_nat (List.length detections)) ++ "}")%string.

(** The error answers of [src/native_lib.cpp]. *)
Definition error_json (message code : string) : string :=
  ("{" ++ key "error" ++ dquote ++ message ++ dquote ++ ","
   ++ key "code" ++ dquote ++ code ++ dquote ++ "}")%string.

(** The fields that the entry points of [src/native_lib.cpp] write after
    the count. *)
Definition timing_fields (inference_time image_width image_height : Z) : string :=
  (key "inference_time_ms" ++ decimal inference_time ++ ","
   ++ key "image_width" ++ decimal image_width ++ ","
   ++ key "image_height" ++ decimal image_height)%string.

(** The JSON that [detectLayout] builds from the detections. *)
Definition layout_json (results : list Layout.DetectionBox)
    (inference_time : Z) (image : Mat) : string :=
  ("{" ++ key "detections" ++ "[" ++ detection_objects results ++ "],"
   ++ key "count" ++ decimal (Z.of_nat (List.length results)) ++ ","
   ++ timing_fields inference_time (cols image) (rows image) ++ "}")%string.

(** The JSON that [recognizeTextFromPath] builds from the lines. *)
Definition ocr_json (results : list Ocr.TextLineResult)
    (inference_time : Z) (image : Mat) : string :=
  ("{" ++ key "results" ++ "[" ++ ocr_objects results ++ "],"
   ++ key "count" ++ decimal (Z.of_nat (List.length results)) ++ ","
   ++ timing_fields inference_time (cols image) (rows image) ++ "}")%string.

Context {m : LibM} {cv : OpenCV}.

(** [cv::imread] and the elapsed milliseconds read off the clock. *)
Variable imread : string -> Mat.
Variable inference_time : Z.

(** [detectLayout] of [src/native_lib.cpp], on the state of the detector. *)
Definition detectLayout (new_Session : string -> outcome Session)
    (g : Layout.Globals) (img_path : string) (conf_threshold : float)
  : outcome string * Layout.Globals :=
  let image := imread img_path in
  if Mat_empty image
  then (Returns (error_json "Could not load image" "IMAGE_LOAD_FAILED"), g)
  else
    let (r, g') := Layout.detectDocLayout new_Session g image conf_threshold in
    (results <- r ;; Returns (layout_json results inference_time image), g').

(** [recognizeTextFromPath] of [src/native_lib.cpp]. *)
Definition recognizeTextFromPath (eng : Ocr.OcrEngine) (img_path : string)
    (det_threshold rec_threshold : float) : outcome string :=
  let image := imread img_path in
  if Mat_empty image
  then Returns (error_json "Could not load image" "IMAGE_LOAD_FAILED")
  else if negb (Ocr.initialized_ eng)
  then Returns (error_json "OCR engine not initialized" "ENGINE_NOT_INITIALIZED")
  else
    results <- Ocr.RecognizeText eng image det_threshold rec_threshold ;;
    Returns (ocr_json results inference_time image).

End Streams.

End Json.

(** ** The normalization of the pixels

    What the preprocessing makes of one 8-bit value of channel [c], before
    the values are laid out as a blob. *)

Module Pixels.

Definition DET_MEAN : list float := [485 # 1000; 456 # 1000; 406 # 1000].
Definition DET_STD : list float := [229 # 1000; 224 # 1000; 225 # 1000].
Definition REC_MEAN : list float := [1 # 2; 1 # 2; 1 # 2].
Definition REC_STD : list float := [1 # 2; 1 # 2; 1 # 2].

(** [m.convertTo(dst, CV_32F, alpha, beta)] on one value. *)
Definition convertTo_32F (alpha beta v : float) : float := v * alpha + beta.

(** [PreprocessForDetection]: [(x / 255 - mean) / std]. *)
Definition det_normalize (c : Z) (p : Z) : float :=
  (convertTo_32F (1 / 255) 0 (static_cast_float p) - at_ DET_MEAN c) / at_ DET_STD c.

(** [PreprocessForRecognition]: [x / 127.5 - 1]. *)
Definition rec_normalize (p : Z) : float :=
  convertTo_32F (1 / (255 # 2)) (- (1)) (static_cast_float p).

(** [imageToBlob]: the scale factor [1 / 255] of [blobFromImage], with no
    mean. *)
Definition layout_normalize (p : Z) : float := (static_cast_float p - 0) * (1 / 255).

End Pixels.

(** ** Reading the output back

    What a reader of the JSON makes of the content of a string: the grammar
    of RFC 8259, section 7, for the two-character escapes.  The escapes
    with four hexadecimal digits, which the code never writes, are not
    read. *)

Module JsonGrammar.

(** The character that follows a backslash, and what it stands for. *)
Definition unescape_char (e : ascii) : option ascii :=
  if Ascii.eqb e Json.DQUOTE then Some Json.DQUOTE
  else if Ascii.eqb e Json.BACKSLASH then Some Json.BACKSLASH
  else if Ascii.eqb e "/" then Some "/"%char
  else if Ascii.eqb e "b" then Some "008"%char
  else if Ascii.eqb e "f" then Some "012"%char
  else if Ascii.eqb e "n" then Some Dictionary.LF
  else if Ascii.eqb e "r" then Some Dictionary.CR
  else if Ascii.eqb e "t" then Some Dictionary.TAB
  else None.

(** The control characters, which a JSON string cannot hold unescaped. *)
Definition control (c : ascii) : bool := (nat_of_ascii c <? 32)%nat.

(** The text that the content of a JSON string stands for; [None] when
    the content is not well formed. *)
Fixpoint unescape (s : string) : option string :=
  match s with
  | EmptyString => Some EmptyString
  | String c rest =>
      if Ascii.eqb c Json.BACKSLASH then
        match rest with
        | EmptyString => None
        | String e rest' =>
            match unescape_char e with
            | Some c' => option_map (String c') (unescape rest')
            | None => None
            end
        end
      else if Ascii.eqb c Json.DQUOTE then None
      else if control c then None
      else option_map (String c) (unescape rest)
  end.

(** The characters that [Json.escape] writes with a backslash. *)
Definition escaped (c : ascii) : bool :=
  Ascii.eqb c Json.DQUOTE || Ascii.eqb c Json.BACKSLASH
  || Ascii.eqb c Dictionary.LF || Ascii.eqb c Dictionary.CR
  || Ascii.eqb c Dictionary.TAB.

End JsonGrammar.

(** ** Files and streams of the test vectors *)

Module Fixtures.

(** A dictionary file of four lines: ["a"] with a carriage return, ["b"],
    an empty line, and ["c"] without a final line feed. *)
Definition dict_txt : string :=
  String "a" (String Dictionary.CR (String Dictionary.LF
    (String "b" (String Dictionary.LF
      (String Dictionary.LF (String "c" EmptyString)))))).

#[local] Instance files : FileSystem :=
  {| ifstream := fun path =>
       if String.eqb path "dict.txt" then Some dict_txt else None |}.

(** The digits of [n], with zeros in front up to [width] digits. *)
Fixpoint pad (width : nat) (digits : string) : string :=
  match width with
  | O => digits
  | S w => if (String.length digits <? S w)%nat
           then String "0" (pad w digits) else digits
  end.

(** Fixed notation with [p] decimals, rounded to the nearest. *)
#[local] Instance iostream : IoStream :=
  {| fixed := fun p v =>
       let scaled := cv.cvRound (Qabs v * inject_Z (10 ^ Z.of_nat p)) in
       let digits := pad (S p) (Json.decimal scaled) in
       let whole := substring 0 (String.length digits - p) digits in
       let frac := substring (String.length digits - p) p digits in
       ((if ltb v 0 then "-" else "")
        ++ whole ++ (if (p =? 0)%nat then "" else ".") ++ frac)%string |}.

(** A session constructor that knows two model files. *)
Definition new_Session (det rec : Tensor) (path : string) : outcome Session :=
  if String.eqb path "det.onnx" then Returns (Vectors.session 1 det)
  else if String.eqb path "rec.onnx" then Returns (Vectors.session 1 rec)
  else Throws OrtException.

(** The output of a detection model that sees one block, and the output
    of a recognition model whose argmax indices are 1, 2, 0, 4. *)
Definition det_output : Tensor :=
  {| shape := [1; 1; 8; 8]%Z; data := Vectors.block_map (19 # 20) |}.

Definition rec_output : Tensor :=
  {| shape := [1; 4; 7]%Z; data := Vectors.one_hot 7 [1; 2; 0; 4]%nat |}.

Definition line (text : string) (score : float) : Ocr.TextLineResult :=
  {| Ocr.x1 := 1; Ocr.y1 := 2; Ocr.x2 := 30; Ocr.y2 := 12 # 5;
     Ocr.score := score; Ocr.text := text |}.

End Fixtures.

(** ** Facts about the building blocks *)

Lemma ltb_lt (a b : float) : ltb a b = true <-> a < b.
Proof.
  unfold ltb. rewrite negb_true_iff, <- not_true_iff_false, Qle_bool_iff.
  split; [apply Qnot_le_lt | apply Qlt_not_le].
Qed.

Lemma ltb_ge (a b : float) : ltb a b = false <-> b <= a.
Proof.
  unfold ltb. rewrite negb_false_iff. apply Qle_bool_iff.
Qed.

Lemma geb_le (a b : float) : geb a b = true <-> b <= a.
Proof. unfold geb. apply Qle_bool_iff. Qed.

Lemma gtb_lt (a b : float) : gtb a b = true <-> b < a.
Proof. unfold gtb. apply ltb_lt. Qed.

Lemma gtb_le (a b : float) : gtb a b = false <-> a <= b.
Proof. unfold gtb. apply ltb_ge. Qed.

(** Case analysis on a float comparison, with the order fact in context. *)
Ltac cmp a b :=
  let H := fresh "Hcmp" in
  destruct (ltb a b) eqn:H;
  [ apply ltb_lt in H | apply ltb_ge in H ].

Lemma min_cases (a b : float) :
  (b < a /\ std.min a b = b) \/ (a <= b /\ std.min a b = a).
Proof. unfold std.min. cmp b a; auto. Qed.

Lemma max_cases (a b : float) :
  (a < b /\ std.max a b = b) \/ (b <= a /\ std.max a b = a).
Proof. unfold std.max. cmp a b; auto. Qed.

Lemma min_le_l (a b : float) : std.min a b <= a.
Proof. destruct (min_cases a b) as [[H ->] | [H ->]]; lra. Qed.

Lemma min_le_r (a b : float) : std.min a b <= b.
Proof. destruct (min_cases a b) as [[H ->] | [H ->]]; lra. Qed.

Lemma max_ge_l (a b : float) : a <= std.max a b.
Proof. destruct (max_cases a b) as [[H ->] | [H ->]]; lra. Qed.

Lemma max_ge_r (a b : float) : b <= std.max a b.
Proof. destruct (max_cases a b) as [[H ->] | [H ->]]; lra. Qed.

Lemma min_glb (a b c : float) : c <= a -> c <= b -> c <= std.min a b.
Proof. intros; destruct (min_cases a b) as [[H' ->] | [H' ->]]; lra. Qed.

Lemma max_lub (a b c : float) : a <= c -> b <= c -> std.max a b <= c.
Proof. intros; destruct (max_cases a b) as [[H' ->] | [H' ->]]; lra. Qed.

(** [std::max(0, std::min(v, bound))] lies in [[0, bound]] and is monotone
    in [v]. *)
Lemma clamp_range (v : float) (bound : Z) :
  (0 <= bound)%Z ->
  0 <= Ocr.clamp v bound /\ Ocr.clamp v bound <= inject_Z bound.
Proof.
  intros Hb. unfold Ocr.clamp, static_cast_float.
  assert (0 <= inject_Z bound) by (rewrite Zle_Qle in Hb; exact Hb).
  split; [apply max_ge_l | apply max_lub; [assumption | apply min_le_r]].
Qed.

Lemma clamp_mono (u v : float) (bound : Z) :
  u <= v -> Ocr.clamp u bound <= Ocr.clamp v bound.
Proof.
  intros Huv. unfold Ocr.clamp.
  set (b := static_cast_float bound).
  destruct (min_cases u b) as [[? Hu] | [? Hu]];
    destruct (min_cases v b) as [[? Hv] | [? Hv]];
    destruct (max_cases 0 (std.min u b)) as [[? Hmu] | [? Hmu]];
    destruct (max_cases 0 (std.min v b)) as [[? Hmv] | [? Hmv]];
    rewrite Hmu, Hmv; rewrite ?Hu, ?Hv in *; lra.
Qed.

Lemma in_range (lo hi i : Z) : In i (range lo hi) <-> (lo <= i < hi)%Z.
Proof.
  unfold range. rewrite in_map_iff. split.
  - intros (k & <- & Hk). apply in_seq in Hk. lia.
  - intros H. exists (Z.to_nat (i - lo)). split; [lia |].
    apply in_seq. lia.
Qed.

Lemma range_snoc (lo hi : Z) :
  (lo <= hi)%Z -> range lo (hi + 1) = range lo hi ++ [hi].
Proof.
  intros H. unfold range.
  replace (Z.to_nat (hi + 1 - lo)) with (Z.to_nat (hi - lo) + 1)%nat by lia.
  rewrite seq_app, map_app. simpl. f_equal. f_equal. lia.
Qed.

(** [std::sort] rearranges. *)
Lemma insert_perm {A} (comp : A -> A -> bool) (x : A) (l : list A) :
  Permutation (x :: l) (std.insert comp x l).
Proof.
  induction l as [| y l IH]; simpl; [reflexivity |].
  destruct (comp y x); [| reflexivity].
  rewrite perm_swap. apply perm_skip, IH.
Qed.

Lemma sort_perm {A} (comp : A -> A -> bool) (l : list A) :
  Permutation l (std.sort comp l).
Proof.
  induction l as [| x l IH]; simpl; [reflexivity |].
  rewrite <- insert_perm. apply perm_skip, IH.
Qed.

Lemma in_sort {A} (comp : A -> A -> bool) (l : list A) (x : A) :
  In x (std.sort comp l) <-> In x l.
Proof.
  split; apply Permutation_in;
    [apply Permutation_sym |]; apply sort_perm.
Qed.

(** ** Facts about the layout detector *)

Section LayoutFacts.

Context {cv : OpenCV}.
Variable new_Session : string -> outcome Session.

Import Layout.

Lemma detect_row_kept is_l sf image thr out i :
  row_kept thr out i ->
  detect_row is_l sf image thr out i = [clamp_box image (restore_box is_l sf out i)].
Proof.
  intros [Hs [Hc0 Hc1]]. unfold detect_row.
  apply geb_le in Hs. rewrite Hs.
  replace (_ >=? 0)%Z with true by (symmetry; apply Z.geb_le; lia).
  replace (_ <? _)%Z with true by (symmetry; apply Z.ltb_lt; simpl; lia).
  reflexivity.
Qed.

Lemma detect_row_dropped is_l sf image thr out i :
  ~ row_kept thr out i -> detect_row is_l sf image thr out i = [].
Proof.
  intros Hn. unfold detect_row.
  destruct (geb _ thr) eqn:Hs; [| reflexivity].
  destruct (_ >=? 0)%Z eqn:H0; [| reflexivity].
  destruct (_ <? _)%Z eqn:H1; [| reflexivity].
  exfalso. apply Hn. apply geb_le in Hs. apply Z.geb_le in H0.
  apply Z.ltb_lt in H1. simpl in H1. split; [exact Hs | lia].
Qed.

Lemma row_kept_dec thr out i : {row_kept thr out i} + {~ row_kept thr out i}.
Proof.
  unfold row_kept.
  destruct (Qlt_le_dec (at_ out (i * 6 + 1)) thr) as [H | H].
  - right. intros [H' _]. lra.
  - destruct (Z_le_dec 0 (static_cast_int (at_ out (i * 6 + 0)))) as [H0 | H0];
      [| right; intros [_ ?]; lia].
    destruct (Z_lt_dec (static_cast_int (at_ out (i * 6 + 0))) 23) as [H1 | H1];
      [| right; intros [_ ?]; lia].
    left. split; [exact H | lia].
Qed.

(** The detections of [parse_output] are the clamped boxes of the rows
    that pass the test. *)
Lemma in_parse_output is_l sf image thr out d :
  In d (parse_output is_l sf image thr out) <->
  exists i, (0 <= i < nth 0 (shape out) 0)%Z
            /\ row_kept thr (data out) i
            /\ d = clamp_box image (restore_box is_l sf (data out) i).
Proof.
  unfold parse_output. rewrite in_flat_map. split.
  - intros (i & Hi & Hd). apply in_range in Hi.
    destruct (row_kept_dec thr (data out) i) as [Hk | Hk].
    + rewrite (detect_row_kept _ _ _ _ _ _ Hk) in Hd.
      destruct Hd as [<- | []]. exists i. auto.
    + rewrite (detect_row_dropped _ _ _ _ _ _ Hk) in Hd. destruct Hd.
  - intros (i & Hi & Hk & ->). exists i. split; [apply in_range, Hi |].
    rewrite (detect_row_kept _ _ _ _ _ _ Hk). left. reflexivity.
Qed.

(** What a call of [detectDocLayout] returns: nothing, or the parsed
    output of one run of the session. *)
Lemma detectDocLayout_cases g image thr r g' :
  detectDocLayout new_Session g image thr = (r, g') ->
  r = Returns [] \/
  exists session output,
    Mat_empty image = false
    /\ g_session g' = Some session
    /\ Run session
         (layout_inputs (GetInputCount session =? 3)%Z image
            (imageToBlob (fst (preprocessImage image 640 640)))
            (layout_scale image) 640 640) = Returns output
    /\ r = Returns (parse_output (GetInputCount session =? 3)%Z
                      (layout_scale image) image thr output).
Proof.
  unfold detectDocLayout, layout_scale.
  destruct (Mat_empty image) eqn:He; [intros [= <- <-]; auto |].
  destruct (initOnnxSession new_Session g) as [init g1].
  intros [= <- <-].
  destruct init as [[] | e]; simpl; [| auto].
  destruct (g_session g1) as [session |] eqn:Hsess; [| auto].
  destruct (Run session _) as [output | e] eqn:Hrun; simpl; [| auto].
  right. exists session, output. auto.
Qed.

(** A call never raises. *)
Lemma detectDocLayout_returns g image thr :
  exists l, fst (detectDocLayout new_Session g image thr) = Returns l.
Proof.
  destruct (detectDocLayout new_Session g image thr) as [r g'] eqn:H.
  apply detectDocLayout_cases in H.
  destruct H as [-> | (s & o & _ & _ & _ & ->)]; simpl; eauto.
Qed.

(** The first scale factor is not negative (and the second neither) when
    the image dimensions are not. *)
Lemma layout_scale_nonneg image k :
  (0 <= rows image)%Z -> (0 <= cols image)%Z -> 0 <= at_ (layout_scale image) k.
Proof.
  intros Hr Hc. unfold layout_scale, preprocessImage, at_, static_cast_float. simpl.
  rewrite Zle_Qle in Hr, Hc.
  assert (Hdiv : forall a b : Q, 0 <= a -> 0 <= b -> 0 <= a / b).
  { intros a b Ha Hb. unfold Qdiv. apply Qmult_le_0_compat; [exact Ha |].
    destruct (Qeq_dec b 0) as [E | E].
    - rewrite E. unfold Qinv; simpl. lra.
    - apply Qlt_le_weak, Qinv_lt_0_compat. lra. }
  assert (H640 : 0 <= inject_Z 640) by (unfold Qle; simpl; lia).
  destruct (Z.to_nat k) as [| [| n]]; simpl.
  - apply Hdiv; [exact H640 | exact Hc].
  - apply Hdiv; [exact H640 | exact Hr].
  - destruct n; lra.
Qed.

Lemma inv_scale_nonneg is_l sf k : 0 <= at_ sf k -> 0 <= inv_scale is_l sf k.
Proof.
  intros H. unfold inv_scale. destruct is_l; [lra |].
  unfold Qdiv. rewrite Qmult_1_l.
  destruct (Qeq_dec (at_ sf k) 0) as [E | E].
  - rewrite E. unfold Qinv; simpl. lra.
  - apply Qlt_le_weak, Qinv_lt_0_compat. lra.
Qed.

End LayoutFacts.

(** ** Facts about the bounding rectangle of a box *)

Lemma bounding_fold (pts : list Point2f) (a b c d : float) :
  fold_left
    (fun '(min_x, max_x, min_y, max_y) p =>
       (std.min min_x (px p), std.max max_x (px p),
        std.min min_y (py p), std.max max_y (py p)))
    pts (a, b, c, d)
  = (fold_left (fun v p => std.min v (px p)) pts a,
     fold_left (fun v p => std.max v (px p)) pts b,
     fold_left (fun v p => std.min v (py p)) pts c,
     fold_left (fun v p => std.max v (py p)) pts d).
Proof.
  revert a b c d. induction pts as [| p pts IH]; intros; simpl; [reflexivity |].
  apply IH.
Qed.

Lemma fold_min_le (f : Point2f -> float) (pts : list Point2f) (a : float) :
  fold_left (fun v p => std.min v (f p)) pts a <= a.
Proof.
  revert a. induction pts as [| p pts IH]; intros a; simpl; [lra |].
  eapply Qle_trans; [apply IH | apply min_le_l].
Qed.

Lemma fold_max_ge (f : Point2f -> float) (pts : list Point2f) (a : float) :
  a <= fold_left (fun v p => std.max v (f p)) pts a.
Proof.
  revert a. induction pts as [| p pts IH]; intros a; simpl; [lra |].
  eapply Qle_trans; [apply max_ge_l | apply IH].
Qed.

Lemma fold_min_glb (f : Point2f -> float) (pts : list Point2f) (a lo : float) :
  lo <= a -> (forall p, In p pts -> lo <= f p) ->
  lo <= fold_left (fun v p => std.min v (f p)) pts a.
Proof.
  revert a. induction pts as [| p pts IH]; intros a Ha Hp; simpl; [exact Ha |].
  apply IH; [apply min_glb; [exact Ha | apply Hp; left; reflexivity] |].
  intros q Hq. apply Hp. right. exact Hq.
Qed.

Lemma fold_max_lub (f : Point2f -> float) (pts : list Point2f) (a hi : float) :
  a <= hi -> (forall p, In p pts -> f p <= hi) ->
  fold_left (fun v p => std.max v (f p)) pts a <= hi.
Proof.
  revert a. induction pts as [| p pts IH]; intros a Ha Hp; simpl; [exact Ha |].
  apply IH; [apply max_lub; [exact Ha | apply Hp; left; reflexivity] |].
  intros q Hq. apply Hp. right. exact Hq.
Qed.

(** The rectangle computed from the points of a box is ordered. *)
Lemma bounding_ordered (pts : list Point2f) (min_x max_x min_y max_y : float) :
  Ocr.bounding pts = (min_x, max_x, min_y, max_y) ->
  min_x <= max_x /\ min_y <= max_y.
Proof.
  unfold Ocr.bounding. rewrite bounding_fold. intros [= <- <- <- <-].
  split.
  - eapply Qle_trans; [apply fold_min_le | apply fold_max_ge].
  - eapply Qle_trans; [apply fold_min_le | apply fold_max_ge].
Qed.

(** It lies in the region that holds the points. *)
Lemma bounding_within (pts : list Point2f) (w h : float)
    (min_x max_x min_y max_y : float) :
  pts <> [] ->
  (forall p, In p pts -> (0 <= px p /\ px p <= w) /\ (0 <= py p /\ py p <= h)) ->
  Ocr.bounding pts = (min_x, max_x, min_y, max_y) ->
  (0 <= min_x /\ max_x <= w) /\ (0 <= min_y /\ max_y <= h).
Proof.
  intros Hne Hin. unfold Ocr.bounding. rewrite bounding_fold.
  intros [= <- <- <- <-].
  destruct pts as [| p0 pts]; [congruence |].
  assert (H0 := Hin p0 (or_introl eq_refl)).
  cbn [nth].
  repeat split.
  - apply fold_min_glb; [apply H0 | intros; apply Hin; assumption].
  - apply fold_max_lub; [apply H0 | intros; apply Hin; assumption].
  - apply fold_min_glb; [apply H0 | intros; apply Hin; assumption].
  - apply fold_max_lub; [apply H0 | intros; apply Hin; assumption].
Qed.

(** ** Facts about the DB decoder *)

Section DbFacts.

Context {m : LibM} {cv : OpenCV}.

Import Ocr.

Lemma swap_top_perm pts : Permutation pts (swap_top pts).
Proof.
  unfold swap_top. destruct pts as [| p0 [| p1 rest]]; try reflexivity.
  destruct (gtb _ _); [apply perm_swap | reflexivity].
Qed.

Lemma swap_bottom_perm pts : Permutation pts (swap_bottom pts).
Proof.
  unfold swap_bottom.
  destruct pts as [| p0 [| p1 [| p2 [| p3 rest]]]]; try reflexivity.
  destruct (ltb _ _); [| reflexivity].
  do 2 apply perm_skip. apply perm_swap.
Qed.

Lemma in_db_contour prob_map height width sx sy ow oh box_threshold contour b :
  In b (db_contour prob_map height width sx sy ow oh box_threshold contour) <->
  contour_kept prob_map height width box_threshold contour
  /\ b = {| points :=
              swap_bottom
                (swap_top
                   (std.sort (fun a b => ltb (py a) (py b))
                      (map (map_back sx sy ow oh) (vertices_of contour))));
            box_score := cv.mean prob_map (drawContours_filled height width contour) |}.
Proof.
  unfold db_contour, contour_kept, vertices_of.
  destruct (Z.of_nat (List.length contour) <? 4)%Z eqn:Hlen.
  { apply Z.ltb_lt in Hlen. split; [intros [] | intros [[? _] _]; lia]. }
  apply Z.ltb_ge in Hlen.
  destruct (RotatedRect_points (minAreaRect contour)) as [[[v0 v1] v2] v3].
  cmp (cv.mean prob_map (drawContours_filled height width contour)) box_threshold.
  { split; [intros [] | intros [(_ & ? & _) _]; lra]. }
  cmp (std.min (size_width (minAreaRect contour)) (size_height (minAreaRect contour))) 3.
  { split; [intros [] | intros [(_ & _ & ?) _]; lra]. }
  split.
  - intros [<- | []]. auto.
  - intros [_ ->]. left. reflexivity.
Qed.

Lemma in_DBPostProcess data height width sx sy ow oh threshold box_threshold b :
  In b (DBPostProcess data height width sx sy ow oh threshold box_threshold) <->
  exists contour,
    In contour
       (findContours
          (cv.convertTo_8U (cv.threshold (db_prob_map data) threshold 1) 255)
          height width)
    /\ In b (db_contour (db_prob_map data) height width sx sy ow oh
               box_threshold contour).
Proof.
  unfold DBPostProcess. rewrite in_sort, in_flat_map. reflexivity.
Qed.

(** Every box of the decoder has four points, each inside the original
    image. *)
Lemma DBPostProcess_points data height width sx sy ow oh threshold box_threshold b :
  (0 <= ow)%Z -> (0 <= oh)%Z ->
  In b (DBPostProcess data height width sx sy ow oh threshold box_threshold) ->
  List.length (points b) = 4%nat
  /\ forall p, In p (points b) ->
       (0 <= px p /\ px p <= inject_Z ow) /\ (0 <= py p /\ py p <= inject_Z oh).
Proof.
  intros Hw Hh Hb. apply in_DBPostProcess in Hb.
  destruct Hb as (contour & _ & Hb). apply in_db_contour in Hb.
  destruct Hb as [_ ->]. cbn [points].
  set (vs := map (map_back sx sy ow oh) (vertices_of contour)).
  assert (Hperm : Permutation vs
            (swap_bottom (swap_top (std.sort (fun a b => ltb (py a) (py b)) vs)))).
  { rewrite <- swap_bottom_perm, <- swap_top_perm. apply sort_perm. }
  split.
  - rewrite <- (Permutation_length Hperm). unfold vs, vertices_of.
    destruct (RotatedRect_points (minAreaRect contour)) as [[[v0 v1] v2] v3].
    reflexivity.
  - intros p Hp. apply (Permutation_in _ (Permutation_sym Hperm)) in Hp.
    unfold vs in Hp. apply in_map_iff in Hp. destruct Hp as (v & <- & _).
    unfold map_back. cbn [px py].
    split; apply clamp_range; assumption.
Qed.

End DbFacts.

(** ** Facts about means *)

Lemma sum_unit (l : list float) :
  Forall Spec.unit_interval l ->
  0 <= cv.sum l /\ cv.sum l <= inject_Z (Z.of_nat (List.length l)).
Proof.
  induction 1 as [| v l [Hv0 Hv1] _ [IH0 IH1]].
  - simpl. change (inject_Z 0) with 0. split; lra.
  - change (cv.sum (v :: l)) with (v + cv.sum l).
    change (List.length (v :: l)) with (S (List.length l)).
    rewrite Nat2Z.inj_succ, <- Z.add_1_r, inject_Z_plus.
    change (inject_Z 1) with 1. split; lra.
Qed.

Lemma quotient_unit (s : float) (n : Z) :
  (0 < n)%Z -> 0 <= s -> s <= inject_Z n ->
  Spec.unit_interval (s / inject_Z n).
Proof.
  intros Hn Hs0 Hs1.
  assert (Hpos : 0 < inject_Z n) by (rewrite Zlt_Qlt in Hn; exact Hn).
  split.
  - apply Qle_shift_div_l; [exact Hpos | lra].
  - apply Qle_shift_div_r; [exact Hpos | lra].
Qed.

Lemma masked_incl (m : list float) (mask : list Z) (v : float) :
  In v (cv.masked m mask) -> In v m.
Proof.
  unfold cv.masked. rewrite in_map_iff. intros ([v' k] & <- & H).
  apply filter_In in H. destruct H as [H _]. apply in_combine_l in H. exact H.
Qed.

(** The mean of probabilities under a mask is a probability. *)
Lemma mean_unit (m : list float) (mask : list Z) :
  Forall Spec.unit_interval m -> Spec.unit_interval (cv.mean m mask).
Proof.
  intros Hm. unfold cv.mean.
  assert (Hsel : Forall Spec.unit_interval (cv.masked m mask)).
  { apply Forall_forall. intros v Hv. apply masked_incl in Hv.
    revert v Hv. apply Forall_forall. exact Hm. }
  destruct (cv.masked m mask) as [| v sel] eqn:E.
  - split; lra.
  - destruct (sum_unit _ Hsel) as [H0 H1].
    apply quotient_unit; [simpl; lia | exact H0 | exact H1].
Qed.

(** ** Facts about the CTC decoder *)

Lemma append_assoc (a b c : string) : ((a ++ b) ++ c = a ++ (b ++ c))%string.
Proof. induction a as [| ch a IH]; simpl; [reflexivity | f_equal; exact IH]. Qed.

Lemma append_nil_r (a : string) : (a ++ "" = a)%string.
Proof. induction a as [| ch a IH]; simpl; [reflexivity | f_equal; exact IH]. Qed.

Section CtcFacts.

Context {m : LibM}.

Import Ocr.

Lemma argmax_fold (probs : list float) (l : list Z) (idx : Z) (val : float) :
  val = at_ probs idx -> (0 <= idx)%Z -> (forall v, In v l -> (1 <= v)%Z) ->
  let r :=
    fold_left
      (fun '(max_idx, max_val) v =>
         if gtb (at_ probs v) max_val then (v, at_ probs v) else (max_idx, max_val))
      l (idx, val) in
  snd r = at_ probs (fst r) /\ (0 <= fst r)%Z /\ (fst r = idx \/ In (fst r) l).
Proof.
  revert idx val. induction l as [| v l IH]; intros idx val Hval Hidx Hl; simpl.
  - auto.
  - assert (Hv : (1 <= v)%Z) by (apply Hl; left; reflexivity).
    destruct (gtb (at_ probs v) val).
    + destruct (IH v (at_ probs v) eq_refl ltac:(lia)
                  (fun u Hu => Hl u (or_intror Hu))) as (H1 & H2 & H3).
      repeat split; [exact H1 | exact H2 |]. right. destruct H3; auto.
    + destruct (IH idx val Hval Hidx (fun u Hu => Hl u (or_intror Hu)))
        as (H1 & H2 & H3).
      repeat split; [exact H1 | exact H2 |]. destruct H3; auto.
Qed.

(** The argmax loop returns an index that is 0 or one of [1 .. vocab_size-1],
    with the probability at that index. *)
Lemma argmax_spec (probs : list float) (vocab_size : Z) :
  snd (argmax probs vocab_size) = at_ probs (fst (argmax probs vocab_size))
  /\ ((fst (argmax probs vocab_size) = 0)%Z
      \/ (1 <= fst (argmax probs vocab_size) < vocab_size)%Z).
Proof.
  unfold argmax.
  destruct (argmax_fold probs (range 1 vocab_size) 0 (at_ probs 0) eq_refl
              ltac:(lia) (fun v Hv => proj1 (proj1 (in_range _ _ _) Hv)))
    as (H1 & _ & H3).
  split; [exact H1 |].
  destruct H3 as [H3 | H3]; [left; exact H3 | right; apply in_range, H3].
Qed.

Lemma argmax_nonneg (probs : list float) (vocab_size : Z) :
  (0 <= fst (argmax probs vocab_size))%Z.
Proof. destruct (argmax_spec probs vocab_size) as [_ [H | H]]; lia. Qed.

Lemma ctc_steps_nonneg data seq_len vocab_size s :
  In s (ctc_steps data seq_len vocab_size) -> (0 <= fst s)%Z.
Proof.
  unfold ctc_steps. rewrite in_map_iff. intros (t & <- & _). apply argmax_nonneg.
Qed.

(** The loop over the timesteps is the loop over their argmax pairs. *)
Lemma ctc_loop_steps dict data seq_len vocab_size :
  ctc_loop dict data seq_len vocab_size
  = fold_left (fun st s => ctc_emit dict st (fst s) (snd s))
      (ctc_steps data seq_len vocab_size) ctc_init.
Proof.
  unfold ctc_loop, ctc_steps. generalize ctc_init, (range 0 seq_len).
  intros st l. revert st. induction l as [| t l IH]; intros st; simpl.
  - reflexivity.
  - rewrite <- IH. f_equal. unfold ctc_step.
    destruct (argmax _ vocab_size) as [max_idx max_val]. reflexivity.
Qed.

(** One step of the loop, by the emission rule. *)
Lemma ctc_emit_spec dict st idx p :
  (0 <= idx)%Z ->
  ctc_emit dict st idx p
  = if Spec.emits dict (prev_idx st) idx
    then {| result := (result st ++ nth (Z.to_nat idx) dict "")%string;
            total_score := total_score st + p;
            char_count := char_count st + 1;
            prev_idx := idx |}
    else {| result := result st; total_score := total_score st;
            char_count := char_count st; prev_idx := idx |}.
Proof.
  intros Hidx. unfold ctc_emit, Spec.emits.
  replace (0 <=? idx)%Z with true by (symmetry; apply Z.leb_le; exact Hidx).
  destruct (idx =? 0)%Z; [reflexivity |].
  destruct (idx =? prev_idx st)%Z; [reflexivity |].
  destruct (idx <? Z.of_nat (List.length dict))%Z; reflexivity.
Qed.

Lemma emit_fold dict steps st :
  (forall s, In s steps -> (0 <= fst s)%Z) ->
  let es := Spec.emitted dict (prev_idx st) steps in
  let st' := fold_left (fun st s => ctc_emit dict st (fst s) (snd s)) steps st in
  result st' = (result st ++ Spec.tokens dict es)%string
  /\ char_count st' = (char_count st + Z.of_nat (List.length es))%Z
  /\ total_score st' == total_score st + cv.sum (map snd es).
Proof.
  revert st. induction steps as [| [idx p] steps IH]; intros st Hnn.
  - simpl. rewrite append_nil_r. repeat split; [lia | unfold cv.sum; simpl; lra].
  - assert (Hidx : (0 <= idx)%Z) by (apply (Hnn (idx, p)); left; reflexivity).
    cbn [fold_left Spec.emitted fst snd].
    rewrite (ctc_emit_spec dict st idx p Hidx).
    destruct (Spec.emits dict (prev_idx st) idx).
    + specialize (IH {| result := (result st ++ nth (Z.to_nat idx) dict "")%string;
                        total_score := total_score st + p;
                        char_count := char_count st + 1;
                        prev_idx := idx |}
                     (fun s Hs => Hnn s (or_intror Hs))).
      cbn [result total_score char_count prev_idx] in IH.
      destruct IH as (H1 & H2 & H3). cbv zeta.
      rewrite H1, H2, H3. cbn [Spec.tokens fold_right List.length map fst snd].
      rewrite append_assoc. repeat split; [lia |].
      change (cv.sum (p :: map snd (Spec.emitted dict idx steps)))
        with (p + cv.sum (map snd (Spec.emitted dict idx steps))).
      ring.
    + specialize (IH {| result := result st; total_score := total_score st;
                        char_count := char_count st; prev_idx := idx |}
                     (fun s Hs => Hnn s (or_intror Hs))).
      cbn [result total_score char_count prev_idx] in IH. exact IH.
Qed.

(** The state after the loop, in the words of the specification. *)
Lemma ctc_loop_spec dict data seq_len vocab_size :
  let es := Spec.emitted dict (-1) (ctc_steps data seq_len vocab_size) in
  let st := ctc_loop dict data seq_len vocab_size in
  result st = Spec.tokens dict es
  /\ char_count st = Z.of_nat (List.length es)
  /\ total_score st == cv.sum (map snd es).
Proof.
  cbv zeta. rewrite ctc_loop_steps.
  destruct (emit_fold dict (ctc_steps data seq_len vocab_size) ctc_init
              (ctc_steps_nonneg data seq_len vocab_size)) as (H1 & H2 & H3).
  cbn [ctc_init result char_count total_score prev_idx] in H1, H2, H3.
  rewrite H1, H2, H3. simpl. repeat split. ring.
Qed.

End CtcFacts.

(** ** The CTC decoder *)

Section CtcClaims.

Context {m : LibM}.

Import Ocr.

Lemma ctc_loop_succ dict data vocab_size t :
  (0 <= t)%Z ->
  ctc_loop dict data (t + 1) vocab_size
  = ctc_emit dict (ctc_loop dict data t vocab_size)
      (fst (ctc_step_at data vocab_size t)) (snd (ctc_step_at data vocab_size t)).
Proof.
  intros Ht. unfold ctc_loop. rewrite (range_snoc 0 t Ht), fold_left_app.
  cbn [fold_left]. unfold ctc_step at 1, ctc_step_at.
  destruct (argmax _ vocab_size) as [max_idx max_val]. reflexivity.
Qed.

Lemma prev_idx_ctc_emit dict st idx p : prev_idx (ctc_emit dict st idx p) = idx.
Proof. reflexivity. Qed.

(** Before timestep [t] the loop holds the raw argmax index of timestep
    [t - 1], and -1 before the first. *)
Lemma prev_idx_ctc_loop dict data vocab_size t :
  (0 <= t)%Z ->
  prev_idx (ctc_loop dict data t vocab_size)
  = if (t =? 0)%Z then (-1)%Z else fst (ctc_step_at data vocab_size (t - 1)).
Proof.
  intros Ht. destruct (t =? 0)%Z eqn:E.
  - apply Z.eqb_eq in E. subst t. reflexivity.
  - apply Z.eqb_neq in E. replace t with (t - 1 + 1)%Z at 1 by lia.
    rewrite ctc_loop_succ by lia. apply prev_idx_ctc_emit.
Qed.

Lemma emits_blank dict prev : Spec.emits dict prev 0 = false.
Proof. reflexivity. Qed.

Lemma emits_repeat dict idx : Spec.emits dict idx idx = false.
Proof.
  unfold Spec.emits. rewrite Z.eqb_refl. simpl.
  rewrite andb_false_r. reflexivity.
Qed.

Lemma emitted_all_blank dict prev steps :
  (forall s, In s steps -> fst s = 0%Z) -> Spec.emitted dict prev steps = [].
Proof.
  revert prev. induction steps as [| [idx p] steps IH]; intros prev H; simpl.
  - reflexivity.
  - assert (idx = 0%Z) by (apply (H (idx, p)); left; reflexivity). subst idx.
    rewrite emits_blank. apply IH. intros s Hs. apply H. right. exact Hs.
Qed.

(** C5.  The emission rule of the CTC decoder and repeat collapsing.  At
    every timestep [t] the loop holds the raw argmax index of the preceding
    timestep (-1 before the first); the step appends the dictionary token
    of the argmax index and counts one more character exactly when that
    index is not the blank, differs from the preceding raw argmax index and
    is a valid dictionary index, and appends nothing otherwise.  Hence the
    decoded text is the concatenation of the tokens of the emitting
    timesteps.  In particular a run whose argmax indices are 0,5,5,0,5,
    with token 5 being "A", decodes to "AA". *)
Theorem ctc_emission_rule (dict : list string) (data : list float)
    (seq_len vocab_size : Z) :
  (forall t, (0 <= t)%Z ->
     let st := ctc_loop dict data t vocab_size in
     let st' := ctc_loop dict data (t + 1) vocab_size in
     let idx := fst (ctc_step_at data vocab_size t) in
     prev_idx st
     = (if (t =? 0)%Z then (-1)%Z else fst (ctc_step_at data vocab_size (t - 1)))
     /\ (Spec.emits dict (prev_idx st) idx = true ->
         result st' = (result st ++ nth (Z.to_nat idx) dict "")%string
         /\ char_count st' = (char_count st + 1)%Z)
     /\ (Spec.emits dict (prev_idx st) idx = false ->
         result st' = result st /\ char_count st' = char_count st))
  /\ fst (CTCDecode dict data seq_len vocab_size)
     = Spec.decoded dict (ctc_steps data seq_len vocab_size)
  /\ (map fst (ctc_steps data seq_len vocab_size) = [0; 5; 5; 0; 5]%Z ->
      nth 5 dict ""%string = "A"%string ->
      fst (CTCDecode dict data seq_len vocab_size) = "AA"%string).
Proof.
  assert (Htext : fst (CTCDecode dict data seq_len vocab_size)
                  = Spec.decoded dict (ctc_steps data seq_len vocab_size)).
  { unfold CTCDecode, Spec.decoded. cbn [fst].
    apply (ctc_loop_spec dict data seq_len vocab_size). }
  split; [| split; [exact Htext |]].
  - intros t Ht. cbv zeta. split; [apply prev_idx_ctc_loop, Ht |].
    rewrite (ctc_loop_succ dict data vocab_size t Ht).
    set (a := ctc_step_at data vocab_size t).
    assert (Ha : (0 <= fst a)%Z) by apply argmax_nonneg.
    rewrite (ctc_emit_spec dict _ (fst a) (snd a) Ha).
    split; intros ->; cbn [result char_count]; auto.
  - intros Hidx HA. rewrite Htext. unfold Spec.decoded.
    assert (Hlen : (5 <? Z.of_nat (List.length dict))%Z = true).
    { apply Z.ltb_lt. destruct (Nat.le_gt_cases (List.length dict) 5) as [Hle | Hgt].
      - rewrite (nth_overflow _ _ Hle) in HA. discriminate HA.
      - lia. }
    destruct (ctc_steps data seq_len vocab_size)
      as [| [i0 p0] [| [i1 p1] [| [i2 p2] [| [i3 p3] [| [i4 p4] [| s5 rest]]]]]];
      try discriminate Hidx.
    cbn [map fst] in Hidx. injection Hidx as -> -> -> -> ->.
    cbn [Spec.emitted]. rewrite !emits_blank, emits_repeat.
    assert (He : forall prev, (5 =? prev)%Z = false ->
                 Spec.emits dict prev 5 = true).
    { intros prev Hp. unfold Spec.emits. rewrite Hp, Hlen. reflexivity. }
    rewrite !He by reflexivity.
    cbn [Spec.tokens fold_right fst]. change (Z.to_nat 5) with 5%nat.
    rewrite HA. reflexivity.
Qed.


End CtcClaims.

(** C5 on the one-hot tensor with argmax indices 0,5,5,0,5. *)
Lemma ctc_emission_rule_witness :
  map fst (@Ocr.ctc_steps Vectors.libm (Vectors.one_hot 8 [0; 5; 5; 0; 5]%nat) 5 8)
  = [0; 5; 5; 0; 5]%Z
  /\ nth 5 Vectors.dictionary ""%string = "A"%string
  /\ fst (@Ocr.CTCDecode Vectors.libm Vectors.dictionary
            (Vectors.one_hot 8 [0; 5; 5; 0; 5]%nat) 5 8)
     = "AA"%string.
Proof.
  assert (H1 : map fst (@Ocr.ctc_steps Vectors.libm
                          (Vectors.one_hot 8 [0; 5; 5; 0; 5]%nat) 5 8)
               = [0; 5; 5; 0; 5]%Z) by (vm_compute; reflexivity).
  assert (H2 : nth 5 Vectors.dictionary ""%string = "A"%string) by reflexivity.
  split; [exact H1 | split; [exact H2 |]].
  exact (proj2 (proj2 (@ctc_emission_rule Vectors.libm Vectors.dictionary
                         (Vectors.one_hot 8 [0; 5; 5; 0; 5]%nat) 5 8)) H1 H2).
Defined.


(** ** Facts about cropping and recognition *)

Lemma static_cast_int_ge_1 (v : float) : 1 <= v -> (1 <= static_cast_int v)%Z.
Proof.
  intros H. unfold static_cast_int. unfold Qle in H. simpl in H.
  apply Z.quot_le_lower_bound; lia.
Qed.

Section OcrFacts.

Context {m : LibM} {cv : OpenCV}.

Import Ocr.

(** What [CropTextRegion] returns: the empty image, or an image of at
    least one row and column whose height is at most 1.5 times its width. *)
Lemma CropTextRegion_cases image box crop :
  CropTextRegion image box = Returns crop ->
  crop = Mat_default
  \/ (List.length (points box) = 4%nat
      /\ (1 <= rows crop)%Z /\ (1 <= cols crop)%Z
      /\ inject_Z (rows crop) <= inject_Z (cols crop) * (3 # 2)).
Proof.
  unfold CropTextRegion.
  destruct (List.length (points box) =? 4)%nat eqn:Hlen; simpl;
    [| intros [= <-]; left; reflexivity].
  apply Nat.eqb_eq in Hlen.
  destruct (bounding_rect image box) as [[[bx1 by1] bx2] by2].
  destruct ((bx2 <=? bx1)%Z || (by2 <=? by1)%Z);
    [intros [= <-]; left; reflexivity |].
  set (w0 := sqrt _). set (h0 := sqrt _).
  set (width := if ltb w0 1 then 1 else w0).
  set (height := if ltb h0 1 then 1 else h0).
  assert (Hw : (1 <= static_cast_int width)%Z).
  { apply static_cast_int_ge_1. unfold width. cmp w0 1; lra. }
  assert (Hh : (1 <= static_cast_int height)%Z).
  { apply static_cast_int_ge_1. unfold height. cmp h0 1; lra. }
  destruct (warpPerspective_pixels _ _ _ _ _) as [warped | e]; simpl;
    [| discriminate].
  unfold static_cast_float.
  assert (Hw' : 1 <= inject_Z (static_cast_int width))
    by (rewrite Zle_Qle in Hw; exact Hw).
  assert (Hh' : 1 <= inject_Z (static_cast_int height))
    by (rewrite Zle_Qle in Hh; exact Hh).
  destruct (gtb _ _) eqn:Hrot; intros [= <-]; right; cbn [rows cols];
    (split; [exact Hlen | split; [assumption | split; [assumption |]]]).
  - apply gtb_lt in Hrot. lra.
  - apply gtb_le in Hrot. exact Hrot.
Qed.

(** [RecognizeRegion] catches what the recognition raises. *)
Lemma RecognizeRegion_returns eng region :
  exists r, RecognizeRegion eng region = Returns r.
Proof.
  unfold RecognizeRegion.
  destruct (initialized_ eng); [| eauto].
  destruct (rec_session_ eng) as [session |]; [| eauto].
  destruct (Mat_empty region); [eauto |].
  destruct (PreprocessForRecognition region) as [blob width].
  destruct (Run session _); simpl; eauto.
Qed.

(** What [DetectText] returns: nothing, or the boxes that [DBPostProcess]
    finds in the output of the detection model, with box threshold 0.3 and
    the dimensions of the image. *)
Lemma DetectText_cases eng image threshold :
  DetectText eng image threshold = Returns []
  \/ exists data height width sx sy,
       DetectText eng image threshold
       = Returns (DBPostProcess data height width sx sy (cols image) (rows image)
                    threshold (3 # 10)).
Proof.
  unfold DetectText.
  destruct (initialized_ eng); [| auto].
  destruct (det_session_ eng) as [session |]; [| auto].
  destruct (Mat_empty image); [auto |].
  destruct (PreprocessForDetection image) as [[[[[blob height] width] sx] sy] | e0];
    simpl; [| auto].
  destruct (Run session _) as [outputs | e]; simpl; [| auto].
  right. eauto 6.
Qed.

(** The loop over the boxes appends the lines of the boxes, in order. *)
Lemma recognize_boxes_spec eng image rec_threshold boxes results rs :
  recognize_boxes eng image rec_threshold boxes results = Returns rs ->
  rs = results ++ flat_map (box_lines eng image rec_threshold) boxes.
Proof.
  revert results. induction boxes as [| box boxes IH]; intros results; simpl.
  - intros [= <-]. rewrite app_nil_r. reflexivity.
  - unfold box_lines at 1.
    destruct (CropTextRegion image box) as [region | e]; simpl; [| discriminate].
    destruct (Mat_empty region); [apply IH |].
    destruct (RecognizeRegion eng region) as [[text score] | e]; simpl;
      [| discriminate].
    destruct (String.length text =? 0)%nat; [apply IH |].
    destruct (ltb score rec_threshold); [apply IH |].
    unfold text_line.
    destruct (bounding (points box)) as [[[min_x max_x] min_y] max_y].
    intros H. apply IH in H. rewrite <- app_assoc in H. exact H.
Qed.

(** A line of a box: where it comes from. *)
Lemma in_box_lines eng image rec_threshold box r :
  In r (box_lines eng image rec_threshold box) ->
  exists region,
    CropTextRegion image box = Returns region
    /\ Mat_empty region = false
    /\ RecognizeRegion eng region = Returns (text r, score r)
    /\ text r <> ""%string
    /\ rec_threshold <= score r
    /\ r = text_line box (text r) (score r).
Proof.
  unfold box_lines.
  destruct (CropTextRegion image box) as [region | e]; [| intros []].
  destruct (Mat_empty region) eqn:Hregion; [intros [] |].
  destruct (RecognizeRegion eng region) as [[t s] | e] eqn:Hrec; [| intros []].
  destruct (String.length t =? 0)%nat eqn:Ht; [intros [] |].
  cmp s rec_threshold; [intros [] |].
  intros [<- | []]. exists region.
  assert (Htl : text (text_line box t s) = t /\ score (text_line box t s) = s).
  { unfold text_line.
    destruct (bounding (points box)) as [[[min_x max_x] min_y] max_y]. auto. }
  destruct Htl as [-> ->].
  repeat split; try assumption.
  intros ->. discriminate Ht.
Qed.

Lemma text_line_rect box t s :
  bounding (points box)
  = (x1 (text_line box t s), x2 (text_line box t s),
     y1 (text_line box t s), y2 (text_line box t s)).
Proof.
  unfold text_line.
  destruct (bounding (points box)) as [[[min_x max_x] min_y] max_y]. reflexivity.
Qed.

(** What [RecognizeText] returns: the lines of the detected boxes. *)
Lemma RecognizeText_spec eng image det_threshold rec_threshold rs :
  RecognizeText eng image det_threshold rec_threshold = Returns rs ->
  exists boxes,
    DetectText eng image det_threshold = Returns boxes
    /\ rs = flat_map (box_lines eng image rec_threshold) boxes.
Proof.
  unfold RecognizeText.
  destruct (DetectText_cases eng image det_threshold) as [Hd | (d & h & w & sx & sy & Hd)].
  - destruct (negb (initialized_ eng)); [intros [= <-]; exists []; auto |].
    destruct (Mat_empty image); [intros [= <-]; exists []; auto |].
    rewrite Hd. simpl. intros [= <-]. exists []. auto.
  - destruct (negb (initialized_ eng)) eqn:Hi.
    { intros [= <-]. exists []. split; [| reflexivity].
      unfold DetectText. apply negb_true_iff in Hi. rewrite Hi. reflexivity. }
    destruct (Mat_empty image) eqn:He.
    { intros [= <-]. exists []. split; [| reflexivity].
      unfold DetectText. destruct (initialized_ eng); [| reflexivity].
      destruct (det_session_ eng); [| reflexivity]. rewrite He. reflexivity. }
    rewrite Hd. simpl.
    destruct (DBPostProcess d h w sx sy (cols image) (rows image) det_threshold (3 # 10))
      as [| b bs] eqn:Hb.
    + intros [= <-]. exists []. auto.
    + intros H. apply recognize_boxes_spec in H. exists (b :: bs). auto.
Qed.

End OcrFacts.

(** ** The layout post-processor *)

(** The clamp respects the equality of numbers, and leaves a value of
    [[0, c]] as it is. *)
Lemma clamp_compat (a b c : float) :
  a == b -> std.max 0 (std.min a c) == std.max 0 (std.min b c).
Proof.
  intros E.
  destruct (min_cases a c) as [[Ha Ea] | [Ha Ea]];
    destruct (min_cases b c) as [[Hb Eb] | [Hb Eb]];
    destruct (max_cases 0 (std.min a c)) as [[Hma Ema] | [Hma Ema]];
    destruct (max_cases 0 (std.min b c)) as [[Hmb Emb] | [Hmb Emb]];
    rewrite Ema, Emb; rewrite ?Ea, ?Eb in *; lra.
Qed.

Lemma clamp_eq (w u c : float) :
  w == u -> 0 <= u -> u <= c -> std.max 0 (std.min w c) == u.
Proof.
  intros E H0 H1.
  destruct (min_cases w c) as [[? ->] | [? ->]].
  - destruct (max_cases 0 c) as [[? ->] | [? ->]]; lra.
  - destruct (max_cases 0 w) as [[? ->] | [? ->]]; lra.
Qed.

Section LayoutClaims.

Context {m : LibM} {cv : OpenCV}.
Variable new_Session : string -> outcome Session.

Import Layout.

(** A call on a non-empty image with the session in place parses the
    output of one run; the variant is chosen by the number of inputs. *)
Lemma detectDocLayout_run g image thr session output :
  g_initialized g = true ->
  g_session g = Some session ->
  Mat_empty image = false ->
  Run session
    (layout_inputs (GetInputCount session =? 3)%Z image
       (imageToBlob (fst (preprocessImage image 640 640)))
       (layout_scale image) 640 640) = Returns output ->
  detectDocLayout new_Session g image thr
  = (Returns (parse_output (GetInputCount session =? 3)%Z (layout_scale image)
                image thr output), g).
Proof.
  intros Hi Hs He Hrun. unfold detectDocLayout, initOnnxSession, layout_scale in *.
  rewrite He, Hi, Hs. simpl. cbv zeta in Hrun. simpl in Hrun. rewrite Hrun.
  reflexivity.
Qed.

(** What a Detection carries for row [i]: the score of the row and its
    four coordinates, mapped back by [back] and clamped to the image. *)
Lemma clamp_box_restore_box (is_l : bool) (sf : list float) (image : Mat)
    (out : list float) (i : Z) :
  let raw (k : Z) := at_ out (i * 6 + k) in
  let back (k : Z) (v : float) := if is_l then v else v / at_ sf k in
  let clamp_x (v : float) := std.max 0 (std.min v (static_cast_float (cols image))) in
  let clamp_y (v : float) :=
    std.max 0 (std.min v (static_cast_float (rows image))) in
  let d := clamp_box image (restore_box is_l sf out i) in
  x1 d == clamp_x (back 0%Z (raw 2%Z)) /\ y1 d == clamp_y (back 1%Z (raw 3%Z))
  /\ x2 d == clamp_x (back 0%Z (raw 4%Z)) /\ y2 d == clamp_y (back 1%Z (raw 5%Z))
  /\ score d = raw 1%Z.
Proof.
  cbv zeta. cbn [clamp_box restore_box x1 y1 x2 y2 score]. unfold inv_scale.
  destruct is_l; repeat split; try reflexivity; apply clamp_compat;
    unfold Qdiv; ring.
Qed.

(** C7.  Scaling of the two layout variants.  A call whose model has 3
    inputs is an L call, any other an M call.  The Detections that the call
    returns are exactly those of the rows that pass the test, and the
    Detection of a row carries the score of the row and its four
    coordinates, clamped to the image, after they were divided by the
    scale factor of their axis in an M call and left as they are in an L
    call.  Hence, on an image whose scale factors are (2,2) and a row that
    passes the test and lies inside the image, the Detection that a call
    with a 2-input model returns has exactly half the coordinates of the
    Detection that a call with a 3-input model returns for the same
    output. *)
Theorem layout_m_vs_l_scaling (g : Globals) (image : Mat) (thr : float)
    (session : Session) (output : Tensor) :
  g_initialized g = true -> g_session g = Some session ->
  Mat_empty image = false ->
  Run session
    (layout_inputs (GetInputCount session =? 3)%Z image
       (imageToBlob (fst (preprocessImage image 640 640)))
       (layout_scale image) 640 640) = Returns output ->
  let is_l := (GetInputCount session =? 3)%Z in
  let sf := layout_scale image in
  let rows_ := nth 0 (shape output) 0%Z in
  let raw (i k : Z) := at_ (data output) (i * 6 + k) in
  let back (k : Z) (v : float) := if is_l then v else v / at_ sf k in
  let clamp_x (v : float) := std.max 0 (std.min v (static_cast_float (cols image))) in
  let clamp_y (v : float) :=
    std.max 0 (std.min v (static_cast_float (rows image))) in
  let carries (d : DetectionBox) (i : Z) :=
    x1 d == clamp_x (back 0%Z (raw i 2%Z)) /\ y1 d == clamp_y (back 1%Z (raw i 3%Z))
    /\ x2 d == clamp_x (back 0%Z (raw i 4%Z)) /\ y2 d == clamp_y (back 1%Z (raw i 5%Z))
    /\ score d = raw i 1%Z in
  exists l,
    detectDocLayout new_Session g image thr = (Returns l, g)
    /\ (forall d, In d l ->
          exists i, (0 <= i < rows_)%Z /\ row_kept thr (data output) i /\ carries d i)
    /\ (forall i, (0 <= i < rows_)%Z -> row_kept thr (data output) i ->
          exists d, In d l /\ carries d i)
    /\ (forall g' session' i,
          GetInputCount session = 2%Z -> GetInputCount session' = 3%Z ->
          g_initialized g' = true -> g_session g' = Some session' ->
          Run session'
            (layout_inputs true image
               (imageToBlob (fst (preprocessImage image 640 640)))
               (layout_scale image) 640 640) = Returns output ->
          at_ sf 0 == 2 -> at_ sf 1 == 2 ->
          (0 <= i < rows_)%Z -> row_kept thr (data output) i ->
          (0 <= raw i 2%Z /\ raw i 2%Z <= static_cast_float (cols image)) ->
          (0 <= raw i 3%Z /\ raw i 3%Z <= static_cast_float (rows image)) ->
          (0 <= raw i 4%Z /\ raw i 4%Z <= static_cast_float (cols image)) ->
          (0 <= raw i 5%Z /\ raw i 5%Z <= static_cast_float (rows image)) ->
          exists l' dm dl,
            detectDocLayout new_Session g' image thr = (Returns l', g')
            /\ In dm l /\ In dl l'
            /\ (x1 dl == raw i 2%Z /\ y1 dl == raw i 3%Z
                /\ x2 dl == raw i 4%Z /\ y2 dl == raw i 5%Z)
            /\ (x1 dm == x1 dl / 2 /\ y1 dm == y1 dl / 2
                /\ x2 dm == x2 dl / 2 /\ y2 dm == y2 dl / 2)).
Proof.
  intros Hi Hs He Hrun is_l sf rows_ raw back clamp_x clamp_y carries.
  exists (parse_output is_l sf image thr output).
  split; [exact (detectDocLayout_run g image thr session output Hi Hs He Hrun) |].
  assert (Hcarries : forall i,
            carries (clamp_box image (restore_box is_l sf (data output) i)) i).
  { intros i. exact (clamp_box_restore_box is_l sf image (data output) i). }
  split; [| split].
  - intros d Hd. apply in_parse_output in Hd.
    destruct Hd as (i & Hrange & Hkept & ->). exists i. auto.
  - intros i Hrange Hkept. eexists. split; [| apply Hcarries].
    apply in_parse_output. exists i. auto.
  - intros g' session' i Hm Hl Hi' Hs' Hrun' H0 H1 Hrange Hkept
      [A1 B1] [A2 B2] [A3 B3] [A4 B4].
    assert (Hrun'' : Run session'
              (layout_inputs (GetInputCount session' =? 3)%Z image
                 (imageToBlob (fst (preprocessImage image 640 640)))
                 (layout_scale image) 640 640) = Returns output)
      by (rewrite Hl; exact Hrun').
    pose proof (detectDocLayout_run g' image thr session' output Hi' Hs' He Hrun'')
      as Hcall'.
    rewrite Hl in Hcall'. change (3 =? 3)%Z with true in Hcall'.
    exists (parse_output true sf image thr output),
      (clamp_box image (restore_box is_l sf (data output) i)),
      (clamp_box image (restore_box true sf (data output) i)).
    split; [exact Hcall' |].
    split; [apply in_parse_output; exists i; auto |].
    split; [apply in_parse_output; exists i; auto |].
    destruct (clamp_box_restore_box true sf image (data output) i)
      as (L1 & L2 & L3 & L4 & _).
    destruct (Hcarries i) as (M1 & M2 & M3 & M4 & _).
    unfold back, clamp_x, clamp_y in M1, M2, M3, M4.
    unfold is_l in M1, M2, M3, M4. rewrite Hm in M1, M2, M3, M4.
    change (2 =? 3)%Z with false in M1, M2, M3, M4.
    cbv zeta in L1, L2, L3, L4. cbv beta iota in L1, L2, L3, L4, M1, M2, M3, M4.
    fold (raw i 2%Z) in L1, M1. fold (raw i 3%Z) in L2, M2.
    fold (raw i 4%Z) in L3, M3. fold (raw i 5%Z) in L4, M4.
    assert (E1 : x1 (clamp_box image (restore_box true sf (data output) i))
                 == raw i 2%Z)
      by (rewrite L1; apply clamp_eq; [reflexivity | assumption | assumption]).
    assert (E2 : y1 (clamp_box image (restore_box true sf (data output) i))
                 == raw i 3%Z)
      by (rewrite L2; apply clamp_eq; [reflexivity | assumption | assumption]).
    assert (E3 : x2 (clamp_box image (restore_box true sf (data output) i))
                 == raw i 4%Z)
      by (rewrite L3; apply clamp_eq; [reflexivity | assumption | assumption]).
    assert (E4 : y2 (clamp_box image (restore_box true sf (data output) i))
                 == raw i 5%Z)
      by (rewrite L4; apply clamp_eq; [reflexivity | assumption | assumption]).
    split; [auto |].
    unfold is_l. rewrite Hm. change (2 =? 3)%Z with false.
    rewrite E1, E2, E3, E4, M1, M2, M3, M4.
    repeat split; apply clamp_eq;
      try (rewrite ?H0, ?H1; reflexivity);
      try (apply Qle_shift_div_l; lra); try (apply Qle_shift_div_r; lra).
Qed.

End LayoutClaims.

(** C7 on a 320 x 320 image, whose scale factors are (2,2), and the row
    (10, 20, 50, 60) of class 2: the call with the two-input model returns
    the box (5, 10, 25, 30), the call with the three-input model the box
    (10, 20, 50, 60). *)
Lemma layout_m_vs_l_scaling_witness :
  let output := {| shape := [1; 6]%Z; data := [2; 9 # 10; 10; 20; 50; 60] |} in
  let image := Vectors.image 320 320 in
  exists dm dl,
    @Layout.detectDocLayout Vectors.axis_aligned (Vectors.new_Session 2 output)
      (Vectors.ready_globals 2 output) image (1 # 2)
    = (Returns [dm], Vectors.ready_globals 2 output)
    /\ @Layout.detectDocLayout Vectors.axis_aligned (Vectors.new_Session 3 output)
         (Vectors.ready_globals 3 output) image (1 # 2)
       = (Returns [dl], Vectors.ready_globals 3 output)
    /\ (Layout.x1 dm == 5 /\ Layout.y1 dm == 10
        /\ Layout.x2 dm == 25 /\ Layout.y2 dm == 30)
    /\ (Layout.x1 dl == 10 /\ Layout.y1 dl == 20
        /\ Layout.x2 dl == 50 /\ Layout.y2 dl == 60).
Proof.
  cbv zeta.
  set (output := {| shape := [1; 6]%Z; data := [2; 9 # 10; 10; 20; 50; 60] |}).
  set (image := Vectors.image 320 320).
  destruct (@layout_m_vs_l_scaling Vectors.axis_aligned
              (Vectors.new_Session 2 output) (Vectors.ready_globals 2 output)
              image (1 # 2) (Vectors.session 2 output) output
              eq_refl eq_refl eq_refl eq_refl) as (l & Hcall & _ & _ & Hhalf).
  destruct (Hhalf (Vectors.ready_globals 3 output) (Vectors.session 3 output) 0%Z
              eq_refl eq_refl eq_refl eq_refl eq_refl
              ltac:(reflexivity) ltac:(reflexivity)
              ltac:(unfold output; simpl; lia)
              ltac:(split; [vm_compute; discriminate
                           | vm_compute; split; [discriminate | reflexivity]])
              ltac:(split; vm_compute; discriminate)
              ltac:(split; vm_compute; discriminate)
              ltac:(split; vm_compute; discriminate)
              ltac:(split; vm_compute; discriminate))
    as (l' & dm & dl & Hcall' & Hdm & Hdl & (L1 & L2 & L3 & L4) & (M1 & M2 & M3 & M4)).
  assert (Hl : exists d, l = [d]).
  { pose proof Hcall as H. vm_compute in H. injection H as <-. eexists. reflexivity. }
  assert (Hl' : exists d, l' = [d]).
  { pose proof Hcall' as H. vm_compute in H. injection H as <-. eexists. reflexivity. }
  destruct Hl as (d & ->). destruct Hl' as (d' & ->).
  destruct Hdm as [<- | []]. destruct Hdl as [<- | []].
  exists d, d'. split; [exact Hcall |]. split; [exact Hcall' |].
  change (at_ (data output) (0 * 6 + 2)) with 10 in L1.
  change (at_ (data output) (0 * 6 + 3)) with 20 in L2.
  change (at_ (data output) (0 * 6 + 4)) with 50 in L3.
  change (at_ (data output) (0 * 6 + 5)) with 60 in L4.
  rewrite L1 in M1. rewrite L2 in M2. rewrite L3 in M3. rewrite L4 in M4.
  split; [| auto].
  repeat split; [rewrite M1 | rewrite M2 | rewrite M3 | rewrite M4]; reflexivity.
Defined.

(** ** Thresholds, scores and bounds *)

Lemma emitted_incl dict prev steps e :
  In e (Spec.emitted dict prev steps) -> In e steps.
Proof.
  revert prev. induction steps as [| [idx p] steps IH]; intros prev; simpl.
  - intros [].
  - destruct (Spec.emits dict prev idx).
    + intros [<- | H]; [left; reflexivity | right; apply (IH idx), H].
    + intros H. right. apply (IH idx), H.
Qed.

Lemma contour_kept_mono {cv : OpenCV} prob_map height width t1 t2 contour :
  t1 <= t2 ->
  Ocr.contour_kept prob_map height width t2 contour ->
  Ocr.contour_kept prob_map height width t1 contour.
Proof.
  intros Ht (H1 & H2 & H3). repeat split; [exact H1 | lra | exact H3].
Qed.

Lemma row_kept_mono t1 t2 out i :
  t1 <= t2 -> Layout.row_kept t2 out i -> Layout.row_kept t1 out i.
Proof.
  intros Ht [H1 H2]. split; [lra | exact H2].
Qed.

Section PipelineClaims.

Context {m : LibM} {cv : OpenCV}.
Variable new_Session : string -> outcome Session.

Import Layout.

Lemma parse_output_mono is_l sf image t1 t2 out d :
  t1 <= t2 ->
  In d (parse_output is_l sf image t2 out) ->
  In d (parse_output is_l sf image t1 out).
Proof.
  intros Ht Hd. apply in_parse_output in Hd. destruct Hd as (i & Hi & Hk & ->).
  apply in_parse_output. exists i.
  split; [exact Hi | split; [apply (row_kept_mono t1 t2), Hk; exact Ht | reflexivity]].
Qed.

(** C4.  Threshold monotonicity.  For thresholds [t1 <= t2] and otherwise
    identical inputs, every Detection that a layout call returns at
    confidence threshold [t2] is returned at [t1], and every box that the
    DB decoder returns at box threshold [t2] (the threshold on the score of
    a box; the binarisation threshold is one of the other inputs) is
    returned at box threshold [t1]. *)
Theorem threshold_monotone (t1 t2 : float) :
  t1 <= t2 ->
  (forall g image l2 g2 d,
      detectDocLayout new_Session g image t2 = (Returns l2, g2) ->
      In d l2 ->
      exists l1,
        detectDocLayout new_Session g image t1 = (Returns l1, g2) /\ In d l1)
  /\ (forall data height width sx sy ow oh threshold b,
        In b (Ocr.DBPostProcess data height width sx sy ow oh threshold t2) ->
        In b (Ocr.DBPostProcess data height width sx sy ow oh threshold t1)).
Proof.
  intros Ht. split.
  - intros g image l2 g2 d. unfold detectDocLayout.
    destruct (Mat_empty image); [intros [= <- <-] [] |].
    destruct (initOnnxSession new_Session g) as [init g1].
    destruct init as [[] | e]; simpl; [| intros [= <- <-] []].
    destruct (g_session g1) as [session |]; [| intros [= <- <-] []].
    destruct (Run session _) as [output | e]; simpl; [| intros [= <- <-] []].
    intros [= <- <-] Hd. eexists. split; [reflexivity |].
    apply (parse_output_mono _ _ _ t1 t2); assumption.
  - intros data height width sx sy ow oh threshold b Hb.
    apply in_DBPostProcess in Hb.
    destruct Hb as (contour & Hc & Hb). apply in_db_contour in Hb.
    destruct Hb as [Hk ->].
    apply in_DBPostProcess. exists contour. split; [exact Hc |].
    apply in_db_contour. split; [| reflexivity].
    apply (contour_kept_mono _ _ _ t1 t2); assumption.
Qed.

(** The scores in the values of the three post-processors. *)
Lemma parse_output_score is_l sf image thr out d :
  In d (parse_output is_l sf image thr out) ->
  exists i, (0 <= i < nth 0 (shape out) 0)%Z
            /\ score d = at_ (data out) (i * 6 + 1)
            /\ thr <= score d.
Proof.
  intros Hd. apply in_parse_output in Hd. destruct Hd as (i & Hi & [Hs _] & ->).
  exists i. cbn [clamp_box restore_box score]. auto.
Qed.

Lemma DBPostProcess_score data height width sx sy ow oh threshold box_threshold b :
  In b (Ocr.DBPostProcess data height width sx sy ow oh threshold box_threshold) ->
  exists contour,
    Ocr.box_score b
    = cv.mean (Ocr.db_prob_map data) (drawContours_filled height width contour)
    /\ box_threshold <= Ocr.box_score b.
Proof.
  intros Hb. apply in_DBPostProcess in Hb. destruct Hb as (contour & _ & Hb).
  apply in_db_contour in Hb. destruct Hb as [(_ & Hk & _) ->].
  exists contour. cbn [Ocr.box_score]. auto.
Qed.

Lemma CTCDecode_score_unit dict data seq_len vocab_size :
  (forall t, (0 <= t < seq_len)%Z ->
     Spec.unit_interval (snd (Ocr.ctc_step_at data vocab_size t))) ->
  Spec.unit_interval (snd (Ocr.CTCDecode dict data seq_len vocab_size)).
Proof.
  intros Hp.
  destruct (ctc_loop_spec dict data seq_len vocab_size) as (_ & Hcnt & Htot).
  cbv zeta in Hcnt, Htot. unfold Ocr.CTCDecode. cbn [snd].
  set (es := Spec.emitted dict (-1) (Ocr.ctc_steps data seq_len vocab_size)) in *.
  assert (Hes : Forall Spec.unit_interval (map snd es)).
  { apply Forall_forall. intros p Hin. apply in_map_iff in Hin.
    destruct Hin as (e & <- & He). apply emitted_incl in He.
    unfold Ocr.ctc_steps in He. apply in_map_iff in He.
    destruct He as (t & <- & Ht). apply in_range in Ht. apply (Hp t Ht). }
  destruct (sum_unit _ Hes) as [H0 H1]. rewrite length_map in H1.
  destruct (Ocr.char_count _ >? 0)%Z eqn:Hpos.
  - apply Z.gtb_lt in Hpos. unfold static_cast_float.
    apply quotient_unit; [exact Hpos | rewrite Htot; exact H0 |].
    rewrite Htot, Hcnt. exact H1.
  - split; lra.
Qed.

(** C1 (amended).  The post-processors do not clamp scores.  An emitted
    layout Detection carries the score entry of its row, which is at least
    the threshold; a box of the DB decoder carries the mean of the
    activated probability map under its contour, which is at least the box
    threshold; the CTC confidence is the mean of the probabilities of the
    emitted tokens.  Each of them lies in [[0,1]] when the values it is read
    or averaged from do: the score entries of the rows, the entries of the
    activated probability map, the maximal probability of each timestep. *)
Theorem scores_unit_interval_of_model_outputs
    (is_l : bool) (sf : list float) (image : Mat) (thr : float) (out : Tensor)
    (prob : list float) (height width : Z) (sx sy : float) (ow oh : Z)
    (threshold box_threshold : float)
    (dict : list string) (logits : list float) (seq_len vocab_size : Z) :
  (forall i, (0 <= i < nth 0 (shape out) 0)%Z ->
     Spec.unit_interval (at_ (data out) (i * 6 + 1))) ->
  Forall Spec.unit_interval (Ocr.db_prob_map prob) ->
  (forall t, (0 <= t < seq_len)%Z ->
     Spec.unit_interval (snd (Ocr.ctc_step_at logits vocab_size t))) ->
  (forall d, In d (parse_output is_l sf image thr out) ->
     Spec.unit_interval (score d)
     /\ exists i, score d = at_ (data out) (i * 6 + 1) /\ thr <= score d)
  /\ (forall b,
        In b (Ocr.DBPostProcess prob height width sx sy ow oh threshold box_threshold) ->
        Spec.unit_interval (Ocr.box_score b) /\ box_threshold <= Ocr.box_score b)
  /\ Spec.unit_interval (snd (Ocr.CTCDecode dict logits seq_len vocab_size)).
Proof.
  intros Hrows Hmap Hsteps. split; [| split].
  - intros d Hd. apply parse_output_score in Hd.
    destruct Hd as (i & Hi & Hs & Ht). split; [rewrite Hs; apply Hrows, Hi |].
    exists i. auto.
  - intros b Hb. apply DBPostProcess_score in Hb.
    destruct Hb as (contour & Hs & Ht). split; [| exact Ht].
    rewrite Hs. apply mean_unit, Hmap.
  - apply CTCDecode_score_unit, Hsteps.
Qed.

Lemma clamp_box_within image b :
  (0 <= rows image)%Z -> (0 <= cols image)%Z ->
  (0 <= x1 (clamp_box image b) /\ x1 (clamp_box image b) <= inject_Z (cols image))
  /\ (0 <= x2 (clamp_box image b) /\ x2 (clamp_box image b) <= inject_Z (cols image))
  /\ (0 <= y1 (clamp_box image b) /\ y1 (clamp_box image b) <= inject_Z (rows image))
  /\ (0 <= y2 (clamp_box image b) /\ y2 (clamp_box image b) <= inject_Z (rows image)).
Proof.
  intros Hr Hc. unfold clamp_box. cbn [x1 y1 x2 y2].
  repeat split;
    first [ apply (proj1 (clamp_range _ _ Hc)) | apply (proj2 (clamp_range _ _ Hc))
          | apply (proj1 (clamp_range _ _ Hr)) | apply (proj2 (clamp_range _ _ Hr)) ].
Qed.

Lemma clamp_restore_order is_l sf image out i :
  0 <= at_ sf 0 -> 0 <= at_ sf 1 ->
  let raw k := at_ out (i * 6 + k) in
  let d := clamp_box image (restore_box is_l sf out i) in
  (raw 2%Z <= raw 4%Z -> x1 d <= x2 d) /\ (raw 3%Z <= raw 5%Z -> y1 d <= y2 d).
Proof.
  intros H0 H1. cbv zeta. unfold clamp_box, restore_box. cbn [x1 y1 x2 y2].
  split; intros Hraw; apply clamp_mono; apply Qmult_le_compat_r;
    try exact Hraw; apply inv_scale_nonneg; assumption.
Qed.

(** C3 (amended).  Bounds of the emitted coordinates.  For an image with
    dimensions [width x height]: every Detection that a layout call returns
    has x1 and x2 in [[0, width]] and y1 and y2 in [[0, height]]; it is the
    clamped box of a row of the model output, and x1 <= x2 (y1 <= y2) holds
    when that row has raw x1 <= raw x2 (raw y1 <= raw y2): the coordinates
    are scaled and clamped one by one and never reordered.  Every TextLineResult that
    [RecognizeText] returns satisfies 0 <= x1 <= x2 <= width and
    0 <= y1 <= y2 <= height. *)
Theorem coordinates_within_image (image : Mat) :
  (0 <= rows image)%Z -> (0 <= cols image)%Z ->
  (forall g thr l g' d,
      detectDocLayout new_Session g image thr = (Returns l, g') ->
      In d l ->
      ((0 <= x1 d /\ x1 d <= inject_Z (cols image))
       /\ (0 <= x2 d /\ x2 d <= inject_Z (cols image))
       /\ (0 <= y1 d /\ y1 d <= inject_Z (rows image))
       /\ (0 <= y2 d /\ y2 d <= inject_Z (rows image)))
      /\ exists session output i,
           g_session g' = Some session
           /\ Run session
                (layout_inputs (GetInputCount session =? 3)%Z image
                   (imageToBlob (fst (preprocessImage image 640 640)))
                   (layout_scale image) 640 640) = Returns output
           /\ (0 <= i < nth 0 (shape output) 0)%Z
           /\ d = clamp_box image
                    (restore_box (GetInputCount session =? 3)%Z (layout_scale image)
                       (data output) i)
           /\ (at_ (data output) (i * 6 + 2) <= at_ (data output) (i * 6 + 4) ->
               x1 d <= x2 d)
           /\ (at_ (data output) (i * 6 + 3) <= at_ (data output) (i * 6 + 5) ->
               y1 d <= y2 d))
  /\ (forall eng det_threshold rec_threshold rs r,
        Ocr.RecognizeText eng image det_threshold rec_threshold = Returns rs ->
        In r rs ->
        (0 <= Ocr.x1 r /\ Ocr.x1 r <= Ocr.x2 r /\ Ocr.x2 r <= inject_Z (cols image))
        /\ (0 <= Ocr.y1 r /\ Ocr.y1 r <= Ocr.y2 r /\ Ocr.y2 r <= inject_Z (rows image))).
Proof.
  intros Hr Hc. split.
  - intros g thr l g' d Hcall Hd.
    apply detectDocLayout_cases in Hcall.
    destruct Hcall as [[= ->] | (session & output & _ & Hs & Hrun & [= ->])];
      [destruct Hd |].
    apply in_parse_output in Hd. destruct Hd as (i & Hi & _ & ->).
    split; [apply clamp_box_within; assumption |].
    exists session, output, i.
    split; [exact Hs | split; [exact Hrun | split; [exact Hi | split; [reflexivity |]]]].
    apply (clamp_restore_order _ (layout_scale image) image (data output) i);
      apply layout_scale_nonneg; assumption.
  - intros eng det_threshold rec_threshold rs r Hcall Hin.
    apply RecognizeText_spec in Hcall. destruct Hcall as (boxes & Hdet & ->).
    apply in_flat_map in Hin. destruct Hin as (box & Hbox & Hin).
    apply in_box_lines in Hin.
    destruct Hin as (region & _ & _ & _ & _ & _ & Hline).
    pose proof (text_line_rect box (Ocr.text r) (Ocr.score r)) as Hrect.
    rewrite <- Hline in Hrect.
    destruct (bounding_ordered _ _ _ _ _ Hrect) as [Hox Hoy].
    destruct (DetectText_cases eng image det_threshold)
      as [Hd | (d & h & w & sx & sy & Hd)];
      rewrite Hd in Hdet; injection Hdet as <-; [destruct Hbox |].
    destruct (DBPostProcess_points _ _ _ _ _ _ _ _ _ _ Hc Hr Hbox) as [Hlen Hpts].
    assert (Hne : Ocr.points box <> []).
    { intros E. rewrite E in Hlen. discriminate Hlen. }
    destruct (bounding_within _ _ _ _ _ _ _ Hne Hpts Hrect) as [[? ?] [? ?]].
    repeat split; assumption.
Qed.

(** C10.  The lines of [RecognizeText].  A returned list is, box by box in
    detection order, the line of every detected box whose crop is not
    empty, whose decoded text is not empty and whose score is not below
    [rec_threshold]; the other boxes contribute nothing.  Hence every
    returned line has a non-empty text and a score of at least
    [rec_threshold], and its rectangle is made of the minima and maxima of
    the points of its box, so that x1 <= x2 and y1 <= y2. *)
Theorem recognized_lines_postcondition (eng : Ocr.OcrEngine) (image : Mat)
    (det_threshold rec_threshold : float) (rs : list Ocr.TextLineResult) :
  Ocr.RecognizeText eng image det_threshold rec_threshold = Returns rs ->
  exists boxes,
    Ocr.DetectText eng image det_threshold = Returns boxes
    /\ rs = flat_map (Ocr.box_lines eng image rec_threshold) boxes
    /\ (forall r, In r rs ->
          Ocr.text r <> ""%string
          /\ rec_threshold <= Ocr.score r
          /\ Ocr.x1 r <= Ocr.x2 r /\ Ocr.y1 r <= Ocr.y2 r
          /\ exists box,
               In box boxes
               /\ Ocr.bounding (Ocr.points box)
                  = (Ocr.x1 r, Ocr.x2 r, Ocr.y1 r, Ocr.y2 r))
    /\ (forall box region,
          Ocr.CropTextRegion image box = Returns region ->
          Mat_empty region = true
          \/ (exists t s, Ocr.RecognizeRegion eng region = Returns (t, s)
                          /\ (t = ""%string \/ s < rec_threshold)) ->
          Ocr.box_lines eng image rec_threshold box = []).
Proof.
  intros Hcall. apply RecognizeText_spec in Hcall.
  destruct Hcall as (boxes & Hdet & ->). exists boxes.
  split; [exact Hdet | split; [reflexivity | split]].
  - intros r Hin. apply in_flat_map in Hin. destruct Hin as (box & Hbox & Hin).
    apply in_box_lines in Hin.
    destruct Hin as (region & _ & _ & _ & Htext & Hscore & Hline).
    pose proof (text_line_rect box (Ocr.text r) (Ocr.score r)) as Hrect.
    rewrite <- Hline in Hrect.
    destruct (bounding_ordered _ _ _ _ _ Hrect) as [Hox Hoy].
    repeat split; try assumption. exists box. auto.
  - intros box region Hcrop Hskip. unfold Ocr.box_lines. rewrite Hcrop.
    destruct Hskip as [-> | (t & s & -> & Hts)]; [reflexivity |].
    destruct (Mat_empty region); [reflexivity |].
    destruct Hts as [-> | Hs]; [reflexivity |].
    destruct (String.length t =? 0)%nat; [reflexivity |].
    apply ltb_lt in Hs. rewrite Hs. reflexivity.
Qed.

(** C8.  Orientation of a crop.  Every non-empty crop that
    [CropTextRegion] returns has at least one row and one column and a
    height of at most 1.5 times its width. *)
Theorem crop_orientation (image : Mat) (box : Ocr.TextBox) (crop : Mat) :
  Ocr.CropTextRegion image box = Returns crop ->
  Mat_empty crop = false ->
  inject_Z (rows crop) <= (3 # 2) * inject_Z (cols crop)
  /\ (1 <= rows crop)%Z /\ (1 <= cols crop)%Z.
Proof.
  intros Hcrop Hne. apply CropTextRegion_cases in Hcrop.
  destruct Hcrop as [-> | (_ & Hr & Hc & Hb)]; [discriminate Hne |].
  split; [lra | split; assumption].
Qed.

(** C9.  Empty and degenerate inputs.  On an empty image a layout call
    returns the empty list, leaving the detector state as it was, and
    [RecognizeText] returns the empty list; on a box whose point list is
    empty, or has any length other than 4, and on a box of 4 points whose
    integer bounding rectangle has no positive width or height,
    [CropTextRegion] returns the empty image.  None of these calls raises. *)
Theorem degenerate_inputs_return_empty :
  (forall g image thr,
      Mat_empty image = true ->
      detectDocLayout new_Session g image thr = (Returns [], g))
  /\ (forall eng image det_threshold rec_threshold,
        Mat_empty image = true ->
        Ocr.RecognizeText eng image det_threshold rec_threshold = Returns [])
  /\ (forall image box,
        Ocr.points box = [] -> Ocr.CropTextRegion image box = Returns Mat_default)
  /\ (forall image box,
        List.length (Ocr.points box) <> 4%nat ->
        Ocr.CropTextRegion image box = Returns Mat_default)
  /\ (forall image box bx1 by1 bx2 by2,
        Ocr.bounding_rect image box = (bx1, by1, bx2, by2) ->
        (bx2 - bx1 <= 0 \/ by2 - by1 <= 0)%Z ->
        Ocr.CropTextRegion image box = Returns Mat_default)
  /\ Mat_empty Mat_default = true.
Proof.
  assert (Hlen : forall image box,
            List.length (Ocr.points box) <> 4%nat ->
            Ocr.CropTextRegion image box = Returns Mat_default).
  { intros image box H. unfold Ocr.CropTextRegion.
    apply Nat.eqb_neq in H. rewrite H. reflexivity. }
  repeat split.
  - intros g image thr He. unfold detectDocLayout. rewrite He. reflexivity.
  - intros eng image dt rt He. unfold Ocr.RecognizeText. rewrite He.
    destruct (negb (Ocr.initialized_ eng)); reflexivity.
  - intros image box E. apply Hlen. rewrite E. discriminate.
  - exact Hlen.
  - intros image box bx1 by1 bx2 by2 Hrect Hext. unfold Ocr.CropTextRegion.
    destruct (negb _); [reflexivity |]. rewrite Hrect.
    replace ((bx2 <=? bx1)%Z || (by2 <=? by1)%Z) with true; [reflexivity |].
    symmetry. apply orb_true_iff.
    destruct Hext; [left | right]; apply Z.leb_le; lia.
Qed.

Lemma minMaxLoc_fold (l : list float) (a b lo hi : float) :
  lo <= a -> b <= hi -> Forall (fun v => lo <= v /\ v <= hi) l ->
  let r := fold_left (fun '(lo, hi) x => (std.min lo x, std.max hi x)) l (a, b) in
  lo <= fst r /\ snd r <= hi.
Proof.
  intros Ha Hb Hl. revert a b Ha Hb.
  induction Hl as [| v l [Hv0 Hv1] _ IH]; intros a b Ha Hb; simpl; [auto |].
  apply IH; [apply min_glb | apply max_lub]; assumption.
Qed.

Lemma minMaxLoc_bounds (data : list float) (lo hi : float) :
  data <> [] -> Forall (fun v => lo <= v /\ v <= hi) data ->
  lo <= fst (cv.minMaxLoc data) /\ snd (cv.minMaxLoc data) <= hi.
Proof.
  intros Hne H. destruct data as [| v l]; [congruence |].
  apply Forall_cons_iff in H. destruct H as [[Hv0 Hv1] Hl].
  exact (minMaxLoc_fold l v v lo hi Hv0 Hv1 Hl).
Qed.

(** A map of values in [[-0.1, 1.1]] is taken as probabilities. *)
Lemma db_prob_map_probabilities (data : list float) :
  Forall (fun v => - (1 # 10) <= v /\ v <= 11 # 10) data ->
  Ocr.db_prob_map data = data.
Proof.
  intros H. destruct data as [| v l]; [reflexivity |].
  destruct (minMaxLoc_bounds (v :: l) _ _ ltac:(discriminate) H) as [Hlo Hhi].
  unfold Ocr.db_prob_map.
  destruct (cv.minMaxLoc (v :: l)) as [min_val max_val]. cbn [fst snd] in Hlo, Hhi.
  apply ltb_ge in Hlo. apply gtb_le in Hhi. rewrite Hlo, Hhi. reflexivity.
Qed.

(** The size filter: a contour whose fitted rectangle has a side shorter
    than 3 gives no box. *)
Lemma db_contour_small prob_map height width sx sy ow oh box_threshold contour :
  std.min (size_width (minAreaRect contour)) (size_height (minAreaRect contour)) < 3 ->
  Ocr.db_contour prob_map height width sx sy ow oh box_threshold contour = [].
Proof.
  intros Hsmall.
  destruct (Ocr.db_contour prob_map height width sx sy ow oh box_threshold contour)
    as [| b l] eqn:E; [reflexivity |].
  assert (Hb : In b (Ocr.db_contour prob_map height width sx sy ow oh
                       box_threshold contour)) by (rewrite E; left; reflexivity).
  apply in_db_contour in Hb. destruct Hb as [(_ & _ & Hsize) _]. lra.
Qed.

Lemma flat_map_nil {A B} (f : A -> list B) (l : list A) :
  (forall x, In x l -> f x = []) -> flat_map f l = [].
Proof.
  induction l as [| x l IH]; intros H; simpl; [reflexivity |].
  rewrite (H x (or_introl eq_refl)), IH; [reflexivity |].
  intros y Hy. apply H. right. exact Hy.
Qed.

(** C2 (amended).  The single-blob scenario.  On the 4 x 4 map that is 0
    except for values above 0.9 (and at most 1) on the 2 x 2 block at
    (1,1)-(2,2), with both thresholds 0.5, scale factors (1,1) and original
    size 4 x 4, the binary mask is the block; and when every contour found
    in that mask has a fitted rectangle with a side below 3 pixels (the
    contour of the block is its four corner pixels, whose rectangle
    measures 1 x 1, the distance between the pixel centres), the decoder
    returns no box: the size filter discards the block. *)
Theorem db_single_blob_is_filtered (a b c d : float) :
  (9 # 10 < a /\ a <= 1) -> (9 # 10 < b /\ b <= 1) ->
  (9 # 10 < c /\ c <= 1) -> (9 # 10 < d /\ d <= 1) ->
  (forall contour,
      In contour (findContours Vectors.blob_mask 4 4) ->
      std.min (size_width (minAreaRect contour)) (size_height (minAreaRect contour))
      < 3) ->
  cv.convertTo_8U
    (cv.threshold (Ocr.db_prob_map (Vectors.blob_map a b c d)) (1 # 2) 1) 255
  = Vectors.blob_mask
  /\ Ocr.DBPostProcess (Vectors.blob_map a b c d) 4 4 1 1 4 4 (1 # 2) (1 # 2) = [].
Proof.
  intros [Ha0 Ha1] [Hb0 Hb1] [Hc0 Hc1] [Hd0 Hd1] Hsmall.
  assert (Hmap : Ocr.db_prob_map (Vectors.blob_map a b c d) = Vectors.blob_map a b c d).
  { apply db_prob_map_probabilities. unfold Vectors.blob_map.
    repeat constructor; lra. }
  assert (Hbin : cv.convertTo_8U
                   (cv.threshold (Vectors.blob_map a b c d) (1 # 2) 1) 255
                 = Vectors.blob_mask).
  { unfold cv.threshold, Vectors.blob_map. cbn [map].
    rewrite (proj2 (gtb_lt a (1 # 2))) by lra.
    rewrite (proj2 (gtb_lt b (1 # 2))) by lra.
    rewrite (proj2 (gtb_lt c (1 # 2))) by lra.
    rewrite (proj2 (gtb_lt d (1 # 2))) by lra.
    reflexivity. }
  split; [rewrite Hmap; exact Hbin |].
  unfold Ocr.DBPostProcess. rewrite Hmap, Hbin.
  rewrite flat_map_nil; [reflexivity |].
  intros contour Hc. apply db_contour_small, Hsmall, Hc.
Qed.

End PipelineClaims.

(** ** The properties on the test vectors *)

Lemma unit_interval_check (l : list float) :
  forallb (fun v => Qle_bool 0 v && Qle_bool v 1) l = true ->
  Forall Spec.unit_interval l.
Proof.
  intros H. apply Forall_forall. intros v Hv.
  rewrite forallb_forall in H. specialize (H v Hv).
  apply andb_true_iff in H. destruct H as [H0 H1].
  split; apply Qle_bool_iff; assumption.
Qed.

(** C1, counterexample.  A two-input layout model that answers a
    320 x 320 image with the row (class 0, score 1.5, 10, 10, 50, 50): at
    threshold 0.5 the call returns one Detection, with score 1.5.  Likewise
    the 8 x 8 block map with 1.05 on the block (inside the range that the
    activation test takes as probabilities) gives one box of score above 1,
    and a one-step recognition row whose entries sum to 1.05, all at index
    5, decodes with confidence above 1. *)
Lemma scores_above_one :
  (exists d,
      fst (@Layout.detectDocLayout Vectors.axis_aligned
             (Vectors.new_Session 2
                {| shape := [1; 6]%Z; data := [0; 3 # 2; 10; 10; 50; 50] |})
             Vectors.globals (Vectors.image 320 320) (1 # 2))
      = Returns [d]
      /\ Layout.score d = 3 # 2
      /\ 1 < Layout.score d)
  /\ (exists b,
        @Ocr.DBPostProcess Vectors.libm Vectors.axis_aligned
          (Vectors.block_map (21 # 20)) 8 8 1 1 8 8 (1 # 2) (1 # 2) = [b]
        /\ 1 < Ocr.box_score b)
  /\ 1 < snd (@Ocr.CTCDecode Vectors.libm Vectors.dictionary
                [0; 0; 0; 0; 0; 21 # 20; 0; 0] 1 8).
Proof.
  split; [| split].
  - eexists. split; [vm_compute; reflexivity |].
    split; [reflexivity | reflexivity].
  - eexists. split; [vm_compute; reflexivity | reflexivity].
  - vm_compute. reflexivity.
Qed.

(** C1 (amended) on a layout row of score 0.9, the 8 x 8 block map and the
    one-hot recognition tensor. *)
Lemma scores_unit_interval_of_model_outputs_witness :
  let out := {| shape := [1; 6]%Z; data := [0; 9 # 10; 10; 20; 50; 60] |} in
  let logits := Vectors.one_hot 8 [0; 5; 5; 0; 5]%nat in
  (forall d,
      In d (Layout.parse_output false [2; 2] (Vectors.image 320 320) (1 # 2) out) ->
      Spec.unit_interval (Layout.score d)
      /\ exists i, Layout.score d = at_ (data out) (i * 6 + 1)
                   /\ 1 # 2 <= Layout.score d)
  /\ (forall b,
        In b (@Ocr.DBPostProcess Vectors.libm Vectors.axis_aligned
                (Vectors.block_map (19 # 20)) 8 8 1 1 8 8 (1 # 2) (1 # 2)) ->
        Spec.unit_interval (Ocr.box_score b) /\ 1 # 2 <= Ocr.box_score b)
  /\ Spec.unit_interval
       (snd (@Ocr.CTCDecode Vectors.libm Vectors.dictionary logits 5 8)).
Proof.
  cbv zeta.
  apply (@scores_unit_interval_of_model_outputs Vectors.libm Vectors.axis_aligned).
  - intros i Hi. cbn [shape nth] in Hi. replace i with 0%Z by lia.
    split; apply Qle_bool_iff; reflexivity.
  - apply unit_interval_check. vm_compute. reflexivity.
  - intros t Ht.
    assert (Hc : t = 0%Z \/ t = 1%Z \/ t = 2%Z \/ t = 3%Z \/ t = 4%Z) by lia.
    destruct Hc as [-> | [-> | [-> | [-> | ->]]]];
      split; apply Qle_bool_iff; vm_compute; reflexivity.
Defined.

(** C2, counterexample.  The single-blob scenario with 0.95 on the block:
    the contour of the mask is the four corner pixels, its fitted rectangle
    measures 1 x 1, and the decoder returns no box. *)
Lemma db_single_blob_no_polygon :
  @findContours Vectors.axis_aligned Vectors.blob_mask 4 4 = [Vectors.blob_contour]
  /\ size_width (@minAreaRect Vectors.axis_aligned Vectors.blob_contour) == 1
  /\ size_height (@minAreaRect Vectors.axis_aligned Vectors.blob_contour) == 1
  /\ @Ocr.DBPostProcess Vectors.libm Vectors.axis_aligned
       (Vectors.blob_map (19 # 20) (19 # 20) (19 # 20) (19 # 20))
       4 4 1 1 4 4 (1 # 2) (1 # 2)
     = [].
Proof.
  repeat split; vm_compute; reflexivity.
Qed.

(** C2 (amended) on the block values 0.95, 0.92, 0.97 and 1. *)
Lemma db_single_blob_is_filtered_witness :
  (forall contour,
      In contour (@findContours Vectors.axis_aligned Vectors.blob_mask 4 4) ->
      std.min (size_width (@minAreaRect Vectors.axis_aligned contour))
              (size_height (@minAreaRect Vectors.axis_aligned contour))
      < 3)
  /\ @Ocr.DBPostProcess Vectors.libm Vectors.axis_aligned
       (Vectors.blob_map (19 # 20) (23 # 25) (97 # 100) 1)
       4 4 1 1 4 4 (1 # 2) (1 # 2)
     = [].
Proof.
  assert (Hsmall : forall contour,
            In contour (@findContours Vectors.axis_aligned Vectors.blob_mask 4 4) ->
            std.min (size_width (@minAreaRect Vectors.axis_aligned contour))
                    (size_height (@minAreaRect Vectors.axis_aligned contour))
            < 3).
  { intros contour Hc. vm_compute in Hc. destruct Hc as [<- | []].
    apply ltb_lt. reflexivity. }
  split; [exact Hsmall |].
  apply (@db_single_blob_is_filtered Vectors.libm Vectors.axis_aligned
           (19 # 20) (23 # 25) (97 # 100) 1);
    try exact Hsmall;
    split; first [apply ltb_lt | apply Qle_bool_iff]; reflexivity.
Defined.

(** C3, counterexample.  A three-input layout model that answers a
    320 x 320 image with the row (class 0, score 0.9, x1 = 10, y1 = 10,
    x2 = 5, y2 = 50): the returned Detection has x1 = 10 and x2 = 5. *)
Lemma layout_box_not_ordered :
  exists d,
    fst (@Layout.detectDocLayout Vectors.axis_aligned
           (Vectors.new_Session 3
              {| shape := [1; 6]%Z; data := [0; 9 # 10; 10; 10; 5; 50] |})
           Vectors.globals (Vectors.image 320 320) (1 # 2))
    = Returns [d]
    /\ Layout.x1 d == 10 /\ Layout.x2 d == 5
    /\ Layout.x2 d < Layout.x1 d.
Proof.
  eexists. split; [vm_compute; reflexivity |].
  repeat split; reflexivity.
Qed.

(** C3 (amended) on a 320 x 320 image. *)
Lemma coordinates_within_image_witness :
  ((0 <= rows (Vectors.image 320 320))%Z /\ (0 <= cols (Vectors.image 320 320))%Z)
  /\ exists d,
       fst (@Layout.detectDocLayout Vectors.axis_aligned
              (Vectors.new_Session 3
                 {| shape := [1; 6]%Z; data := [0; 9 # 10; 10; 10; 5; 50] |})
              Vectors.globals (Vectors.image 320 320) (1 # 2))
       = Returns [d]
       /\ (0 <= Layout.x1 d /\ Layout.x1 d <= inject_Z 320)
       /\ (0 <= Layout.x2 d /\ Layout.x2 d <= inject_Z 320).
Proof.
  assert (Hr : (0 <= rows (Vectors.image 320 320))%Z) by (simpl; lia).
  assert (Hc : (0 <= cols (Vectors.image 320 320))%Z) by (simpl; lia).
  split; [split; assumption |].
  set (nS := Vectors.new_Session 3
               {| shape := [1; 6]%Z; data := [0; 9 # 10; 10; 10; 5; 50] |}).
  destruct (@Layout.detectDocLayout Vectors.axis_aligned nS Vectors.globals
              (Vectors.image 320 320) (1 # 2)) as [r g'] eqn:Hcall.
  assert (Hret : exists d, r = Returns [d]).
  { vm_compute in Hcall. injection Hcall as <- _. eexists. reflexivity. }
  destruct Hret as [d ->]. exists d. split; [reflexivity |].
  destruct (proj1 (@coordinates_within_image Vectors.libm Vectors.axis_aligned nS
                     (Vectors.image 320 320) Hr Hc)
              Vectors.globals (1 # 2) [d] g' d Hcall (or_introl eq_refl))
    as [(Hx1 & Hx2 & _) _].
  split; assumption.
Defined.

(** C4 on the thresholds 0.3 and 0.5, for a layout row of score 0.9. *)
Lemma threshold_monotone_witness :
  let output := {| shape := [1; 6]%Z; data := [0; 9 # 10; 10; 20; 50; 60] |} in
  let image := Vectors.image 320 320 in
  let g := Vectors.ready_globals 2 output in
  let d := Layout.clamp_box image
             (Layout.restore_box false (@Layout.layout_scale Vectors.axis_aligned image)
                (data output) 0) in
  3 # 10 <= 1 # 2
  /\ exists l1,
       @Layout.detectDocLayout Vectors.axis_aligned (Vectors.new_Session 2 output)
         g image (3 # 10) = (Returns l1, g)
       /\ In d l1.
Proof.
  cbv zeta.
  assert (Ht : 3 # 10 <= 1 # 2) by (apply Qle_bool_iff; reflexivity).
  split; [exact Ht |].
  set (output := {| shape := [1; 6]%Z; data := [0; 9 # 10; 10; 20; 50; 60] |}).
  refine (proj1 (@threshold_monotone Vectors.libm Vectors.axis_aligned
                   (Vectors.new_Session 2 output) (3 # 10) (1 # 2) Ht)
            (Vectors.ready_globals 2 output) (Vectors.image 320 320)
            [_] _ _ eq_refl (or_introl eq_refl)).
Defined.

(** C8 on a 3 x 12 upright box, whose crop is rotated to 12 x 3. *)
Lemma crop_orientation_witness :
  let image := Vectors.image 100 100 in
  let box :=
    {| Ocr.points := [ {| px := 0; py := 0 |}; {| px := 3; py := 0 |};
                       {| px := 3; py := 12 |}; {| px := 0; py := 12 |} ];
       Ocr.box_score := 1 |} in
  let crop := {| rows := 3; cols := 12; pixels := [] |} in
  @Ocr.CropTextRegion Vectors.libm Vectors.axis_aligned image box = Returns crop
  /\ Mat_empty crop = false
  /\ inject_Z (rows crop) <= (3 # 2) * inject_Z (cols crop).
Proof.
  cbv zeta.
  set (box := {| Ocr.points := _; Ocr.box_score := 1 |}).
  set (crop := {| rows := 3; cols := 12; pixels := [] |}).
  assert (Hcrop : @Ocr.CropTextRegion Vectors.libm Vectors.axis_aligned
                    (Vectors.image 100 100) box = Returns crop)
    by (vm_compute; reflexivity).
  assert (Hne : Mat_empty crop = false) by reflexivity.
  split; [exact Hcrop | split; [exact Hne |]].
  exact (proj1 (@crop_orientation Vectors.libm Vectors.axis_aligned
                  (Vectors.image 100 100) box crop Hcrop Hne)).
Defined.

(** C9 on the empty image and on a box without points. *)
Lemma degenerate_inputs_return_empty_witness :
  let output := {| shape := [1; 6]%Z; data := [0; 9 # 10; 10; 20; 50; 60] |} in
  let empty_image := Vectors.image 0 0 in
  let empty_box := {| Ocr.points := []; Ocr.box_score := 0 |} in
  Mat_empty empty_image = true
  /\ @Layout.detectDocLayout Vectors.axis_aligned (Vectors.new_Session 2 output)
       Vectors.globals empty_image (1 # 2)
     = (Returns [], Vectors.globals)
  /\ @Ocr.RecognizeText Vectors.libm Vectors.axis_aligned
       (Vectors.engine output output) empty_image (3 # 10) (1 # 2)
     = Returns []
  /\ @Ocr.CropTextRegion Vectors.libm Vectors.axis_aligned
       (Vectors.image 100 100) empty_box
     = Returns Mat_default.
Proof.
  cbv zeta.
  set (output := {| shape := [1; 6]%Z; data := [0; 9 # 10; 10; 20; 50; 60] |}).
  pose proof (@degenerate_inputs_return_empty Vectors.libm Vectors.axis_aligned
                (Vectors.new_Session 2 output)) as (H1 & H2 & H3 & _).
  assert (He : Mat_empty (Vectors.image 0 0) = true) by reflexivity.
  split; [exact He | split; [| split]].
  - exact (H1 Vectors.globals (Vectors.image 0 0) (1 # 2) He).
  - exact (H2 (Vectors.engine output output) (Vectors.image 0 0) (3 # 10) (1 # 2) He).
  - exact (H3 (Vectors.image 100 100) {| Ocr.points := []; Ocr.box_score := 0 |}
              eq_refl).
Defined.

(** C10 on an 8 x 8 image whose detection map holds one 4 x 4 block and
    whose recognition output decodes to "AA" with confidence 1. *)
Lemma recognized_lines_postcondition_witness :
  let eng :=
    Vectors.engine
      {| shape := [1; 1; 8; 8]%Z; data := Vectors.block_map (19 # 20) |}
      {| shape := [1; 5; 8]%Z; data := Vectors.one_hot 8 [0; 5; 5; 0; 5]%nat |} in
  exists r,
    @Ocr.RecognizeText Vectors.libm Vectors.axis_aligned eng (Vectors.image 8 8)
      (1 # 2) (1 # 2) = Returns [r]
    /\ Ocr.text r = "AA"%string
    /\ 1 # 2 <= Ocr.score r
    /\ Ocr.x1 r <= Ocr.x2 r /\ Ocr.y1 r <= Ocr.y2 r.
Proof.
  cbv zeta.
  set (eng := Vectors.engine _ _).
  destruct (@Ocr.RecognizeText Vectors.libm Vectors.axis_aligned eng
              (Vectors.image 8 8) (1 # 2) (1 # 2)) as [rs | e] eqn:Hcall;
    [| vm_compute in Hcall; discriminate Hcall].
  assert (Hrs : exists r, rs = [r] /\ Ocr.text r = "AA"%string).
  { vm_compute in Hcall. injection Hcall as <-. eexists. split; reflexivity. }
  destruct Hrs as (r & -> & Htext). exists r.
  split; [reflexivity | split; [exact Htext |]].
  destruct (@recognized_lines_postcondition Vectors.libm Vectors.axis_aligned eng
              (Vectors.image 8 8) (1 # 2) (1 # 2) [r] Hcall)
    as (boxes & _ & _ & Hlines & _).
  destruct (Hlines r (or_introl eq_refl)) as (_ & Hs & Hx & Hy & _).
  repeat split; assumption.
Defined.

(** ** Further properties of the post-processors *)

Lemma insert_sorted {A} (key : A -> float) (x : A) (l : list A) :
  StronglySorted (fun a b => key a <= key b) l ->
  StronglySorted (fun a b => key a <= key b)
    (std.insert (fun a b => ltb (key a) (key b)) x l).
Proof.
  induction 1 as [| y l Hs IH Hy]; simpl.
  - constructor; constructor.
  - cmp (key y) (key x).
    + constructor; [exact IH |].
      apply (Permutation_Forall (insert_perm _ x l)).
      constructor; [lra | exact Hy].
    + constructor; [constructor; assumption |].
      constructor; [exact Hcmp |].
      apply (Forall_impl _ (fun b Hb => Qle_trans _ _ _ Hcmp Hb) Hy).
Qed.

(** [std::sort] by a key sorts. *)
Lemma sort_sorted {A} (key : A -> float) (l : list A) :
  StronglySorted (fun a b => key a <= key b)
    (std.sort (fun a b => ltb (key a) (key b)) l).
Proof.
  induction l as [| x l IH]; simpl; [constructor | apply insert_sorted, IH].
Qed.

Section FurtherProperties.

Context {m : LibM} {cv : OpenCV}.
Variable new_Session : string -> outcome Session.

(** X2.  The shape of a polygon.  Every box that the DB decoder returns has
    exactly four points, each inside the original image; the first two have
    the two smallest y and go from left to right, the last two have the two
    largest y and go from right to left; its score is at least the box
    threshold. *)
Theorem db_polygon_shape (data : list float) (height width : Z) (sx sy : float)
    (ow oh : Z) (threshold box_threshold : float) (b : Ocr.TextBox) :
  (0 <= ow)%Z -> (0 <= oh)%Z ->
  In b (Ocr.DBPostProcess data height width sx sy ow oh threshold box_threshold) ->
  (forall p, In p (Ocr.points b) ->
     (0 <= px p /\ px p <= inject_Z ow) /\ (0 <= py p /\ py p <= inject_Z oh))
  /\ box_threshold <= Ocr.box_score b
  /\ exists p0 p1 p2 p3,
       Ocr.points b = [p0; p1; p2; p3]
       /\ px p0 <= px p1 /\ px p3 <= px p2
       /\ py p0 <= py p2 /\ py p0 <= py p3 /\ py p1 <= py p2 /\ py p1 <= py p3.
Proof.
  intros Hw Hh Hb.
  split; [apply (DBPostProcess_points _ _ _ _ _ _ _ _ _ _ Hw Hh Hb) |].
  apply in_DBPostProcess in Hb. destruct Hb as (contour & _ & Hb).
  apply in_db_contour in Hb. destruct Hb as [(_ & Hk & _) ->].
  cbn [Ocr.points Ocr.box_score]. split; [exact Hk |].
  pose proof (sort_sorted py (map (Ocr.map_back sx sy ow oh) (Ocr.vertices_of contour)))
    as Hsorted.
  pose proof (Permutation_length
                (sort_perm (fun a b => ltb (py a) (py b))
                   (map (Ocr.map_back sx sy ow oh) (Ocr.vertices_of contour))))
    as Hlen.
  rewrite length_map in Hlen.
  assert (H4 : List.length (Ocr.vertices_of contour) = 4%nat).
  { unfold Ocr.vertices_of.
    destruct (RotatedRect_points (minAreaRect contour)) as [[[v0 v1] v2] v3].
    reflexivity. }
  rewrite H4 in Hlen.
  destruct (std.sort _ _) as [| q0 [| q1 [| q2 [| q3 [| q4 rest]]]]];
    try discriminate Hlen.
  inversion Hsorted as [| ? ? Hs1 H0]; subst.
  inversion Hs1 as [| ? ? Hs2 H1]; subst.
  inversion H0 as [| ? ? H01 H0']; subst.
  inversion H0' as [| ? ? H02 H0'']; subst.
  inversion H0'' as [| ? ? H03 _]; subst.
  inversion H1 as [| ? ? H12 H1']; subst.
  inversion H1' as [| ? ? H13 _]; subst.
  unfold Ocr.swap_top.
  destruct (gtb (px q0) (px q1)) eqn:Htop;
    [apply gtb_lt in Htop | apply gtb_le in Htop];
    unfold Ocr.swap_bottom;
    (destruct (ltb (px q2) (px q3)) eqn:Hbot;
     [apply ltb_lt in Hbot | apply ltb_ge in Hbot]);
    do 4 eexists; (split; [reflexivity |]); repeat split; lra.
Qed.

(** X3.  The class of a Detection.  Every Detection that a layout call returns
    has a class id that indexes the 23-entry class table, the class name at
    that index, and a score of at least the threshold. *)
Theorem detection_class_valid (g : Layout.Globals) (image : Mat) (thr : float)
    (l : list Layout.DetectionBox) (g' : Layout.Globals) (d : Layout.DetectionBox) :
  Layout.detectDocLayout new_Session g image thr = (Returns l, g') ->
  In d l ->
  (0 <= Layout.class_id d < 23)%Z
  /\ nth_error Layout.DOC_CLASSES (Z.to_nat (Layout.class_id d))
     = Some (Layout.class_name d)
  /\ thr <= Layout.score d.
Proof.
  intros Hcall Hd. apply detectDocLayout_cases in Hcall.
  destruct Hcall as [[= ->] | (session & output & _ & _ & _ & [= ->])];
    [destruct Hd |].
  apply in_parse_output in Hd. destruct Hd as (i & _ & [Hs Hc] & ->).
  cbn [Layout.clamp_box Layout.restore_box Layout.class_id Layout.class_name
       Layout.score].
  split; [exact Hc | split; [| exact Hs]].
  apply nth_error_nth'. simpl. lia.
Qed.

(** X4.  Failure of the inference engine.  When the run of the model raises,
    a layout call and [DetectText] return the empty list and
    [RecognizeRegion] returns the empty text with score 0; none of them
    raises. *)
Theorem engine_failure_gives_empty_result :
  (forall g image thr session,
      Layout.g_initialized g = true -> Layout.g_session g = Some session ->
      (forall inputs, exists e, Run session inputs = Throws e) ->
      Layout.detectDocLayout new_Session g image thr = (Returns [], g))
  /\ (forall eng image threshold session,
        Ocr.det_session_ eng = Some session ->
        (forall inputs, exists e, Run session inputs = Throws e) ->
        Ocr.DetectText eng image threshold = Returns [])
  /\ (forall eng region session,
        Ocr.rec_session_ eng = Some session ->
        (forall inputs, exists e, Run session inputs = Throws e) ->
        Ocr.RecognizeRegion eng region = Returns (""%string, 0)).
Proof.
  split; [| split].
  - intros g image thr session Hi Hs Hfail.
    unfold Layout.detectDocLayout, Layout.initOnnxSession.
    destruct (Mat_empty image); [reflexivity |].
    rewrite Hi, Hs. simpl.
    match goal with
    | |- context [Run session ?i] => destruct (Hfail i) as [e ->]
    end.
    reflexivity.
  - intros eng image threshold session Hs Hfail. unfold Ocr.DetectText.
    rewrite Hs. destruct (Ocr.initialized_ eng); [| reflexivity].
    destruct (Mat_empty image); [reflexivity |].
    destruct (Ocr.PreprocessForDetection image) as [[[[[blob h] w] sx] sy] | e0];
      [| reflexivity]. cbn [bind].
    match goal with
    | |- context [Run session ?i] => destruct (Hfail i) as [e ->]
    end.
    reflexivity.
  - intros eng region session Hs Hfail. unfold Ocr.RecognizeRegion.
    rewrite Hs. destruct (Ocr.initialized_ eng); [| reflexivity].
    destruct (Mat_empty region); [reflexivity |].
    destruct (Ocr.PreprocessForRecognition region) as [blob w].
    match goal with
    | |- context [Run session ?i] => destruct (Hfail i) as [e ->]
    end.
    reflexivity.
Qed.

End FurtherProperties.

(** X1.  The binarisation threshold.  The DB decoder is not monotone in its
    binarisation threshold: on the ring map with box threshold 0.3, the box
    of the inner block that is returned at binarisation threshold 0.5 is
    not returned at 0.3, where the block and the ring form one region and
    the only box starts at another corner. *)
Theorem db_binarisation_threshold_not_monotone :
  exists b,
    In b (@Ocr.DBPostProcess Vectors.libm Vectors.axis_aligned Vectors.ring_map
            8 8 1 1 8 8 (1 # 2) (3 # 10))
    /\ forall b',
         In b' (@Ocr.DBPostProcess Vectors.libm Vectors.axis_aligned Vectors.ring_map
                  8 8 1 1 8 8 (3 # 10) (3 # 10)) ->
         ~ px (Ocr.pt b 0) == px (Ocr.pt b' 0).
Proof.
  eexists. split.
  - vm_compute. left. reflexivity.
  - intros b' Hb'. vm_compute in Hb'. destruct Hb' as [<- | []].
    vm_compute. discriminate.
Qed.

(** X2 on the 8 x 8 block map. *)
Lemma db_polygon_shape_witness :
  exists b,
    In b (@Ocr.DBPostProcess Vectors.libm Vectors.axis_aligned
            (Vectors.block_map (19 # 20)) 8 8 1 1 8 8 (1 # 2) (1 # 2))
    /\ 1 # 2 <= Ocr.box_score b
    /\ List.length (Ocr.points b) = 4%nat.
Proof.
  set (l := @Ocr.DBPostProcess Vectors.libm Vectors.axis_aligned
              (Vectors.block_map (19 # 20)) 8 8 1 1 8 8 (1 # 2) (1 # 2)).
  assert (Hl : exists b, In b l).
  { vm_compute. eexists. left. reflexivity. }
  destruct Hl as [b Hb]. exists b. split; [exact Hb |].
  destruct (@db_polygon_shape Vectors.libm Vectors.axis_aligned
              (Vectors.block_map (19 # 20)) 8 8 1 1 8 8 (1 # 2) (1 # 2) b
              ltac:(lia) ltac:(lia) Hb)
    as (_ & Hs & p0 & p1 & p2 & p3 & -> & _).
  split; [exact Hs | reflexivity].
Defined.

(** X3 on a row of class 2. *)
Lemma detection_class_valid_witness :
  let output := {| shape := [1; 6]%Z; data := [2; 9 # 10; 10; 20; 50; 60] |} in
  exists d,
    fst (@Layout.detectDocLayout Vectors.axis_aligned (Vectors.new_Session 2 output)
           Vectors.globals (Vectors.image 320 320) (1 # 2)) = Returns [d]
    /\ (0 <= Layout.class_id d < 23)%Z
    /\ Layout.class_name d = "text"%string.
Proof.
  cbv zeta.
  set (output := {| shape := [1; 6]%Z; data := [2; 9 # 10; 10; 20; 50; 60] |}).
  destruct (@Layout.detectDocLayout Vectors.axis_aligned (Vectors.new_Session 2 output)
              Vectors.globals (Vectors.image 320 320) (1 # 2)) as [r g'] eqn:Hcall.
  assert (Hret : exists d, r = Returns [d] /\ Layout.class_name d = "text"%string).
  { vm_compute in Hcall. injection Hcall as <- _. eexists. split; reflexivity. }
  destruct Hret as (d & -> & Hname). exists d.
  split; [reflexivity |].
  destruct (@detection_class_valid Vectors.axis_aligned (Vectors.new_Session 2 output)
              Vectors.globals (Vectors.image 320 320) (1 # 2) [d] g' d Hcall
              (or_introl eq_refl)) as (Hc & _ & _).
  split; [exact Hc | exact Hname].
Defined.

(** X4 on a session whose runs fail. *)
Lemma engine_failure_gives_empty_result_witness :
  let g := {| Layout.g_session := Some Vectors.failing_session;
              Layout.g_initialized := true;
              Layout.MODEL_PATH := "layout.onnx" |} in
  (forall inputs, exists e, Run Vectors.failing_session inputs = Throws e)
  /\ @Layout.detectDocLayout Vectors.axis_aligned
       (fun _ => Returns Vectors.failing_session) g (Vectors.image 320 320) (1 # 2)
     = (Returns [], g).
Proof.
  cbv zeta.
  assert (Hfail : forall inputs, exists e, Run Vectors.failing_session inputs = Throws e).
  { intros inputs. exists OrtException. reflexivity. }
  split; [exact Hfail |].
  exact (proj1 (@engine_failure_gives_empty_result Vectors.libm Vectors.axis_aligned
                  (fun _ => Returns Vectors.failing_session))
           {| Layout.g_session := Some Vectors.failing_session;
              Layout.g_initialized := true;
              Layout.MODEL_PATH := "layout.onnx" |}
           (Vectors.image 320 320) (1 # 2) Vectors.failing_session
           eq_refl eq_refl Hfail).
Defined.

(** A blob that passes the size filter.  On the 8 x 8 map with 0.95 on
    the 4 x 4 block at (2,2)-(5,5), thresholds 0.5, scale factors (1,1) and
    original size 8 x 8, the decoder returns exactly one box: the corner
    pixels of the block in the order top-left, top-right, bottom-right,
    bottom-left, with score 0.95. *)
Theorem db_block_gives_one_polygon :
  exists p0 p1 p2 p3 s,
    @Ocr.DBPostProcess Vectors.libm Vectors.axis_aligned
      (Vectors.block_map (19 # 20)) 8 8 1 1 8 8 (1 # 2) (1 # 2)
    = [{| Ocr.points := [p0; p1; p2; p3]; Ocr.box_score := s |}]
    /\ (px p0 == 2 /\ py p0 == 2) /\ (px p1 == 5 /\ py p1 == 2)
    /\ (px p2 == 5 /\ py p2 == 5) /\ (px p3 == 2 /\ py p3 == 5)
    /\ s == 19 # 20.
Proof.
  do 5 eexists. split; [vm_compute; reflexivity |].
  repeat split; reflexivity.
Qed.

(** ** Rounding to single precision *)

Lemma exp2_pos (k : Z) : 0 < exp2 k.
Proof. apply Qpower_0_lt. reflexivity. Qed.

Lemma exp2_add (a b : Z) : exp2 (a + b) == exp2 a * exp2 b.
Proof. apply Qpower_plus. discriminate. Qed.

Lemma exp2_Z (k : Z) : (0 <= k)%Z -> exp2 k == inject_Z (2 ^ k).
Proof. intros H. unfold exp2. rewrite Zpower_Qpower by exact H. reflexivity. Qed.

Lemma rint_spec (v : Q) :
  - (1 # 2) <= inject_Z (rint v) - v /\ inject_Z (rint v) - v <= 1 # 2.
Proof.
  unfold rint. pose proof (Qfloor_le v) as Hlo. pose proof (Qlt_floor v) as Hhi.
  rewrite inject_Z_plus in Hhi. change (inject_Z 1) with 1 in Hhi.
  set (f := Qfloor v) in *.
  destruct (ltb (v - inject_Z f) (1 # 2)) eqn:E1.
  - apply ltb_lt in E1. split; lra.
  - apply ltb_ge in E1.
    assert (Hup : - (1 # 2) <= inject_Z (f + 1) - v /\ inject_Z (f + 1) - v <= 1 # 2).
    { rewrite inject_Z_plus. change (inject_Z 1) with 1. split; lra. }
    destruct (ltb (1 # 2) (v - inject_Z f)) eqn:E2; [exact Hup |].
    apply ltb_ge in E2. destruct (Z.even f); [split; lra | exact Hup].
Qed.

Lemma rint_int (x : Q) (z : Z) : x == inject_Z z -> rint x = z.
Proof.
  intros E. unfold rint. rewrite (Qfloor_comp _ _ E), Qfloor_Z.
  replace (ltb (x - inject_Z z) (1 # 2)) with true; [reflexivity |].
  symmetry. apply ltb_lt. lra.
Qed.

Lemma rint_nonneg (v : Q) : 0 <= v -> (0 <= rint v)%Z.
Proof.
  intros H. assert (Hf : (0 <= Qfloor v)%Z).
  { change 0%Z with (Qfloor 0). apply Qfloor_resp_le, H. }
  unfold rint. destruct (ltb _ _); [exact Hf |].
  destruct (ltb _ _); [lia |]. destruct (Z.even _); lia.
Qed.

Lemma ilog2_spec (a : Q) :
  0 < a -> exp2 (ilog2 a) <= a /\ a < exp2 (ilog2 a + 1).
Proof.
  destruct a as [n d]. intros Ha.
  assert (Hn : (0 < n)%Z) by (unfold Qlt in Ha; simpl in Ha; lia).
  unfold ilog2. cbn [Qnum Qden].
  set (p := Z.log2 n). set (q := Z.log2 (Z.pos d)).
  assert (Hp0 : (0 <= p)%Z) by apply Z.log2_nonneg.
  assert (Hq0 : (0 <= q)%Z) by apply Z.log2_nonneg.
  destruct (Z.log2_spec n Hn) as [Hp1 Hp2]. fold p in Hp1, Hp2.
  destruct (Z.log2_spec (Z.pos d) eq_refl) as [Hq1 Hq2]. fold q in Hq1, Hq2.
  assert (Hfrac : forall u w : Z, (0 <= u)%Z -> (0 <= w)%Z ->
            exp2 (u - w) == inject_Z (2 ^ u) / inject_Z (2 ^ w)).
  { intros u w Hu Hw. unfold exp2. rewrite Qpower_minus by discriminate.
    rewrite !Zpower_Qpower by assumption. reflexivity. }
  assert (Hpow : forall u : Z, (0 <= u)%Z -> 0 < inject_Z (2 ^ u)).
  { intros u Hu. rewrite <- exp2_Z by exact Hu. apply exp2_pos. }
  assert (Hlow : exp2 (p - q - 1) <= n # d).
  { replace (p - q - 1)%Z with (p - (q + 1))%Z by lia.
    rewrite Hfrac by lia. apply Qle_shift_div_r; [apply Hpow; lia |].
    unfold Qle, Qmult, inject_Z. simpl. nia. }
  assert (Hupp : n # d < exp2 (p - q + 1)).
  { replace (p - q + 1)%Z with (p + 1 - q)%Z by lia.
    rewrite Hfrac by lia. apply Qlt_shift_div_l; [apply Hpow; lia |].
    unfold Qlt, Qmult, inject_Z. simpl. nia. }
  destruct (Qle_bool (exp2 (p - q)) (n # d)) eqn:E.
  - apply Qle_bool_iff in E. split; assumption.
  - split; [exact Hlow |].
    replace (p - q - 1 + 1)%Z with (p - q)%Z by lia.
    apply Qnot_le_lt. intros H. apply Qle_bool_iff in H. congruence.
Qed.

Lemma fl32_comp (x y : Q) : x == y -> fl32 x = fl32 y.
Proof. intros E. unfold fl32. rewrite (Qred_complete _ _ E). reflexivity. Qed.

(** The value of [fl32] on a positive number. *)
Lemma fl32_pos (x : Q) :
  0 < x ->
  fl32 x = inject_Z (rint (Qred x / exp2 (Z.max (ilog2 (Qred x) - 23) (-149))))
           * exp2 (Z.max (ilog2 (Qred x) - 23) (-149)).
Proof.
  intros Hx. unfold fl32.
  assert (Hv : 0 < Qred x) by (rewrite Qred_correct; exact Hx).
  destruct (Qeq_bool (Qred x) 0) eqn:E.
  { apply Qeq_bool_iff in E. lra. }
  replace (ltb (Qred x) 0) with false by (symmetry; apply ltb_ge; lra).
  assert (Ha : Qabs (Qred x) = Qred x).
  { destruct (Qred x) as [n d]. unfold Qlt in Hv. simpl in Hv.
    unfold Qabs. rewrite Z.abs_eq by lia. reflexivity. }
  rewrite Ha. reflexivity.
Qed.

Lemma fl32_nonneg (x : Q) : 0 <= x -> 0 <= fl32 x.
Proof.
  intros Hx. destruct (Qlt_le_dec 0 x) as [Hpos | Hz].
  - rewrite fl32_pos by exact Hpos.
    apply Qmult_le_0_compat; [| apply Qlt_le_weak, exp2_pos].
    change 0 with (inject_Z 0). rewrite <- Zle_Qle. apply rint_nonneg.
    apply Qle_shift_div_l; [apply exp2_pos |].
    rewrite Qmult_0_l, Qred_correct. exact Hx.
  - assert (E : x == 0) by lra. rewrite (fl32_comp _ _ E). vm_compute. discriminate.
Qed.

(** Half an ulp: the distance to the nearest single-precision number. *)
Lemma fl32_near (x : Q) :
  0 < x ->
  let t := exp2 (Z.max (ilog2 (Qred x) - 23) (-149)) in
  x - (1 # 2) * t <= fl32 x /\ fl32 x <= x + (1 # 2) * t.
Proof.
  intros Hx t. rewrite fl32_pos by exact Hx. fold t.
  assert (Ht : 0 < t) by apply exp2_pos.
  destruct (rint_spec (Qred x / t)) as [Hlo Hhi].
  set (mz := inject_Z (rint (Qred x / t))) in *.
  assert (Hq : Qred x / t * t == x).
  { rewrite Qred_correct. field. lra. }
  set (q := Qred x / t) in *.
  assert (H1 : - (1 # 2) * t <= (mz - q) * t)
    by (apply Qmult_le_compat_r; lra).
  assert (H2 : (mz - q) * t <= (1 # 2) * t)
    by (apply Qmult_le_compat_r; lra).
  assert (E : (mz - q) * t == mz * t - q * t) by ring.
  rewrite E, Hq in H1, H2. split; lra.
Qed.

(** In the range of the normal numbers the relative error is at most
    2^-24. *)
Lemma fl32_rel (x : Q) :
  exp2 (-126) <= x ->
  x * (1 - (1 # 16777216)) <= fl32 x /\ fl32 x <= x * (1 + (1 # 16777216)).
Proof.
  intros Hx. pose proof (exp2_pos (-126)) as Hpos.
  assert (Hx0 : 0 < x) by lra.
  destruct (fl32_near x Hx0) as [Hlo Hhi]. cbv zeta in Hlo, Hhi.
  set (e := ilog2 (Qred x)) in *.
  assert (He : exp2 e <= x).
  { apply (Qle_trans _ (Qred x)).
    - apply ilog2_spec. rewrite Qred_correct. exact Hx0.
    - rewrite Qred_correct. apply Qle_refl. }
  assert (Ht : exp2 (Z.max (e - 23) (-149)) * 8388608 <= x).
  { destruct (Z.max_spec (e - 23) (-149)) as [[_ ->] | [_ ->]].
    - assert (E : exp2 (-149) * 8388608 == exp2 (-126)) by reflexivity.
      rewrite E. exact Hx.
    - assert (E : exp2 (e - 23) * 8388608 == exp2 e).
      { replace e with (e - 23 + 23)%Z at 2 by lia. rewrite exp2_add.
        assert (E23 : exp2 23 == 8388608) by reflexivity. rewrite E23. reflexivity. }
      rewrite E. exact He. }
  set (t := exp2 _) in *. split; lra.
Qed.

(** The integers below 2^24 are single-precision numbers. *)
Lemma fl32_int (n : Z) :
  (0 <= n < 16777216)%Z -> fl32 (inject_Z n) == inject_Z n.
Proof.
  intros Hn. destruct (Z.eq_dec n 0) as [-> | Hnz]; [reflexivity |].
  assert (Hx : 0 < inject_Z n).
  { change 0 with (inject_Z 0). rewrite <- Zlt_Qlt. lia. }
  rewrite fl32_pos by exact Hx.
  set (e := ilog2 (Qred (inject_Z n))).
  assert (He : exp2 e <= inject_Z n).
  { apply (Qle_trans _ (Qred (inject_Z n))).
    - apply ilog2_spec. rewrite Qred_correct. exact Hx.
    - rewrite Qred_correct. apply Qle_refl. }
  assert (He24 : (e < 24)%Z).
  { apply (Qpower_lt_compat_l_inv 2); [| reflexivity].
    apply (Qle_lt_trans _ (inject_Z n)); [exact He |].
    assert (E : 2 ^ 24 == inject_Z 16777216) by reflexivity.
    rewrite E, <- Zlt_Qlt. lia. }
  set (s := Z.max (e - 23) (-149)).
  assert (Hs : (s <= 0)%Z) by (unfold s; lia).
  assert (Es : exp2 s == / inject_Z (2 ^ (- s))).
  { replace s with (- (- s))%Z at 1 by lia. unfold exp2.
    rewrite Qpower_opp, Zpower_Qpower by lia. reflexivity. }
  assert (Hp : 0 < inject_Z (2 ^ (- s))).
  { rewrite <- exp2_Z by lia. apply exp2_pos. }
  assert (Eq : Qred (inject_Z n) / exp2 s == inject_Z (n * 2 ^ (- s))).
  { rewrite Qred_correct, Es, inject_Z_mult. field. lra. }
  rewrite (rint_int _ _ Eq), Es, inject_Z_mult. field. lra.
Qed.

(** The relative error, for the numbers that occur. *)
Lemma fl32_rel_small (x : Q) :
  1 # 1099511627776 <= x ->
  x * (1 - (1 # 16777216)) <= fl32 x /\ fl32 x <= x * (1 + (1 # 16777216)).
Proof.
  intros Hx. apply fl32_rel.
  apply (Qle_trans _ (1 # 1099511627776)); [| exact Hx].
  vm_compute. discriminate.
Qed.

(** ** The sizes of the network inputs *)

(** On a non-negative value the conversion to [int] is the floor. *)
Lemma static_cast_int_floor (v : float) : 0 <= v -> static_cast_int v = Qfloor v.
Proof.
  destruct v as [n d]. unfold Qle, static_cast_int, Qfloor. simpl. intros H.
  apply Z.quot_div_nonneg; lia.
Qed.

Lemma static_cast_int_ratio (a b c : Z) :
  (0 <= a)%Z -> (0 <= b)%Z -> (0 < c)%Z ->
  static_cast_int (static_cast_float a * (static_cast_float b / static_cast_float c))
  = (a * b / c)%Z.
Proof.
  intros Ha Hb Hc. destruct c as [| p | p]; try lia.
  unfold static_cast_int, static_cast_float, Qdiv, Qmult, Qinv, inject_Z. simpl.
  rewrite Z.quot_div_nonneg by lia.
  f_equal; lia.
Qed.

(** The truncation of a non-negative value lies between two integers
    when the value does. *)
Lemma static_cast_int_between (v : float) (lo hi : Z) :
  0 <= v -> inject_Z lo <= v -> v < inject_Z hi ->
  (lo <= static_cast_int v < hi)%Z.
Proof.
  intros H0 Hlo Hhi. rewrite static_cast_int_floor by exact H0. split.
  - rewrite <- (Qfloor_Z lo). apply Qfloor_resp_le, Hlo.
  - rewrite Zlt_Qlt. apply (Qle_lt_trans _ v); [apply Qfloor_le | exact Hhi].
Qed.

Lemma static_cast_int_eq (v : float) (n : Z) :
  (0 <= n)%Z -> v == inject_Z n -> static_cast_int v = n.
Proof.
  intros Hn E. rewrite static_cast_int_floor.
  - rewrite (Qfloor_comp _ _ E). apply Qfloor_Z.
  - rewrite E. change 0 with (inject_Z 0). rewrite <- Zle_Qle. exact Hn.
Qed.

Lemma round_up_32 (f : Z) :
  (0 <= f <= 960)%Z ->
  (Z.quot (f + Ocr.DET_LIMIT_SIDE - 1) Ocr.DET_LIMIT_SIDE * Ocr.DET_LIMIT_SIDE
   = (f + 31) / 32 * 32)%Z
  /\ (0 <= (f + 31) / 32 * 32 <= 960)%Z
  /\ ((f + 31) / 32 * 32 = 0 <-> f = 0)%Z.
Proof.
  intros Hf. unfold Ocr.DET_LIMIT_SIDE.
  rewrite Z.quot_div_nonneg by lia.
  replace (f + 32 - 1)%Z with (f + 31)%Z by lia.
  split; [reflexivity |].
  split; [| split; intros H]; Z.div_mod_to_equations; lia.
Qed.

(** A quotient of sizes, between the bounds that the sizes give. *)
Lemma ratio_bounds (a d side : Z) (lo hi : Q) :
  (0 < side)%Z ->
  lo * inject_Z side <= inject_Z a * inject_Z d ->
  inject_Z a * inject_Z d <= hi * inject_Z side ->
  lo <= inject_Z d * (inject_Z a / inject_Z side)
  /\ inject_Z d * (inject_Z a / inject_Z side) <= hi.
Proof.
  intros Hs Hlo Hhi.
  assert (Hs' : 0 < inject_Z side).
  { change 0 with (inject_Z 0). rewrite <- Zlt_Qlt. exact Hs. }
  assert (E : inject_Z d * (inject_Z a / inject_Z side)
              == inject_Z a * inject_Z d / inject_Z side) by (field; lra).
  rewrite E. split.
  - apply Qle_shift_div_l; assumption.
  - apply Qle_shift_div_r; assumption.
Qed.

(** The product of a size with a rounded ratio, rounded: within two
    relative errors of the exact product. *)
Lemma fl32_scaled (a d side : Z) :
  (1 <= a <= 960)%Z -> (1 <= d <= 16777216)%Z -> (1 <= side <= 16777216)%Z ->
  let X := inject_Z d * (inject_Z a / inject_Z side) in
  let y := fl32 (static_cast_float d
                 * fl32 (static_cast_float a / static_cast_float side)) in
  X * (16777213 # 16777216) <= y /\ y <= X * (16777219 # 16777216).
Proof.
  intros Ha Hd Hs X y. unfold static_cast_float in y.
  assert (HD : 1 <= inject_Z d /\ inject_Z d <= 16777216).
  { split; [change 1 with (inject_Z 1) | change 16777216 with (inject_Z 16777216)];
      rewrite <- Zle_Qle; lia. }
  assert (HS : 1 <= inject_Z side /\ inject_Z side <= 16777216).
  { split; [change 1 with (inject_Z 1) | change 16777216 with (inject_Z 16777216)];
      rewrite <- Zle_Qle; lia. }
  assert (HA : 1 <= inject_Z a /\ inject_Z a <= 960).
  { split; [change 1 with (inject_Z 1) | change 960 with (inject_Z 960)];
      rewrite <- Zle_Qle; lia. }
  set (x0 := inject_Z a / inject_Z side) in *.
  assert (Hx0 : 1 # 16777216 <= x0).
  { unfold x0. apply Qle_shift_div_l; lra. }
  destruct (fl32_rel_small x0 ltac:(lra)) as [Hr1 Hr2].
  set (r := fl32 x0) in *.
  assert (Hy0lo : X * (1 - (1 # 16777216)) <= inject_Z d * r).
  { unfold X. rewrite <- Qmult_assoc. apply Qmult_le_l; lra. }
  assert (Hy0hi : inject_Z d * r <= X * (1 + (1 # 16777216))).
  { unfold X. rewrite <- Qmult_assoc. apply Qmult_le_l; lra. }
  assert (HX : 1 # 16777216 <= X).
  { unfold X. apply (Qle_trans _ (1 * x0)); [lra |].
    apply Qmult_le_compat_r; lra. }
  destruct (fl32_rel_small (inject_Z d * r) ltac:(lra)) as [Hy1 Hy2].
  fold y in Hy1, Hy2. split; lra.
Qed.

(** One side of the detection input before the rounding up: the side of
    the image, shrunk when the longer side exceeds 960. *)
Lemma det_side (d side : Z) :
  (1 <= d <= side)%Z -> (side <= 16777216)%Z ->
  let f :=
    static_cast_int
      (fl32 (static_cast_float d *
             (if (side >? Ocr.DET_MAX_SIDE)%Z
              then fl32 (static_cast_float Ocr.DET_MAX_SIDE / static_cast_float side)
              else 1))) in
  (0 <= f <= 960)%Z
  /\ ((side <= 960)%Z -> f = d)
  /\ ((side <= 959 * d)%Z -> (1 <= f)%Z)
  /\ ((961 * d <= side)%Z -> f = 0%Z).
Proof.
  intros Hd Hs. unfold Ocr.DET_MAX_SIDE. cbv zeta.
  destruct (Z.gtb_spec side 960) as [Hbig | Hsmall].
  - destruct (fl32_scaled 960 d side ltac:(lia) ltac:(lia) ltac:(lia)) as [Hlo Hhi].
    cbv zeta in Hlo, Hhi.
    set (y := fl32 _) in *. set (X := inject_Z d * (inject_Z 960 / inject_Z side)) in *.
    assert (HD : inject_Z d <= inject_Z side) by (rewrite <- Zle_Qle; lia).
    assert (HD1 : 1 <= inject_Z d).
    { change 1 with (inject_Z 1). rewrite <- Zle_Qle. lia. }
    change (inject_Z 960) with 960 in *.
    assert (HX : 0 <= X /\ X <= 960).
    { unfold X. apply (ratio_bounds 960 d side 0 960); [lia | |];
        change (inject_Z 960) with 960; lra. }
    assert (Hy0 : 0 <= y) by lra.
    assert (Hf : (0 <= static_cast_int y < 961)%Z).
    { apply static_cast_int_between; [exact Hy0 | exact Hy0 |].
      change (inject_Z 961) with 961. lra. }
    split; [lia |]. split; [lia |]. split.
    + intros Hc.
      assert (HX1 : 960 # 959 <= X).
      { unfold X. apply (ratio_bounds 960 d side (960 # 959) 960); [lia | |];
          change (inject_Z 960) with 960; [| lra].
        assert (inject_Z side <= 959 * inject_Z d).
        { change 959 with (inject_Z 959). rewrite <- inject_Z_mult, <- Zle_Qle. lia. }
        lra. }
      apply (static_cast_int_between y 1 961); [exact Hy0 | |];
        [change (inject_Z 1) with 1 | change (inject_Z 961) with 961]; lra.
    + intros Hc.
      assert (HX1 : X <= 960 # 961).
      { unfold X. apply (ratio_bounds 960 d side 0 (960 # 961)); [lia | |];
          change (inject_Z 960) with 960; [lra |].
        assert (961 * inject_Z d <= inject_Z side).
        { change 961 with (inject_Z 961). rewrite <- inject_Z_mult, <- Zle_Qle. lia. }
        lra. }
      assert (H01 : (0 <= static_cast_int y < 1)%Z).
      { apply static_cast_int_between; [exact Hy0 | exact Hy0 |].
        change (inject_Z 1) with 1. lra. }
      lia.
  - assert (E : static_cast_int (fl32 (static_cast_float d * 1)) = d).
    { apply static_cast_int_eq; [lia |].
      assert (E1 : static_cast_float d * 1 == inject_Z d)
        by (unfold static_cast_float; ring).
      rewrite (fl32_comp _ _ E1). apply fl32_int. lia. }
    rewrite E. repeat split; lia.
Qed.

Section InputSizes.

Context {m : LibM} {cv : OpenCV}.

(** What [PreprocessForDetection] does on an image of at least one row and
    one column: the two sides before the rounding up are in [[0, 960]], and
    the call raises exactly when one of them is 0. *)
Lemma PreprocessForDetection_sides (image : Mat) :
  (1 <= rows image <= 16777216)%Z -> (1 <= cols image <= 16777216)%Z ->
  exists fh fw,
    ((0 <= fh <= 960)%Z /\ (0 <= fw <= 960)%Z)
    /\ ((Z.max (rows image) (cols image) <= 960)%Z ->
        fh = rows image /\ fw = cols image)
    /\ ((Z.max (rows image) (cols image) <= 959 * Z.min (rows image) (cols image))%Z ->
        (1 <= fh)%Z /\ (1 <= fw)%Z)
    /\ ((961 * Z.min (rows image) (cols image) <= Z.max (rows image) (cols image))%Z ->
        fh = 0%Z \/ fw = 0%Z)
    /\ Ocr.PreprocessForDetection image
       = if (fw =? 0)%Z || (fh =? 0)%Z then Throws CvException
         else
           let new_h := ((fh + 31) / 32 * 32)%Z in
           let new_w := ((fw + 31) / 32 * 32)%Z in
           Returns
             (det_blob {| rows := new_h; cols := new_w;
                          pixels := resize_pixels image new_w new_h |},
              new_h, new_w,
              fl32 (static_cast_float new_w / static_cast_float (cols image)),
              fl32 (static_cast_float new_h / static_cast_float (rows image))).
Proof.
  intros Hr Hc. unfold Ocr.PreprocessForDetection.
  set (side := Z.max (rows image) (cols image)).
  destruct (det_side (rows image) side ltac:(subst side; lia) ltac:(subst side; lia))
    as (Bh & Eh & Ph & Zh).
  destruct (det_side (cols image) side ltac:(subst side; lia) ltac:(subst side; lia))
    as (Bw & Ew & Pw & Zw).
  cbv zeta in Bh, Eh, Ph, Zh, Bw, Ew, Pw, Zw.
  set (fh := static_cast_int (fl32 (static_cast_float (rows image) * _))) in *.
  set (fw := static_cast_int (fl32 (static_cast_float (cols image) * _))) in *.
  exists fh, fw.
  split; [split; assumption |].
  split; [intros Hn; split; [apply Eh | apply Ew]; exact Hn |].
  split; [intros Hn; split; [apply Ph | apply Pw]; subst side; lia |].
  split.
  { intros Hn. destruct (Z.le_ge_cases (rows image) (cols image)) as [Hle | Hge].
    - left. apply Zh. subst side. lia.
    - right. apply Zw. subst side. lia. }
  destruct (round_up_32 fh Bh) as (Rh & Rh1 & Rh2).
  destruct (round_up_32 fw Bw) as (Rw & Rw1 & Rw2).
  rewrite Rh, Rw.
  replace (((fw + 31) / 32 * 32 <=? 0)%Z) with (fw =? 0)%Z.
  2:{ destruct (Z.eqb_spec fw 0) as [E | E]; symmetry;
        [apply Z.leb_le | apply Z.leb_gt]; lia. }
  replace (((fh + 31) / 32 * 32 <=? 0)%Z) with (fh =? 0)%Z.
  2:{ destruct (Z.eqb_spec fh 0) as [E | E]; symmetry;
        [apply Z.leb_le | apply Z.leb_gt]; lia. }
  reflexivity.
Qed.

(** When [PreprocessForDetection] returns, the sides of the network input
    are multiples of 32 in [[32, 960]] and the scale factors are
    positive. *)
Lemma PreprocessForDetection_returns (image : Mat) (blob : list float)
    (new_h new_w : Z) (sx sy : float) :
  (1 <= rows image <= 16777216)%Z -> (1 <= cols image <= 16777216)%Z ->
  Ocr.PreprocessForDetection image = Returns (blob, new_h, new_w, sx, sy) ->
  ((new_h mod 32 = 0)%Z /\ (32 <= new_h <= 960)%Z)
  /\ ((new_w mod 32 = 0)%Z /\ (32 <= new_w <= 960)%Z)
  /\ 0 < sx /\ 0 < sy.
Proof.
  intros Hr Hc Hcall.
  destruct (PreprocessForDetection_sides image Hr Hc)
    as (fh & fw & [Bh Bw] & _ & _ & _ & Hdef).
  rewrite Hdef in Hcall.
  destruct (Z.eqb_spec fw 0) as [E | Ew]; [discriminate Hcall |].
  destruct (Z.eqb_spec fh 0) as [E | Eh]; [discriminate Hcall |].
  cbn [orb] in Hcall. cbv zeta in Hcall. injection Hcall as _ <- <- <- <-.
  assert (Hpos : forall n d : Z,
            (32 <= n)%Z -> (1 <= d <= 16777216)%Z ->
            0 < fl32 (static_cast_float n / static_cast_float d)).
  { intros n d Hn Hd. unfold static_cast_float.
    assert (HN : 32 <= inject_Z n).
    { change 32 with (inject_Z 32). rewrite <- Zle_Qle. exact Hn. }
    assert (HD : 1 <= inject_Z d /\ inject_Z d <= 16777216).
    { split; [change 1 with (inject_Z 1) | change 16777216 with (inject_Z 16777216)];
        rewrite <- Zle_Qle; lia. }
    assert (Hx : 1 # 16777216 <= inject_Z n / inject_Z d).
    { apply Qle_shift_div_l; lra. }
    destruct (fl32_rel_small (inject_Z n / inject_Z d) ltac:(lra)) as [Hlo _].
    lra. }
  assert (Hh : (32 <= (fh + 31) / 32 * 32 <= 960)%Z
               /\ ((fh + 31) / 32 * 32) mod 32 = 0%Z).
  { split; [Z.div_mod_to_equations; lia | apply Z.mod_mul; lia]. }
  assert (Hw : (32 <= (fw + 31) / 32 * 32 <= 960)%Z
               /\ ((fw + 31) / 32 * 32) mod 32 = 0%Z).
  { split; [Z.div_mod_to_equations; lia | apply Z.mod_mul; lia]. }
  destruct Hh as [Hh1 Hh2]. destruct Hw as [Hw1 Hw2].
  split; [auto |]. split; [auto |].
  split; apply Hpos; try assumption; lia.
Qed.

(** X5.  The size of the detection input.  For an image of at least one
    row and one column, in single-precision arithmetic: when
    [PreprocessForDetection] returns, both sides of the network input are
    multiples of 32 in [[32, 960]] and both scale factors are positive; an
    image whose longer side is at most 960 is fed with its own sides rounded
    up to the next multiple of 32; the call returns whenever the longer
    side is at most 959 times the shorter, and raises, because [cv::resize]
    is asked for a side of 0, whenever the longer side is at least 961
    times the shorter. *)
Theorem detection_input_size (image : Mat) :
  (1 <= rows image <= 16777216)%Z -> (1 <= cols image <= 16777216)%Z ->
  let lo := Z.min (rows image) (cols image) in
  let hi := Z.max (rows image) (cols image) in
  (forall blob new_h new_w sx sy,
     Ocr.PreprocessForDetection image = Returns (blob, new_h, new_w, sx, sy) ->
     ((new_h mod 32 = 0)%Z /\ (32 <= new_h <= 960)%Z)
     /\ ((new_w mod 32 = 0)%Z /\ (32 <= new_w <= 960)%Z)
     /\ 0 < sx /\ 0 < sy)
  /\ ((hi <= 960)%Z ->
      exists blob sx sy,
        Ocr.PreprocessForDetection image
        = Returns (blob, ((rows image + 31) / 32 * 32)%Z,
                   ((cols image + 31) / 32 * 32)%Z, sx, sy))
  /\ ((hi <= 959 * lo)%Z ->
      exists r, Ocr.PreprocessForDetection image = Returns r)
  /\ ((961 * lo <= hi)%Z ->
      Ocr.PreprocessForDetection image = Throws CvException).
Proof.
  intros Hr Hc lo hi.
  destruct (PreprocessForDetection_sides image Hr Hc)
    as (fh & fw & [Bh Bw] & Hsmall & Hwide & Hnarrow & Hdef).
  fold lo hi in Hsmall, Hwide, Hnarrow.
  split; [| split; [| split]].
  - intros blob new_h new_w sx sy Hcall.
    exact (PreprocessForDetection_returns image blob new_h new_w sx sy Hr Hc Hcall).
  - intros Hhi. destruct (Hsmall Hhi) as [-> ->]. rewrite Hdef.
    replace (cols image =? 0)%Z with false by (symmetry; apply Z.eqb_neq; lia).
    replace (rows image =? 0)%Z with false by (symmetry; apply Z.eqb_neq; lia).
    cbn [orb]. cbv zeta. eauto.
  - intros Hhi. destruct (Hwide Hhi) as [Hh Hw]. rewrite Hdef.
    replace (fw =? 0)%Z with false by (symmetry; apply Z.eqb_neq; lia).
    replace (fh =? 0)%Z with false by (symmetry; apply Z.eqb_neq; lia).
    cbn [orb]. cbv zeta. eauto.
  - intros Hhi. rewrite Hdef. destruct (Hnarrow Hhi) as [-> | ->].
    + rewrite orb_true_r. reflexivity.
    + reflexivity.
Qed.

End InputSizes.

(** X5 on an image of 435 rows and 1856 columns, whose height 224 is one
    step of 32 below that of exact arithmetic, on one of 41 rows and 39360
    columns, which is 960 times as wide as high, and on one of 1 row and
    2000 columns. *)
Lemma detection_input_size_witness :
  (exists blob sx sy,
     @Ocr.PreprocessForDetection Vectors.axis_aligned (Vectors.image 435 1856)
     = Returns (blob, 224%Z, 960%Z, sx, sy))
  /\ @Ocr.PreprocessForDetection Vectors.axis_aligned (Vectors.image 41 39360)
     = Throws CvException
  /\ @Ocr.PreprocessForDetection Vectors.axis_aligned (Vectors.image 1 2000)
     = Throws CvException.
Proof.
  split; [do 3 eexists; vm_compute; reflexivity |].
  split; [vm_compute; reflexivity |].
  apply (proj2 (proj2 (proj2 (@detection_input_size Vectors.axis_aligned
                                (Vectors.image 1 2000)
                                ltac:(simpl; lia) ltac:(simpl; lia))))).
  simpl. lia.
Defined.

Section RecognitionInput.

Context {m : LibM} {cv : OpenCV}.

(** X6.  The width of the recognition input.  For a crop of at least one
    row and one column, in single-precision arithmetic, the network input
    of [PreprocessForRecognition] is between 1 and 2048 wide, and its width
    is the quotient [cols * 48 / rows] of the integer division, limited to
    [[1, 2048]], or one more or one less than the quotient, limited
    likewise. *)
Theorem recognition_input_width (region : Mat) :
  (1 <= rows region <= 16777216)%Z -> (1 <= cols region <= 16777216)%Z ->
  let w := snd (Ocr.PreprocessForRecognition region) in
  let q := (cols region * 48 / rows region)%Z in
  (1 <= w <= 2048)%Z
  /\ (Z.max 1 (Z.min 2048 (q - 1)) <= w <= Z.max 1 (Z.min 2048 (q + 1)))%Z.
Proof.
  intros Hr Hc w q. subst w. unfold Ocr.PreprocessForRecognition. cbn [snd].
  unfold Ocr.REC_IMG_HEIGHT, Ocr.REC_IMG_MAX_WIDTH.
  destruct (fl32_scaled 48 (cols region) (rows region)
              ltac:(lia) ltac:(lia) ltac:(lia)) as [Hlo Hhi].
  cbv zeta in Hlo, Hhi.
  set (y := fl32 _) in *.
  set (X := inject_Z (cols region) * (inject_Z 48 / inject_Z (rows region))) in *.
  assert (HX0 : 0 <= X).
  { assert (HC : 0 <= inject_Z (cols region)).
    { change 0 with (inject_Z 0). rewrite <- Zle_Qle. lia. }
    assert (HR : 1 <= inject_Z (rows region)).
    { change 1 with (inject_Z 1). rewrite <- Zle_Qle. lia. }
    unfold X. apply Qmult_le_0_compat; [exact HC |].
    apply Qle_shift_div_l; [lra |]. change (inject_Z 48) with 48. lra. }
  assert (Hq : Qfloor X = q).
  { unfold q. rewrite <- static_cast_int_floor by exact HX0.
    apply static_cast_int_ratio; lia. }
  pose proof (Qfloor_le X) as HX1. pose proof (Qlt_floor X) as HX2.
  rewrite Hq in HX1, HX2. rewrite inject_Z_plus in HX2.
  change (inject_Z 1) with 1 in HX2.
  assert (Hy0 : 0 <= y) by lra.
  set (raw := static_cast_int y).
  assert (Hraw0 : (0 <= raw)%Z).
  { unfold raw. rewrite static_cast_int_floor by exact Hy0.
    change 0%Z with (Qfloor 0). apply Qfloor_resp_le, Hy0. }
  assert (Hup : (q <= 2046)%Z -> (raw <= q + 1)%Z).
  { intros Hq1.
    assert (inject_Z q <= 2046).
    { change 2046 with (inject_Z 2046). rewrite <- Zle_Qle. exact Hq1. }
    assert (Hb : (0 <= raw < q + 2)%Z).
    { apply static_cast_int_between; [exact Hy0 | exact Hy0 |].
      rewrite inject_Z_plus. change (inject_Z 2) with 2. lra. }
    lia. }
  assert (Hdown : (q <= 4095)%Z -> (q - 1 <= raw)%Z).
  { intros Hq1.
    assert (inject_Z q <= 4095).
    { change 4095 with (inject_Z 4095). rewrite <- Zle_Qle. exact Hq1. }
    destruct (Z.le_gt_cases q 0) as [Hz | Hz]; [lia |].
    assert (1 <= inject_Z q).
    { change 1 with (inject_Z 1). rewrite <- Zle_Qle. lia. }
    assert (Hb : (q - 1 <= raw < q + 2)%Z).
    { apply static_cast_int_between; [exact Hy0 | |].
      - replace (q - 1)%Z with (q + -1)%Z by lia. rewrite inject_Z_plus.
        change (inject_Z (-1)) with (- (1)). lra.
      - rewrite inject_Z_plus. change (inject_Z 2) with 2. lra. }
    lia. }
  assert (Hbig : (4096 <= q)%Z -> (2049 <= raw)%Z).
  { intros Hq1.
    assert (4096 <= inject_Z q).
    { change 4096 with (inject_Z 4096). rewrite <- Zle_Qle. exact Hq1. }
    unfold raw. rewrite static_cast_int_floor by exact Hy0.
    change 2049%Z with (Qfloor 2049). apply Qfloor_resp_le. lra. }
  assert (Hw : (if ((if (raw >? 2048)%Z then 2048 else raw) <? 1)%Z then 1%Z
                else if (raw >? 2048)%Z then 2048%Z else raw)
               = Z.max 1 (Z.min 2048 raw)).
  { destruct (Z.gtb_spec raw 2048) as [Hgt | Hle]; [simpl; lia |].
    destruct (Z.ltb_spec raw 1) as [Hlt | Hge]; lia. }
  rewrite Hw. lia.
Qed.

End RecognitionInput.

(** X6 on a crop of 20 rows and 100 columns, on one of 19 rows and 95
    columns, whose width 239 is one below the quotient, and on one of 37
    rows and 37 columns. *)
Lemma recognition_input_width_witness :
  snd (@Ocr.PreprocessForRecognition Vectors.axis_aligned (Vectors.image 20 100))
  = 240%Z
  /\ snd (@Ocr.PreprocessForRecognition Vectors.axis_aligned (Vectors.image 19 95))
     = 239%Z
  /\ snd (@Ocr.PreprocessForRecognition Vectors.axis_aligned (Vectors.image 37 37))
     = 47%Z
  /\ (1 <= snd (@Ocr.PreprocessForRecognition Vectors.axis_aligned
                  (Vectors.image 1 100)) <= 2048)%Z.
Proof.
  split; [vm_compute; reflexivity |]. split; [vm_compute; reflexivity |].
  split; [vm_compute; reflexivity |].
  exact (proj1 (@recognition_input_width Vectors.axis_aligned (Vectors.image 1 100)
                  ltac:(simpl; lia) ltac:(simpl; lia))).
Defined.

(** ** Coordinates go back to where they came from *)

Lemma clamp_fixed (w u : float) (bound : Z) :
  w == u -> 0 <= u -> u <= inject_Z bound -> Ocr.clamp w bound == u.
Proof.
  intros E H0 H1. unfold Ocr.clamp, static_cast_float.
  destruct (min_cases w (inject_Z bound)) as [[? ->] | [? ->]].
  - destruct (max_cases 0 (inject_Z bound)) as [[? ->] | [? ->]]; lra.
  - destruct (max_cases 0 w) as [[? ->] | [? ->]]; lra.
Qed.

Lemma scale_cancel (u : float) (a b : Z) :
  (0 < a)%Z -> (0 < b)%Z ->
  u * (inject_Z a / inject_Z b) * (1 / (inject_Z a / inject_Z b)) == u
  /\ u * (inject_Z a / inject_Z b) / (inject_Z a / inject_Z b) == u.
Proof.
  intros Ha Hb. rewrite Zlt_Qlt in Ha, Hb. change (inject_Z 0) with 0 in Ha, Hb.
  split; field; split; lra.
Qed.

Lemma scale_cancel_pos (u s : float) : 0 < s -> u * s / s == u.
Proof. intros Hs. field. lra. Qed.

Section RoundTrips.

Context {m : LibM} {cv : OpenCV}.

(** X7.  Layout coordinates of the M variant.  When the coordinates of a
    row are those of a box inside the image multiplied by the scale factors
    that [preprocessImage] computed for the image, the Detection of the row
    carries the coordinates of that box: the inverse scaling of the M
    variant undoes the stretch to 640 x 640, and the clamp leaves the
    result as it is. *)
Theorem layout_inverse_scaling_round_trip (image : Mat) (out : list float) (i : Z)
    (u1 v1 u2 v2 : float) :
  (1 <= rows image)%Z -> (1 <= cols image)%Z ->
  (0 <= u1 /\ u1 <= inject_Z (cols image)) ->
  (0 <= v1 /\ v1 <= inject_Z (rows image)) ->
  (0 <= u2 /\ u2 <= inject_Z (cols image)) ->
  (0 <= v2 /\ v2 <= inject_Z (rows image)) ->
  at_ out (i * 6 + 2) == u1 * at_ (Layout.layout_scale image) 0 ->
  at_ out (i * 6 + 3) == v1 * at_ (Layout.layout_scale image) 1 ->
  at_ out (i * 6 + 4) == u2 * at_ (Layout.layout_scale image) 0 ->
  at_ out (i * 6 + 5) == v2 * at_ (Layout.layout_scale image) 1 ->
  let d :=
    Layout.clamp_box image
      (Layout.restore_box false (Layout.layout_scale image) out i) in
  Layout.x1 d == u1 /\ Layout.y1 d == v1
  /\ Layout.x2 d == u2 /\ Layout.y2 d == v2.
Proof.
  intros Hr Hc [A1 B1] [A2 B2] [A3 B3] [A4 B4] E1 E2 E3 E4 d.
  assert (S0 : at_ (Layout.layout_scale image) 0
               = inject_Z 640 / inject_Z (cols image)) by reflexivity.
  assert (S1 : at_ (Layout.layout_scale image) 1
               = inject_Z 640 / inject_Z (rows image)) by reflexivity.
  subst d.
  cbn [Layout.clamp_box Layout.restore_box Layout.x1 Layout.y1 Layout.x2 Layout.y2].
  unfold Layout.inv_scale. rewrite S0, S1 in *.
  repeat split; apply clamp_fixed; try assumption.
  - rewrite E1. apply scale_cancel; lia.
  - rewrite E2. apply scale_cancel; lia.
  - rewrite E3. apply scale_cancel; lia.
  - rewrite E4. apply scale_cancel; lia.
Qed.

(** X8.  Polygon coordinates of the DB decoder.  For an image of at least
    one row and one column on which [PreprocessForDetection] returns, a
    vertex that is a point inside the image multiplied by the two scale
    factors is mapped back to that point: the scale factors are positive,
    the division by them undoes the multiplication, and the clamp leaves
    the result as it is. *)
Theorem db_map_back_round_trip (image : Mat) (blob : list float)
    (new_h new_w : Z) (sx sy : float) (u v : float) :
  (1 <= rows image <= 16777216)%Z -> (1 <= cols image <= 16777216)%Z ->
  Ocr.PreprocessForDetection image = Returns (blob, new_h, new_w, sx, sy) ->
  (0 <= u /\ u <= inject_Z (cols image)) ->
  (0 <= v /\ v <= inject_Z (rows image)) ->
  let p :=
    Ocr.map_back sx sy (cols image) (rows image) {| px := u * sx; py := v * sy |} in
  (0 < sx /\ 0 < sy) /\ px p == u /\ py p == v.
Proof.
  intros Hr Hc Hcall [A1 B1] [A2 B2] p.
  destruct (PreprocessForDetection_returns image blob new_h new_w sx sy Hr Hc Hcall)
    as (_ & _ & Hsx & Hsy).
  split; [split; assumption |].
  subst p. unfold Ocr.map_back. cbn [px py].
  split; apply clamp_fixed; try assumption; apply scale_cancel_pos; assumption.
Qed.

End RoundTrips.

(** X7 on a 320 x 320 image, whose scale factors are 2: the row
    (20, 40, 100, 120) is the box (10, 20, 50, 60). *)
Lemma layout_inverse_scaling_round_trip_witness :
  let image := Vectors.image 320 320 in
  let out := [2; 9 # 10; 20; 40; 100; 120] in
  at_ out 2 == 10 * at_ (@Layout.layout_scale Vectors.axis_aligned image) 0
  /\ Layout.x1 (Layout.clamp_box image
                  (Layout.restore_box false
                     (@Layout.layout_scale Vectors.axis_aligned image) out 0)) == 10.
Proof.
  cbv zeta. split; [vm_compute; reflexivity |].
  refine (proj1 (@layout_inverse_scaling_round_trip Vectors.axis_aligned
                   (Vectors.image 320 320) [2; 9 # 10; 20; 40; 100; 120] 0
                   10 20 50 60 _ _ _ _ _ _ _ _ _ _));
    try (simpl; lia); try (split; vm_compute; discriminate);
    vm_compute; reflexivity.
Defined.

(** X8 on an image of 435 rows and 1856 columns, whose input is
    224 x 960. *)
Lemma db_map_back_round_trip_witness :
  exists blob sx sy,
    @Ocr.PreprocessForDetection Vectors.axis_aligned (Vectors.image 435 1856)
    = Returns (blob, 224%Z, 960%Z, sx, sy)
    /\ px (Ocr.map_back sx sy 1856 435 {| px := 1500 * sx; py := 50 * sy |}) == 1500.
Proof.
  destruct (@Ocr.PreprocessForDetection Vectors.axis_aligned (Vectors.image 435 1856))
    as [[[[[blob new_h] new_w] sx] sy] | e] eqn:Hcall;
    [| vm_compute in Hcall; discriminate Hcall].
  assert (Hsize : new_h = 224%Z /\ new_w = 960%Z).
  { vm_compute in Hcall. injection Hcall as _ <- <- _ _. split; reflexivity. }
  destruct Hsize as [-> ->]. exists blob, sx, sy. split; [reflexivity |].
  refine (proj1 (proj2 (@db_map_back_round_trip Vectors.axis_aligned
                          (Vectors.image 435 1856) blob 224 960 sx sy 1500 50
                          _ _ Hcall _ _)));
    try (simpl; lia); split; vm_compute; discriminate.
Defined.

(** ** Scores on the activation paths *)

Lemma minMaxLoc_fold_extremes (l : list float) (a b : float) :
  let r := fold_left (fun '(lo, hi) x => (std.min lo x, std.max hi x)) l (a, b) in
  (fst r <= a /\ b <= snd r)
  /\ forall v, In v l -> fst r <= v /\ v <= snd r.
Proof.
  revert a b. induction l as [| x l IH]; intros a b; simpl.
  - split; [split; lra | intros v []].
  - destruct (IH (std.min a x) (std.max b x)) as ([H1 H2] & H3).
    pose proof (min_le_l a x). pose proof (min_le_r a x).
    pose proof (max_ge_l b x). pose proof (max_ge_r b x).
    split; [split; lra |].
    intros v [<- | Hv]; [split; lra | apply H3, Hv].
Qed.

(** [cv::minMaxLoc] bounds every entry. *)
Lemma minMaxLoc_extremes (data : list float) (v : float) :
  In v data -> fst (cv.minMaxLoc data) <= v /\ v <= snd (cv.minMaxLoc data).
Proof.
  destruct data as [| x l]; [intros [] |]. unfold cv.minMaxLoc.
  destruct (minMaxLoc_fold_extremes l x x) as ([H1 H2] & H3).
  intros [<- | Hv]; [split; assumption | apply H3, Hv].
Qed.

Lemma sigmoid_unit (e : float) : 0 <= e -> Spec.unit_interval (1 / (1 + e)).
Proof.
  intros He. split.
  - apply Qle_shift_div_l; lra.
  - apply Qle_shift_div_r; lra.
Qed.

Lemma fold_left_Qplus_ge (l : list float) (a : float) :
  Forall (fun p => 0 <= p) l ->
  a <= fold_left Qplus l a /\ forall p, In p l -> a + p <= fold_left Qplus l a.
Proof.
  intros Hl. revert a. induction Hl as [| x l Hx _ IH]; intros a; simpl.
  - split; [lra | intros p []].
  - destruct (IH (a + x)) as [H1 H2]. split; [lra |].
    intros p [<- | Hp]; [exact H1 |]. specialize (H2 p Hp). lra.
Qed.

Lemma quotient_of_sum_unit (p s : float) :
  0 <= p -> p <= s -> Spec.unit_interval (p / s).
Proof.
  intros Hp Hps. destruct (Qeq_dec s 0) as [E | E].
  - assert (Hz : p / s == 0).
    { unfold Qdiv. rewrite E. unfold Qinv. simpl. ring. }
    split; rewrite Hz; lra.
  - assert (0 < s) by lra. split.
    + apply Qle_shift_div_l; lra.
    + apply Qle_shift_div_r; lra.
Qed.

Lemma nth_unit (l : list float) (k : nat) :
  Forall Spec.unit_interval l -> Spec.unit_interval (nth k l 0).
Proof.
  intros Hl. destruct (Nat.lt_ge_cases k (List.length l)) as [H | H].
  - apply (proj1 (Forall_forall _ _) Hl), nth_In, H.
  - rewrite nth_overflow by exact H. split; lra.
Qed.

Section Activations.

Context {m : LibM} {cv : OpenCV}.

Hypothesis exp_nonneg : forall x, 0 <= exp x.

Lemma softmax_unit (data : list float) (vocab_size t : Z) :
  Forall Spec.unit_interval (Ocr.timestep_probs true data vocab_size t).
Proof.
  unfold Ocr.timestep_probs.
  set (ps := map _ (range 0 vocab_size)).
  assert (Hps : Forall (fun p => 0 <= p) ps).
  { apply Forall_forall. intros p Hp. apply in_map_iff in Hp.
    destruct Hp as (v & <- & _). apply exp_nonneg. }
  apply Forall_forall. intros q Hq. apply in_map_iff in Hq.
  destruct Hq as (p & <- & Hp).
  destruct (fold_left_Qplus_ge ps 0 Hps) as [_ Hsum]. specialize (Hsum p Hp).
  apply quotient_of_sum_unit; [| lra].
  apply (proj1 (Forall_forall _ _) Hps), Hp.
Qed.

(** X9.  The sigmoid path of the DB decoder.  The decoder takes the model
    output as probabilities when all its values lie in [[-0.1, 1.1]], and
    applies the sigmoid to every value as soon as one value lies outside.
    In the second case the score of every returned box lies in [[0, 1]],
    for any exponential function that is never negative. *)
Theorem db_sigmoid_scores_are_probabilities (data : list float) (height width : Z)
    (sx sy : float) (ow oh : Z) (threshold box_threshold : float) :
  (Forall (fun v => - (1 # 10) <= v /\ v <= 11 # 10) data ->
   Ocr.db_prob_map data = data)
  /\ (Exists (fun v => v < - (1 # 10) \/ 11 # 10 < v) data ->
      Ocr.db_prob_map data = map (fun v => 1 / (1 + exp (- v))) data
      /\ forall b,
           In b (Ocr.DBPostProcess data height width sx sy ow oh
                   threshold box_threshold) ->
           Spec.unit_interval (Ocr.box_score b)).
Proof.
  split; [apply db_prob_map_probabilities |].
  intros Hout. apply Exists_exists in Hout. destruct Hout as (v & Hv & Hout).
  assert (Hmap : Ocr.db_prob_map data = map (fun v => 1 / (1 + exp (- v))) data).
  { unfold Ocr.db_prob_map. destruct (minMaxLoc_extremes data v Hv) as [Hlo Hhi].
    destruct (cv.minMaxLoc data) as [min_val max_val]. cbn [fst snd] in Hlo, Hhi.
    destruct Hout as [Hout | Hout].
    - replace (ltb min_val (- (1 # 10))) with true; [reflexivity |].
      symmetry. apply ltb_lt. lra.
    - replace (gtb max_val (11 # 10)) with true;
        [rewrite orb_true_r; reflexivity |].
      symmetry. apply gtb_lt. lra. }
  split; [exact Hmap |].
  intros b Hb. apply DBPostProcess_score in Hb. destruct Hb as (contour & -> & _).
  apply mean_unit. rewrite Hmap. apply Forall_forall. intros p Hp.
  apply in_map_iff in Hp. destruct Hp as (x & <- & _).
  apply sigmoid_unit, exp_nonneg.
Qed.

(** X10.  The softmax path of the CTC decoder.  When the test on the first
    timestep, with its sum and its two constants in single precision,
    selects the softmax, the confidence of the decoded text lies in
    [[0, 1]], for any exponential function that is never negative. *)
Theorem ctc_softmax_confidence_is_probability (dict : list string)
    (data : list float) (seq_len vocab_size : Z) :
  Ocr.need_softmax data vocab_size = true ->
  Spec.unit_interval (snd (Ocr.CTCDecode dict data seq_len vocab_size)).
Proof.
  intros Hsoft. apply CTCDecode_score_unit. intros t _.
  unfold Ocr.ctc_step_at. rewrite Hsoft.
  destruct (argmax_spec (Ocr.timestep_probs true data vocab_size t) vocab_size)
    as [-> _].
  apply nth_unit, softmax_unit.
Qed.

End Activations.

(** The stand-in for [std::exp] of the test vectors is never negative. *)
Lemma libm_exp_nonneg (x : float) : 0 <= @exp Vectors.libm x.
Proof.
  unfold exp, Vectors.libm. cmp x 0.
  - apply Qle_shift_div_l; lra.
  - lra.
Qed.

(** X9 on the 8 x 8 map with the logit 5 on the 4 x 4 block: the sigmoid
    is applied and the box of the block has a score in [[0, 1]]. *)
Lemma db_sigmoid_scores_are_probabilities_witness :
  Exists (fun v => v < - (1 # 10) \/ 11 # 10 < v) (Vectors.block_map 5)
  /\ exists b,
       In b (@Ocr.DBPostProcess Vectors.libm Vectors.axis_aligned
               (Vectors.block_map 5) 8 8 1 1 8 8 (3 # 5) (3 # 5))
       /\ Spec.unit_interval (Ocr.box_score b).
Proof.
  assert (Hout : Exists (fun v => v < - (1 # 10) \/ 11 # 10 < v) (Vectors.block_map 5)).
  { apply Exists_exists. exists 5. split; [| right; reflexivity].
    vm_compute. do 18 right. left. reflexivity. }
  split; [exact Hout |].
  set (l := @Ocr.DBPostProcess Vectors.libm Vectors.axis_aligned
              (Vectors.block_map 5) 8 8 1 1 8 8 (3 # 5) (3 # 5)).
  assert (Hl : exists b, In b l).
  { vm_compute. eexists. left. reflexivity. }
  destruct Hl as [b Hb]. exists b. split; [exact Hb |].
  exact (proj2 (proj2 (@db_sigmoid_scores_are_probabilities
                         Vectors.libm Vectors.axis_aligned libm_exp_nonneg
                         (Vectors.block_map 5) 8 8 1 1 8 8 (3 # 5) (3 # 5))
                  Hout) b Hb).
Defined.

(** X10 on two timesteps of logits over three classes, and at the boundary
    of the test: on a first timestep of [-0.001f] and [1.05f] the test does
    not select the softmax and the confidence is [1.05f]; with the first
    value one step lower it does, and the confidence is a probability. *)
Lemma ctc_softmax_confidence_is_probability_witness :
  let logits := [0; 5; -3; 4; 0; -2] in
  let at_bound := [fl32 (- (1 # 1000)); fl32 (21 # 20)] in
  let below := [fl32 (- (1 # 1000)) - exp2 (-33); fl32 (21 # 20)] in
  (@Ocr.need_softmax logits 3 = true
   /\ fst (@Ocr.CTCDecode Vectors.libm Vectors.dictionary logits 2 3) = "x"%string
   /\ Spec.unit_interval
        (snd (@Ocr.CTCDecode Vectors.libm Vectors.dictionary logits 2 3)))
  /\ (@Ocr.need_softmax at_bound 2 = false
      /\ 1 < snd (@Ocr.CTCDecode Vectors.libm Vectors.dictionary at_bound 1 2))
  /\ (@Ocr.need_softmax below 2 = true
      /\ Spec.unit_interval
           (snd (@Ocr.CTCDecode Vectors.libm Vectors.dictionary below 1 2))).
Proof.
  cbv zeta. split; [| split].
  - split; [vm_compute; reflexivity |].
    split; [vm_compute; reflexivity |].
    exact (@ctc_softmax_confidence_is_probability Vectors.libm libm_exp_nonneg
             Vectors.dictionary [0; 5; -3; 4; 0; -2] 2 3 eq_refl).
  - split; vm_compute; reflexivity.
  - assert (Hsoft : @Ocr.need_softmax
                      [fl32 (- (1 # 1000)) - exp2 (-33); fl32 (21 # 20)] 2 = true)
      by (vm_compute; reflexivity).
    split; [exact Hsoft |].
    exact (@ctc_softmax_confidence_is_probability Vectors.libm libm_exp_nonneg
             Vectors.dictionary _ 1 2 Hsoft).
Defined.

(** ** Degenerate decoder inputs *)

Lemma emitted_empty_dictionary prev steps : Spec.emitted [] prev steps = [].
Proof.
  revert prev. induction steps as [| [idx p] steps IH]; intros prev; simpl.
  - reflexivity.
  - replace (Spec.emits [] prev idx) with false; [apply IH |].
    unfold Spec.emits. simpl.
    destruct (0 <=? idx)%Z eqn:H0, (idx <? 0)%Z eqn:H1;
      rewrite ?andb_false_r; try reflexivity.
    apply Z.leb_le in H0. apply Z.ltb_lt in H1. lia.
Qed.

Lemma emitted_length dict prev steps :
  (List.length (Spec.emitted dict prev steps) <= List.length steps)%nat.
Proof.
  revert prev. induction steps as [| [idx p] steps IH]; intros prev; simpl.
  - lia.
  - destruct (Spec.emits dict prev idx); simpl; specialize (IH idx); lia.
Qed.

Section CtcDegenerate.

Context {m : LibM}.

Lemma CTCDecode_nothing_emitted dict data seq_len vocab_size :
  Spec.emitted dict (-1) (Ocr.ctc_steps data seq_len vocab_size) = [] ->
  Ocr.CTCDecode dict data seq_len vocab_size = (""%string, 0).
Proof.
  intros He.
  destruct (ctc_loop_spec dict data seq_len vocab_size) as (Hres & Hcnt & _).
  cbv zeta in Hres, Hcnt. rewrite He in Hres, Hcnt.
  unfold Ocr.CTCDecode. rewrite Hres, Hcnt. reflexivity.
Qed.

(** X11.  Degenerate inputs of the CTC decoder.  On an output of at least
    one timestep and one class, the decoder returns the empty text with
    confidence 0 when there is only one class or when the dictionary is
    empty, whatever the data; and in general it emits at most one token per
    timestep. *)
Theorem ctc_degenerate_inputs (dict : list string) (data : list float)
    (seq_len vocab_size : Z) :
  (1 <= seq_len)%Z -> (1 <= vocab_size)%Z ->
  (vocab_size = 1%Z \/ dict = [] ->
   Ocr.CTCDecode dict data seq_len vocab_size = (""%string, 0))
  /\ (0 <= Ocr.char_count (Ocr.ctc_loop dict data seq_len vocab_size)
      <= seq_len)%Z.
Proof.
  intros Hseq Hvocab. split.
  - intros [Hv | ->]; apply CTCDecode_nothing_emitted.
    + apply emitted_all_blank. intros s Hs. unfold Ocr.ctc_steps in Hs.
      apply in_map_iff in Hs. destruct Hs as (t & <- & _).
      destruct (argmax_spec
                  (Ocr.timestep_probs (Ocr.need_softmax data vocab_size)
                     data vocab_size t) vocab_size) as [_ [H | H]]; [exact H | lia].
    + apply emitted_empty_dictionary.
  - destruct (ctc_loop_spec dict data seq_len vocab_size) as (_ & Hcnt & _).
    cbv zeta in Hcnt. rewrite Hcnt.
    pose proof (emitted_length dict (-1) (Ocr.ctc_steps data seq_len vocab_size)) as Hl.
    unfold Ocr.ctc_steps in Hl at 2. rewrite length_map in Hl.
    unfold range in Hl. rewrite length_map, length_seq in Hl. lia.
Qed.

End CtcDegenerate.

(** X11 on an empty dictionary. *)
Lemma ctc_degenerate_inputs_witness :
  @Ocr.CTCDecode Vectors.libm [] (Vectors.one_hot 6 [5; 5; 0; 5]%nat) 4 6
  = (""%string, 0).
Proof.
  exact (proj1 (@ctc_degenerate_inputs Vectors.libm []
                  (Vectors.one_hot 6 [5; 5; 0; 5]%nat) 4 6 ltac:(lia) ltac:(lia))
           (or_intror eq_refl)).
Defined.

(** ** The comparator of the reading order *)

(** X12.  The comparator that sorts the boxes into reading order is
    asymmetric but not transitive, hence not a strict weak ordering: of
    three boxes whose heights are 8 apart and whose left edges go right to
    left, each comes before the next one around a cycle. *)
Theorem box_before_is_not_an_ordering :
  (forall a b, Ocr.box_before a b = true -> Ocr.box_before b a = false)
  /\ exists a b c,
       Ocr.box_before a b = true /\ Ocr.box_before b c = true
       /\ Ocr.box_before c a = true.
Proof.
  split.
  - intros a b. unfold Ocr.box_before.
    set (ay := (py (Ocr.pt a 0) + py (Ocr.pt a 1)) / 2).
    set (by_ := (py (Ocr.pt b 0) + py (Ocr.pt b 1)) / 2).
    assert (Habs : gtb (std.abs (by_ - ay)) 10 = gtb (std.abs (ay - by_)) 10).
    { unfold std.abs. cmp (by_ - ay) 0; cmp (ay - by_) 0.
      - lra.
      - destruct (gtb (- (by_ - ay)) 10) eqn:E1, (gtb (ay - by_) 10) eqn:E2;
          try reflexivity;
          [apply gtb_lt in E1; apply gtb_le in E2
          |apply gtb_le in E1; apply gtb_lt in E2]; lra.
      - destruct (gtb (by_ - ay) 10) eqn:E1, (gtb (- (ay - by_)) 10) eqn:E2;
          try reflexivity;
          [apply gtb_lt in E1; apply gtb_le in E2
          |apply gtb_le in E1; apply gtb_lt in E2]; lra.
      - destruct (gtb (by_ - ay) 10) eqn:E1, (gtb (ay - by_) 10) eqn:E2;
          try reflexivity;
          [apply gtb_lt in E1; apply gtb_le in E2
          |apply gtb_le in E1; apply gtb_lt in E2]; lra. }
    rewrite Habs. destruct (gtb (std.abs (ay - by_)) 10).
    + intros H. apply ltb_lt in H. apply ltb_ge. lra.
    + intros H. apply ltb_lt in H. apply ltb_ge. lra.
  - exists {| Ocr.points := [ {| px := 5; py := 0 |}; {| px := 45; py := 0 |};
                              {| px := 45; py := 6 |}; {| px := 5; py := 6 |} ];
              Ocr.box_score := 1 |}.
    exists {| Ocr.points := [ {| px := 1; py := 16 |}; {| px := 41; py := 16 |};
                              {| px := 41; py := 22 |}; {| px := 1; py := 22 |} ];
              Ocr.box_score := 1 |}.
    exists {| Ocr.points := [ {| px := 3; py := 8 |}; {| px := 43; py := 8 |};
                              {| px := 43; py := 14 |}; {| px := 3; py := 14 |} ];
              Ocr.box_score := 1 |}.
    repeat split; vm_compute; reflexivity.
Qed.

(** ** The life cycle of the layout session *)

Section LayoutLifecycle.

Context {cv : OpenCV}.

(** X13.  The layout session is created once.  Once a call has created
    the session, no later call loads a model: the result and the state do
    not depend on the session constructor, the state stays as it is, and a
    model path set afterwards is ignored.  Before that, on a non-empty
    image, a failing load gives the empty list and leaves the state as it
    was, so that the next call tries again, and a successful load stores
    the session and marks the detector as initialized. *)
Theorem layout_session_is_created_once (g : Layout.Globals) (image : Mat)
    (thr : float) :
  (Layout.g_initialized g = true ->
   forall ns1 ns2 path,
     Layout.detectDocLayout ns1 g image thr = Layout.detectDocLayout ns2 g image thr
     /\ snd (Layout.detectDocLayout ns1 g image thr) = g
     /\ fst (Layout.detectDocLayout ns1
               {| Layout.g_session := Layout.g_session g;
                  Layout.g_initialized := true;
                  Layout.MODEL_PATH := path |} image thr)
        = fst (Layout.detectDocLayout ns1 g image thr))
  /\ (Layout.g_initialized g = false -> Mat_empty image = false ->
      forall ns,
        (forall e, ns (Layout.MODEL_PATH g) = Throws e ->
           Layout.detectDocLayout ns g image thr = (Returns [], g))
        /\ (forall s, ns (Layout.MODEL_PATH g) = Returns s ->
              snd (Layout.detectDocLayout ns g image thr)
              = {| Layout.g_session := Some s;
                   Layout.g_initialized := true;
                   Layout.MODEL_PATH := Layout.MODEL_PATH g |})).
Proof.
  split.
  - intros Hinit ns1 ns2 path.
    unfold Layout.detectDocLayout, Layout.initOnnxSession.
    cbn [Layout.g_initialized Layout.g_session]. rewrite Hinit.
    destruct (Mat_empty image); repeat split; reflexivity.
  - intros Hinit Himg ns.
    unfold Layout.detectDocLayout, Layout.initOnnxSession.
    rewrite Hinit, Himg.
    split; [intros e -> | intros s ->]; reflexivity.
Qed.

End LayoutLifecycle.

(** X13 on a detector whose session exists: another constructor and
    another model path change nothing. *)
Lemma layout_session_is_created_once_witness :
  let output := {| shape := [1; 6]%Z; data := [2; 9 # 10; 10; 20; 50; 60] |} in
  let g := Vectors.ready_globals 2 output in
  Layout.g_initialized g = true
  /\ @Layout.detectDocLayout Vectors.axis_aligned (fun _ => Throws OrtException)
       g (Vectors.image 320 320) (1 # 2)
     = @Layout.detectDocLayout Vectors.axis_aligned (Vectors.new_Session 3 output)
         g (Vectors.image 320 320) (1 # 2).
Proof.
  cbv zeta. split; [reflexivity |].
  exact (proj1 (proj1 (@layout_session_is_created_once Vectors.axis_aligned
                         (Vectors.ready_globals 2
                            {| shape := [1; 6]%Z;
                               data := [2; 9 # 10; 10; 20; 50; 60] |})
                         (Vectors.image 320 320) (1 # 2))
                  eq_refl (fun _ => Throws OrtException)
                  (Vectors.new_Session 3
                     {| shape := [1; 6]%Z; data := [2; 9 # 10; 10; 20; 50; 60] |})
                  "other.onnx"%string)).
Defined.

(** ** The dictionary *)

Lemma list_ascii_of_string_app (a b : string) :
  list_ascii_of_string (a ++ b)
  = (list_ascii_of_string a ++ list_ascii_of_string b)%list.
Proof. induction a as [| c a IH]; simpl; [reflexivity | rewrite IH; reflexivity]. Qed.

Lemma length_zero_iff (s : string) : (String.length s =? 0)%nat = true <-> s = ""%string.
Proof.
  destruct s; simpl; split; intros H; try reflexivity; discriminate H.
Qed.

Lemma getlines_from_no_LF (content line l : string) :
  ~ In Dictionary.LF (list_ascii_of_string line) ->
  In l (Dictionary.getlines_from line content) ->
  ~ In Dictionary.LF (list_ascii_of_string l).
Proof.
  revert line. induction content as [| c rest IH]; intros line Hline; simpl.
  - destruct (String.length line =? 0)%nat; [intros [] | intros [<- | []]; exact Hline].
  - destruct (Ascii.eqb_spec c Dictionary.LF) as [-> | Hc].
    + intros [<- | Hl]; [exact Hline |].
      apply (IH ""%string); [intros [] | exact Hl].
    + apply IH. rewrite list_ascii_of_string_app, in_app_iff. simpl.
      intros [H | [H | []]]; [exact (Hline H) | exact (Hc H)].
Qed.

Lemma drop_while_incl (f : ascii -> bool) (l : list ascii) (x : ascii) :
  In x (Dictionary.drop_while f l) -> In x l.
Proof.
  induction l as [| c l IH]; simpl; [intros [] |].
  destruct (f c); [intros H; right; apply IH, H | intros H; exact H].
Qed.

Lemma drop_while_head (f : ascii -> bool) (l : list ascii) (c : ascii)
    (l' : list ascii) :
  Dictionary.drop_while f l = c :: l' -> f c = false.
Proof.
  induction l as [| x l IH]; simpl; [discriminate |].
  destruct (f x) eqn:Hx; [exact IH | intros [= <- _]; exact Hx].
Qed.

Lemma strip_eol_incl (line : string) (c : ascii) :
  In c (list_ascii_of_string (Dictionary.strip_eol line)) ->
  In c (list_ascii_of_string line).
Proof.
  unfold Dictionary.strip_eol. rewrite list_ascii_of_string_of_list_ascii.
  rewrite <- in_rev. intros H. apply drop_while_incl in H.
  rewrite <- in_rev in H. exact H.
Qed.

Lemma strip_eol_last (line s : string) (c : ascii) :
  Dictionary.strip_eol line = (s ++ String c "")%string ->
  Dictionary.is_eol c = false.
Proof.
  unfold Dictionary.strip_eol. intros H.
  apply (f_equal list_ascii_of_string) in H.
  rewrite list_ascii_of_string_of_list_ascii, list_ascii_of_string_app in H.
  apply (f_equal (@rev ascii)) in H. rewrite rev_involutive, rev_app_distr in H.
  simpl in H. exact (drop_while_head _ _ _ _ H).
Qed.

Lemma strip_eol_CR (line : string) :
  Dictionary.strip_eol (line ++ String Dictionary.CR "") = Dictionary.strip_eol line.
Proof.
  unfold Dictionary.strip_eol. rewrite list_ascii_of_string_app, rev_app_distr.
  reflexivity.
Qed.

Lemma entry_of_line_spec (line : string) :
  Dictionary.entry_of_line line <> ""%string
  /\ (forall c, In c (list_ascii_of_string (Dictionary.entry_of_line line)) ->
        c = " "%char \/ In c (list_ascii_of_string line))
  /\ (forall s c, Dictionary.entry_of_line line = (s ++ String c "")%string ->
        Dictionary.is_eol c = false).
Proof.
  unfold Dictionary.entry_of_line.
  destruct (String.length (Dictionary.strip_eol line) =? 0)%nat eqn:Hlen.
  - split; [discriminate |]. split.
    + intros c [<- | []]. left. reflexivity.
    + intros s c H. destruct s as [| c' s]; simpl in H.
      * injection H as <-. reflexivity.
      * injection H as _ H. destruct s; discriminate H.
  - split; [| split].
    + intros E. apply length_zero_iff in E. congruence.
    + intros c Hc. right. apply strip_eol_incl, Hc.
    + intros s c H. exact (strip_eol_last _ _ _ H).
Qed.

Lemma push_lines (lines acc : list string) :
  fold_left Dictionary.push_line lines acc
  = (acc ++ map Dictionary.entry_of_line lines)%list.
Proof.
  revert acc. induction lines as [| l lines IH]; intros acc; simpl.
  - rewrite app_nil_r. reflexivity.
  - rewrite IH. unfold Dictionary.push_line, Dictionary.entry_of_line.
    destruct (String.length (Dictionary.strip_eol l) =? 0)%nat;
      rewrite <- app_assoc; reflexivity.
Qed.

Lemma last_blank (l : list string) :
  last (""%string :: l) ""%string = last l ""%string.
Proof. destruct l; reflexivity. Qed.

Section DictionaryFacts.

Context {fs : FileSystem}.

Lemma LoadDictionary_entries (dict_path : string) (old : list string)
    (content : string) :
  ifstream dict_path = Some content ->
  let entries := map Dictionary.entry_of_line (Dictionary.getlines content) in
  Dictionary.LoadDictionary dict_path old
  = ([""%string] ++ entries
     ++ (if String.eqb (last entries ""%string) " " then [] else [" "%string])
     ++ [""%string])%list.
Proof.
  intros Hfile entries. unfold Dictionary.LoadDictionary. rewrite Hfile.
  rewrite push_lines. fold entries.
  change ([""%string] ++ entries)%list with (""%string :: entries).
  rewrite last_blank. cbn [orb].
  destruct (String.eqb (last entries ""%string) " "); cbn [negb app].
  - reflexivity.
  - change (""%string :: entries ++ [" "%string; ""%string])%list
      with ((""%string :: entries) ++ [" "%string] ++ [""%string])%list.
    rewrite app_assoc. reflexivity.
Qed.

(** No entry of a loaded dictionary holds a line feed. *)
Lemma LoadDictionary_no_LF (dict_path : string) (old : list string)
    (content e : string) :
  ifstream dict_path = Some content ->
  In e (Dictionary.LoadDictionary dict_path old) ->
  ~ In Dictionary.LF (list_ascii_of_string e).
Proof.
  intros Hfile. rewrite (LoadDictionary_entries _ old _ Hfile). cbv zeta.
  rewrite !in_app_iff. intros [He | [He | [He | He]]].
  - destruct He as [<- | []]. intros [].
  - apply in_map_iff in He. destruct He as (line & <- & Hline).
    destruct (entry_of_line_spec line) as (_ & Hincl & _).
    intros HLF. destruct (Hincl _ HLF) as [H | H]; [discriminate H |].
    exact (getlines_from_no_LF content ""%string line (fun x => x) Hline H).
  - destruct (String.eqb _ _); [destruct He |].
    destruct He as [<- | []]. intros [H | []]. discriminate H.
  - destruct He as [<- | []]. intros [].
Qed.

(** X14.  The dictionary that [LoadDictionary] builds from a file that
    opens.  Index 0 holds the empty entry of the blank; then comes one
    entry per line of the file, the line without its trailing carriage
    returns, an empty line being read as a space; then a space, unless the
    last line already gave one; then one more empty entry.  The entries of
    the lines are never empty, no entry ends in a carriage return or a line
    feed, no entry holds a line feed, and a line gives the same entry with
    and without a carriage return at its end. *)
Theorem LoadDictionary_structure (dict_path : string) (old : list string)
    (content : string) :
  ifstream dict_path = Some content ->
  let entries := map Dictionary.entry_of_line (Dictionary.getlines content) in
  let dict := Dictionary.LoadDictionary dict_path old in
  dict = ([""%string] ++ entries
          ++ (if String.eqb (last entries ""%string) " " then [] else [" "%string])
          ++ [""%string])%list
  /\ (forall e, In e entries -> e <> ""%string)
  /\ (forall e s c, In e dict -> e = (s ++ String c "")%string ->
        Dictionary.is_eol c = false)
  /\ (forall e, In e dict -> ~ In Dictionary.LF (list_ascii_of_string e))
  /\ (forall line,
        Dictionary.entry_of_line (line ++ String Dictionary.CR "")
        = Dictionary.entry_of_line line).
Proof.
  intros Hfile entries dict.
  pose proof (LoadDictionary_entries dict_path old content Hfile) as Heq.
  cbv zeta in Heq. fold entries in Heq. fold dict in Heq.
  split; [exact Heq |]. split; [| split; [| split]].
  - intros e He. apply in_map_iff in He. destruct He as (line & <- & _).
    apply entry_of_line_spec.
  - intros e s c He ->. rewrite Heq in He. rewrite !in_app_iff in He.
    assert (Hlit : forall t : string,
              (t = ""%string \/ t = " "%string) ->
              t = (s ++ String c "")%string -> Dictionary.is_eol c = false).
    { intros t [-> | ->] H.
      - destruct s; discriminate H.
      - destruct s as [| c' s]; simpl in H.
        + injection H as <-. reflexivity.
        + injection H as _ H. destruct s; discriminate H. }
    destruct He as [He | [He | [He | He]]].
    + destruct He as [He | []]. apply (Hlit ""%string); auto.
    + apply in_map_iff in He. destruct He as (line & He & _).
      destruct (entry_of_line_spec line) as (_ & _ & Hlast).
      exact (Hlast s c He).
    + destruct (String.eqb _ _); [destruct He |].
      destruct He as [He | []]. apply (Hlit " "%string); auto.
    + destruct He as [He | []]. apply (Hlit ""%string); auto.
  - intros e He. exact (LoadDictionary_no_LF dict_path old content e Hfile He).
  - intros line. unfold Dictionary.entry_of_line. rewrite strip_eol_CR. reflexivity.
Qed.

End DictionaryFacts.

(** X14 on a file of four lines, one of them with a carriage return and one
    of them empty. *)
Lemma LoadDictionary_structure_witness :
  @ifstream Fixtures.files "dict.txt" = Some Fixtures.dict_txt
  /\ @Dictionary.LoadDictionary Fixtures.files "dict.txt" []
     = [""; "a"; "b"; " "; "c"; " "; ""]%string.
Proof.
  split; [reflexivity |].
  rewrite (proj1 (@LoadDictionary_structure Fixtures.files "dict.txt" []
                    Fixtures.dict_txt eq_refl)).
  vm_compute. reflexivity.
Defined.

(** ** The life cycle of the OCR engine *)

Section EngineLifecycle.

Context {m : LibM} {cv : OpenCV} {fs : FileSystem}.

(** An engine that is not initialized answers every call with nothing. *)
Lemma uninitialized_engine_is_silent (eng : Ocr.OcrEngine) :
  Ocr.initialized_ eng = false ->
  forall image det_threshold rec_threshold region,
    Ocr.RecognizeText eng image det_threshold rec_threshold = Returns []
    /\ Ocr.DetectText eng image det_threshold = Returns []
    /\ Ocr.RecognizeRegion eng region = Returns (""%string, 0).
Proof.
  intros Hinit image dt rt region.
  unfold Ocr.RecognizeText, Ocr.DetectText, Ocr.RecognizeRegion.
  rewrite Hinit. repeat split; reflexivity.
Qed.

(** With an empty dictionary the recognition of a region gives no text. *)
Lemma RecognizeRegion_empty_dictionary (eng : Ocr.OcrEngine) (region : Mat) :
  Ocr.dictionary_ eng = [] ->
  Ocr.RecognizeRegion eng region = Returns (""%string, 0).
Proof.
  intros Hdict. unfold Ocr.RecognizeRegion.
  destruct (Ocr.initialized_ eng); [| reflexivity].
  destruct (Ocr.rec_session_ eng) as [session |]; [| reflexivity].
  destruct (Mat_empty region); [reflexivity |].
  destruct (Ocr.PreprocessForRecognition region) as [blob width].
  destruct (Run session _) as [outputs | e]; simpl; [| reflexivity].
  rewrite Hdict. f_equal.
  apply CTCDecode_nothing_emitted, emitted_empty_dictionary.
Qed.

(** X15.  The life cycle of the engine.  [Init] returns normally exactly
    when the engine is initialized afterwards.  An initialized engine
    ignores every further [Init], whatever the paths.  An [Init] that
    starts from an engine that is not initialized loads the dictionary
    first and then the two models; when a model fails to load, the
    exception leaves the engine not initialized, with the dictionary
    already replaced.  An engine that is not initialized answers
    [RecognizeText] and [DetectText] with the empty list and
    [RecognizeRegion] with the empty text and score 0.  After [Release] the
    engine is as in a fresh process. *)
Theorem engine_life_cycle (ns : string -> outcome Session) (eng : Ocr.OcrEngine)
    (det_path rec_path dict_path : string) (r : outcome unit)
    (eng' : Ocr.OcrEngine) :
  Lifecycle.Init ns eng det_path rec_path dict_path = (r, eng') ->
  (r = Returns tt <-> Ocr.initialized_ eng' = true)
  /\ (Ocr.initialized_ eng' = true ->
      forall ns' p1 p2 p3, Lifecycle.Init ns' eng' p1 p2 p3 = (Returns tt, eng'))
  /\ (Ocr.initialized_ eng = false ->
      Ocr.dictionary_ eng'
      = Dictionary.LoadDictionary dict_path (Ocr.dictionary_ eng)
      /\ (r = Returns tt ->
          exists det rec,
            ns det_path = Returns det /\ ns rec_path = Returns rec
            /\ Ocr.det_session_ eng' = Some det
            /\ Ocr.rec_session_ eng' = Some rec)
      /\ (forall e, r = Throws e ->
            ns det_path = Throws e
            \/ (exists det, ns det_path = Returns det /\ ns rec_path = Throws e)))
  /\ (Ocr.initialized_ eng' = false ->
      forall image det_threshold rec_threshold region,
        Ocr.RecognizeText eng' image det_threshold rec_threshold = Returns []
        /\ Ocr.DetectText eng' image det_threshold = Returns []
        /\ Ocr.RecognizeRegion eng' region = Returns (""%string, 0))
  /\ (Lifecycle.Release eng' = Lifecycle.fresh
      /\ forall ns' p1 p2 p3,
           Lifecycle.Init ns' (Lifecycle.Release eng') p1 p2 p3
           = Lifecycle.Init ns' Lifecycle.fresh p1 p2 p3).
Proof.
  intros Hinit.
  split; [| split; [| split; [| split]]].
  - unfold Lifecycle.Init in Hinit.
    destruct (Ocr.initialized_ eng) eqn:Hi.
    + injection Hinit as <- <-. split; auto.
    + destruct (ns det_path) as [det | e];
        [destruct (ns rec_path) as [rec | e] |];
        injection Hinit as <- <-; cbn [Ocr.initialized_];
        split; intros H; try reflexivity; discriminate H.
  - intros Hi ns' p1 p2 p3. unfold Lifecycle.Init. rewrite Hi. reflexivity.
  - intros Hi. unfold Lifecycle.Init in Hinit. rewrite Hi in Hinit.
    destruct (ns det_path) as [det | e] eqn:Hdet;
      [destruct (ns rec_path) as [rec | e] eqn:Hrec |];
      injection Hinit as <- <-; cbn [Ocr.dictionary_ Ocr.det_session_ Ocr.rec_session_];
      (split; [reflexivity |]); split.
    + intros _. exists det, rec. auto.
    + intros e H. discriminate H.
    + intros H. discriminate H.
    + intros e' [= <-]. right. exists det. auto.
    + intros H. discriminate H.
    + intros e' [= <-]. left. reflexivity.
  - intros Hi. apply uninitialized_engine_is_silent, Hi.
  - split; reflexivity.
Qed.

(** X16.  A dictionary file that cannot be opened.  [Init] on a fresh or
    released engine does not fail when the dictionary file cannot be
    opened: the engine is initialized with an empty dictionary.  From then
    on the recognition of any region gives the empty text with score 0, and
    every [RecognizeText] that returns, returns no line. *)
Theorem missing_dictionary_disables_recognition (ns : string -> outcome Session)
    (eng : Ocr.OcrEngine) (det_path rec_path dict_path : string)
    (eng' : Ocr.OcrEngine) :
  Ocr.initialized_ eng = false -> Ocr.dictionary_ eng = [] ->
  ifstream dict_path = None ->
  Lifecycle.Init ns eng det_path rec_path dict_path = (Returns tt, eng') ->
  Ocr.initialized_ eng' = true
  /\ Ocr.dictionary_ eng' = []
  /\ (forall region, Ocr.RecognizeRegion eng' region = Returns (""%string, 0))
  /\ (forall image det_threshold rec_threshold rs,
        Ocr.RecognizeText eng' image det_threshold rec_threshold = Returns rs ->
        rs = []).
Proof.
  intros Hi Hd Hfile Hinit.
  assert (Hdict : Ocr.dictionary_ eng' = [] /\ Ocr.initialized_ eng' = true).
  { unfold Lifecycle.Init in Hinit. rewrite Hi in Hinit.
    unfold Dictionary.LoadDictionary in Hinit. rewrite Hfile, Hd in Hinit.
    destruct (ns det_path) as [det | e];
      [destruct (ns rec_path) as [rec | e] |];
      try discriminate Hinit.
    injection Hinit as <-. auto. }
  destruct Hdict as [Hdict Hready].
  split; [exact Hready |]. split; [exact Hdict |]. split.
  - intros region. apply RecognizeRegion_empty_dictionary, Hdict.
  - intros image dt rt rs Hcall. apply RecognizeText_spec in Hcall.
    destruct Hcall as (boxes & _ & ->). apply flat_map_nil.
    intros box _. unfold Ocr.box_lines.
    destruct (Ocr.CropTextRegion image box) as [region | e]; [| reflexivity].
    destruct (Mat_empty region); [reflexivity |].
    rewrite (RecognizeRegion_empty_dictionary eng' region Hdict). reflexivity.
Qed.

End EngineLifecycle.

(** X15 on a fresh engine: the first [Init] initializes it, and a second
    one with a failing constructor and other paths changes nothing. *)
Lemma engine_life_cycle_witness :
  let ns := Vectors.new_Session 1 {| shape := [1; 2; 6]%Z; data := [] |} in
  exists eng',
    @Lifecycle.Init Fixtures.files ns Lifecycle.fresh "det.onnx" "rec.onnx" "dict.txt"
    = (Returns tt, eng')
    /\ Ocr.initialized_ eng' = true
    /\ @Lifecycle.Init Fixtures.files (fun _ => Throws OrtException) eng'
         "other.onnx" "other.onnx" "missing.txt"
       = (Returns tt, eng').
Proof.
  cbv zeta. eexists. split; [reflexivity |].
  match goal with
  | |- Ocr.initialized_ ?e = true /\ _ =>
      destruct (@engine_life_cycle Vectors.libm Vectors.axis_aligned Fixtures.files
                  (Vectors.new_Session 1 {| shape := [1; 2; 6]%Z; data := [] |})
                  Lifecycle.fresh "det.onnx" "rec.onnx" "dict.txt" (Returns tt) e
                  eq_refl) as (Hready & Hagain & _)
  end.
  split; [apply Hready; reflexivity |].
  apply Hagain, Hready. reflexivity.
Defined.

(** X16 on a fresh engine and a dictionary path that does not open. *)
Lemma missing_dictionary_disables_recognition_witness :
  let ns := Vectors.new_Session 1
              {| shape := [1; 2; 6]%Z; data := Vectors.one_hot 6 [5; 1]%nat |} in
  @ifstream Fixtures.files "missing.txt" = None
  /\ exists eng',
       @Lifecycle.Init Fixtures.files ns Lifecycle.fresh "det.onnx" "rec.onnx"
         "missing.txt" = (Returns tt, eng')
       /\ Ocr.dictionary_ eng' = []
       /\ @Ocr.RecognizeRegion Vectors.libm Vectors.axis_aligned eng'
            (Vectors.image 48 100) = Returns (""%string, 0).
Proof.
  cbv zeta. split; [reflexivity |]. eexists. split; [reflexivity |].
  match goal with
  | |- Ocr.dictionary_ ?e = [] /\ _ =>
      destruct (@missing_dictionary_disables_recognition
                  Vectors.libm Vectors.axis_aligned Fixtures.files
                  (Vectors.new_Session 1
                     {| shape := [1; 2; 6]%Z; data := Vectors.one_hot 6 [5; 1]%nat |})
                  Lifecycle.fresh "det.onnx" "rec.onnx" "missing.txt" e
                  eq_refl eq_refl eq_refl eq_refl) as (_ & Hd & Hr & _)
  end.
  split; [exact Hd | apply Hr].
Defined.

(** ** Joining with a separator *)

(** The loop that writes every element and a separator after each but the
    last is the join of the elements. *)
Lemma join_loop_from {A} (f : A -> string) (d : A) (sep : string)
    (l1 l2 : list A) (acc : string) :
  fold_left
    (fun acc i =>
       if (i <? Z.of_nat (List.length (l1 ++ l2)) - 1)%Z
       then ((acc ++ f (nth (Z.to_nat i) (l1 ++ l2) d)) ++ sep)%string
       else (acc ++ f (nth (Z.to_nat i) (l1 ++ l2) d))%string)
    (map (fun k => (0 + Z.of_nat k)%Z) (seq (List.length l1) (List.length l2))) acc
  = (acc ++ String.concat sep (map f l2))%string.
Proof.
  revert l1 acc. induction l2 as [| x l2 IH]; intros l1 acc.
  - simpl. rewrite append_nil_r. reflexivity.
  - cbn [List.length seq map fold_left].
    replace (Z.to_nat (0 + Z.of_nat (List.length l1))) with (List.length l1) by lia.
    rewrite nth_middle.
    replace (l1 ++ x :: l2)%list with ((l1 ++ [x]) ++ l2)%list
      by (rewrite <- app_assoc; reflexivity).
    replace (S (List.length l1)) with (List.length (l1 ++ [x])%list)
      by (rewrite length_app; simpl; lia).
    rewrite IH.
    rewrite !length_app. cbn [List.length].
    destruct l2 as [| y l2].
    + replace (_ <? _)%Z with false by (symmetry; apply Z.ltb_ge; simpl; lia).
      simpl. rewrite append_nil_r. reflexivity.
    + replace (_ <? _)%Z with true
        by (symmetry; apply Z.ltb_lt; cbn [List.length]; lia).
      cbn [map String.concat]. rewrite !append_assoc. reflexivity.
Qed.

Lemma join_loop {A} (f : A -> string) (d : A) (sep : string) (l : list A) :
  fold_left
    (fun acc i =>
       if (i <? Z.of_nat (List.length l) - 1)%Z
       then ((acc ++ f (nth (Z.to_nat i) l d)) ++ sep)%string
       else (acc ++ f (nth (Z.to_nat i) l d))%string)
    (range 0 (Z.of_nat (List.length l))) ""%string
  = String.concat sep (map f l).
Proof.
  unfold range. rewrite Z.sub_0_r, Nat2Z.id.
  exact (join_loop_from f d sep [] l ""%string).
Qed.

(** ** The full text *)

Lemma getlines_from_app (t line rest : string) :
  ~ In Dictionary.LF (list_ascii_of_string t) ->
  Dictionary.getlines_from line (t ++ rest)
  = Dictionary.getlines_from (line ++ t) rest.
Proof.
  revert line. induction t as [| c t IH]; intros line Ht.
  - rewrite append_nil_r. reflexivity.
  - cbn [append Dictionary.getlines_from].
    destruct (Ascii.eqb_spec c Dictionary.LF) as [-> | Hc].
    + exfalso. apply Ht. left. reflexivity.
    + rewrite IH by (intros H; apply Ht; right; exact H).
      rewrite append_assoc. reflexivity.
Qed.

Lemma getlines_concat (ts : list string) :
  (forall t, In t ts ->
     t <> ""%string /\ ~ In Dictionary.LF (list_ascii_of_string t)) ->
  Dictionary.getlines (String.concat (String Dictionary.LF "") ts) = ts.
Proof.
  unfold Dictionary.getlines.
  induction ts as [| t ts IH]; intros H; [reflexivity |].
  destruct (H t (or_introl eq_refl)) as [Hne HLF].
  destruct ts as [| u ts].
  - cbn [String.concat]. rewrite <- (append_nil_r t) at 1.
    rewrite getlines_from_app by exact HLF. cbn [append Dictionary.getlines_from].
    destruct (String.length t =? 0)%nat eqn:E; [| reflexivity].
    apply length_zero_iff in E. congruence.
  - cbn [String.concat]. rewrite getlines_from_app by exact HLF.
    cbn [append Dictionary.getlines_from].
    replace (Ascii.eqb Dictionary.LF Dictionary.LF) with true by reflexivity.
    f_equal. apply IH. intros t' Ht'. apply H. right. exact Ht'.
Qed.

(** X17.  The full text.  [getFullText] is the texts of the lines joined
    by line feeds, without a line feed at the end; when no text is empty or
    holds a line feed, reading the full text line by line gives the texts
    back, one per line. *)
Theorem getFullText_joins_the_lines (results : list Ocr.TextLineResult) :
  Json.getFullText results
  = String.concat (String Dictionary.LF "") (map Ocr.text results)
  /\ ((forall r, In r results ->
         Ocr.text r <> ""%string
         /\ ~ In Dictionary.LF (list_ascii_of_string (Ocr.text r))) ->
      Dictionary.getlines (Json.getFullText results) = map Ocr.text results).
Proof.
  assert (Hjoin : Json.getFullText results
                  = String.concat (String Dictionary.LF "") (map Ocr.text results)).
  { exact (join_loop Ocr.text Json.TextLineResult_default
             (String Dictionary.LF "") results). }
  split; [exact Hjoin |].
  intros H. rewrite Hjoin. apply getlines_concat.
  intros t Ht. apply in_map_iff in Ht. destruct Ht as (r & <- & Hr). apply H, Hr.
Qed.

Lemma tokens_no_LF (dict : list string) (es : list (Z * float)) :
  (forall e, In e dict -> ~ In Dictionary.LF (list_ascii_of_string e)) ->
  ~ In Dictionary.LF (list_ascii_of_string (Spec.tokens dict es)).
Proof.
  intros Hdict. induction es as [| e es IH]; simpl; [intros [] |].
  rewrite list_ascii_of_string_app, in_app_iff. intros [H | H]; [| exact (IH H)].
  destruct (nth_in_or_default (Z.to_nat (fst e)) dict ""%string) as [Hin | Hdef].
  - exact (Hdict _ Hin H).
  - rewrite Hdef in H. destruct H.
Qed.

Section FullText.

Context {m : LibM} {cv : OpenCV} {fs : FileSystem}.

(** What [RecognizeRegion] returns: nothing, or what the decoder makes of
    the output of the recognition model. *)
Lemma RecognizeRegion_cases (eng : Ocr.OcrEngine) (region : Mat) (r : string * float) :
  Ocr.RecognizeRegion eng region = Returns r ->
  r = (""%string, 0)
  \/ exists data seq_len vocab_size,
       r = Ocr.CTCDecode (Ocr.dictionary_ eng) data seq_len vocab_size.
Proof.
  unfold Ocr.RecognizeRegion.
  destruct (Ocr.initialized_ eng); [| intros [= <-]; auto].
  destruct (Ocr.rec_session_ eng) as [session |]; [| intros [= <-]; auto].
  destruct (Mat_empty region); [intros [= <-]; auto |].
  destruct (Ocr.PreprocessForRecognition region) as [blob width].
  destruct (Run session _) as [outputs | e]; simpl; intros [= <-]; [| auto].
  right. eauto.
Qed.

(** The texts of the recognized lines are made of dictionary entries. *)
Lemma RecognizeText_texts (eng : Ocr.OcrEngine) (image : Mat)
    (det_threshold rec_threshold : float) (rs : list Ocr.TextLineResult) :
  (forall e, In e (Ocr.dictionary_ eng) ->
     ~ In Dictionary.LF (list_ascii_of_string e)) ->
  Ocr.RecognizeText eng image det_threshold rec_threshold = Returns rs ->
  forall r, In r rs ->
    Ocr.text r <> ""%string
    /\ ~ In Dictionary.LF (list_ascii_of_string (Ocr.text r)).
Proof.
  intros Hdict Hcall r Hr. apply RecognizeText_spec in Hcall.
  destruct Hcall as (boxes & _ & ->). apply in_flat_map in Hr.
  destruct Hr as (box & _ & Hr). apply in_box_lines in Hr.
  destruct Hr as (region & _ & _ & Hrec & Hne & _).
  split; [exact Hne |].
  apply RecognizeRegion_cases in Hrec.
  destruct Hrec as [[= Ht _] | (data & seq_len & vocab_size & Hrec)];
    [congruence |].
  apply (f_equal fst) in Hrec. cbn [fst] in Hrec. rewrite Hrec.
  unfold Ocr.CTCDecode. cbn [fst].
  destruct (ctc_loop_spec (Ocr.dictionary_ eng) data seq_len vocab_size) as (-> & _).
  apply tokens_no_LF, Hdict.
Qed.

(** X18.  One line of full text per recognized line.  For an engine that
    [Init] has initialized from a fresh state, whatever the dictionary
    file holds, every recognized line has a text that is not empty and
    holds no line feed; hence reading the full text of the lines of
    [RecognizeText] line by line gives exactly their texts, in order. *)
Theorem full_text_has_one_line_per_result (ns : string -> outcome Session)
    (det_path rec_path dict_path : string) (eng' : Ocr.OcrEngine)
    (image : Mat) (det_threshold rec_threshold : float)
    (rs : list Ocr.TextLineResult) :
  Lifecycle.Init ns Lifecycle.fresh det_path rec_path dict_path = (Returns tt, eng') ->
  Ocr.RecognizeText eng' image det_threshold rec_threshold = Returns rs ->
  (forall r, In r rs ->
     Ocr.text r <> ""%string
     /\ ~ In Dictionary.LF (list_ascii_of_string (Ocr.text r)))
  /\ Dictionary.getlines (Json.getFullText rs) = map Ocr.text rs.
Proof.
  intros Hinit Hcall.
  assert (Hdict : forall e, In e (Ocr.dictionary_ eng') ->
                    ~ In Dictionary.LF (list_ascii_of_string e)).
  { unfold Lifecycle.Init in Hinit. cbn [Lifecycle.fresh Ocr.initialized_] in Hinit.
    destruct (ns det_path) as [det | e];
      [destruct (ns rec_path) as [rec | e] |];
      try discriminate Hinit.
    injection Hinit as <-. cbn [Ocr.dictionary_].
    destruct (ifstream dict_path) as [content |] eqn:Hfile.
    - intros e He. exact (LoadDictionary_no_LF dict_path [] content e Hfile He).
    - unfold Dictionary.LoadDictionary. rewrite Hfile. intros e []. }
  pose proof (RecognizeText_texts eng' image det_threshold rec_threshold rs
                Hdict Hcall) as Htexts.
  split; [exact Htexts |].
  assert (Hjoin : Json.getFullText rs
                  = String.concat (String Dictionary.LF "") (map Ocr.text rs)).
  { exact (join_loop Ocr.text Json.TextLineResult_default
             (String Dictionary.LF "") rs). }
  rewrite Hjoin. apply getlines_concat.
  intros t Ht. apply in_map_iff in Ht. destruct Ht as (r & <- & Hr).
  apply Htexts, Hr.
Qed.

End FullText.

(** X17 on two lines. *)
Lemma getFullText_joins_the_lines_witness :
  let results := [Fixtures.line "ab" 1; Fixtures.line "c d" 1] in
  Dictionary.getlines (Json.getFullText results) = ["ab"; "c d"]%string.
Proof.
  cbv zeta.
  apply (proj2 (getFullText_joins_the_lines
                  [Fixtures.line "ab" 1; Fixtures.line "c d" 1])).
  intros r [<- | [<- | []]]; (split; [discriminate |]); vm_compute;
    intuition discriminate.
Defined.

(** X18 on the dictionary file of the test vectors and models that see
    one block reading ["abc"]. *)
Lemma full_text_has_one_line_per_result_witness :
  let ns := Fixtures.new_Session Fixtures.det_output Fixtures.rec_output in
  exists eng' r,
    @Lifecycle.Init Fixtures.files ns Lifecycle.fresh "det.onnx" "rec.onnx" "dict.txt"
    = (Returns tt, eng')
    /\ @Ocr.RecognizeText Vectors.libm Vectors.axis_aligned eng' (Vectors.image 8 8)
         (1 # 2) (1 # 2) = Returns [r]
    /\ Ocr.text r = "abc"%string
    /\ Dictionary.getlines (Json.getFullText [r]) = [Ocr.text r].
Proof.
  cbv zeta.
  destruct (@Lifecycle.Init Fixtures.files
              (Fixtures.new_Session Fixtures.det_output Fixtures.rec_output)
              Lifecycle.fresh "det.onnx" "rec.onnx" "dict.txt") as [o eng'] eqn:Hinit.
  assert (Ho : o = Returns tt) by (vm_compute in Hinit; congruence).
  subst o. exists eng'.
  destruct (@Ocr.RecognizeText Vectors.libm Vectors.axis_aligned eng'
              (Vectors.image 8 8) (1 # 2) (1 # 2)) as [rs | e] eqn:Hcall.
  - assert (Hrs : exists r, rs = [r] /\ Ocr.text r = "abc"%string).
    { vm_compute in Hinit. injection Hinit as <-.
      vm_compute in Hcall. injection Hcall as <-. eexists. split; reflexivity. }
    destruct Hrs as (r & -> & Htext). exists r.
    split; [reflexivity |]. split; [reflexivity |]. split; [exact Htext |].
    exact (proj2 (@full_text_has_one_line_per_result
                    Vectors.libm Vectors.axis_aligned Fixtures.files
                    (Fixtures.new_Session Fixtures.det_output Fixtures.rec_output)
                    "det.onnx" "rec.onnx" "dict.txt" eng' (Vectors.image 8 8)
                    (1 # 2) (1 # 2) [r] Hinit Hcall)).
  - exfalso. vm_compute in Hinit. injection Hinit as <-.
    vm_compute in Hcall. discriminate Hcall.
Defined.

(** ** The JSON documents *)

(** One escaped character, read back. *)
Lemma unescape_escape_char (c : ascii) (rest : string) :
  JsonGrammar.unescape (Json.escape_char c ++ rest)
  = if JsonGrammar.control c && negb (JsonGrammar.escaped c) then None
    else option_map (String c) (JsonGrammar.unescape rest).
Proof.
  destruct c as [[] [] [] [] [] [] [] []]; reflexivity.
Qed.

(** X19.  Escaping of a text.  What [ocrResultsToJson] and the entry
    points of the native library write between the quotes of a text reads
    back as the text, when every control character of the text is a line
    feed, a carriage return or a tab; any other control character is
    copied as it is, and what is written is then not the content of a JSON
    string. *)
Theorem escaped_text_reads_back (text : string) :
  ((forall c, In c (list_ascii_of_string text) ->
      JsonGrammar.control c = true -> JsonGrammar.escaped c = true) ->
   JsonGrammar.unescape (Json.escape text) = Some text)
  /\ ((exists c, In c (list_ascii_of_string text)
                 /\ JsonGrammar.control c = true /\ JsonGrammar.escaped c = false) ->
      JsonGrammar.unescape (Json.escape text) = None).
Proof.
  split.
  - induction text as [| c text IH]; intros H; [reflexivity |].
    cbn [Json.escape]. rewrite unescape_escape_char.
    rewrite IH by (intros c' Hc'; apply H; right; exact Hc').
    destruct (JsonGrammar.control c) eqn:Hc; [| reflexivity].
    rewrite (H c (or_introl eq_refl) Hc). reflexivity.
  - induction text as [| c text IH]; intros (x & Hx & Hctl & Hesc); [destruct Hx |].
    cbn [Json.escape]. rewrite unescape_escape_char.
    destruct Hx as [-> | Hx].
    + rewrite Hctl, Hesc. reflexivity.
    + rewrite IH by (exists x; auto).
      destruct (JsonGrammar.control c && negb (JsonGrammar.escaped c)); reflexivity.
Qed.

(** X19 on a text with a quote, a backslash and a line feed, and on a text
    with a backspace. *)
Lemma escaped_text_reads_back_witness :
  let text := String "a" (String Json.DQUOTE (String Json.BACKSLASH
                (String Dictionary.LF (String "b" EmptyString)))) in
  let bad := String "a" (String "008"%char EmptyString) in
  String.length (Json.escape text) = 8%nat
  /\ JsonGrammar.unescape (Json.escape text) = Some text
  /\ JsonGrammar.unescape (Json.escape bad) = None.
Proof.
  cbv zeta. split; [reflexivity |]. split.
  - apply (proj1 (escaped_text_reads_back _)).
    intros c Hc Hctl. simpl in Hc.
    destruct Hc as [<- | [<- | [<- | [<- | [<- | []]]]]];
      try reflexivity; discriminate Hctl.
  - apply (proj2 (escaped_text_reads_back _)).
    exists "008"%char. split; [right; left; reflexivity | split; reflexivity].
Defined.

Section Documents.

Context {io : IoStream}.

Lemma ocr_objects_join (results : list Ocr.TextLineResult) :
  Json.ocr_objects results = String.concat "," (map Json.ocr_object results).
Proof.
  exact (join_loop Json.ocr_object Json.TextLineResult_default "," results).
Qed.

Lemma detection_objects_join (detections : list Layout.DetectionBox) :
  Json.detection_objects detections
  = String.concat "," (map Json.detection_object detections).
Proof.
  exact (join_loop Json.detection_object Json.DetectionBox_default "," detections).
Qed.

(** X20.  The documents.  The array that [ocrResultsToJson] and
    [detectionsToJson] write holds one object per element, in order,
    separated by commas, with no comma after the last, and the count that
    follows is the number of elements.  The documents that the entry points
    of the native library build themselves are these documents with the
    three fields of the timing and the image size put before the closing
    brace. *)
Theorem json_documents (results : list Ocr.TextLineResult)
    (detections : list Layout.DetectionBox) (inference_time : Z) (image : Mat) :
  let ocr_body :=
    ("{" ++ Json.key "results" ++ "["
     ++ String.concat "," (map Json.ocr_object results)
     ++ "]," ++ Json.key "count"
     ++ Json.decimal (Z.of_nat (List.length results)))%string in
  let layout_body :=
    ("{" ++ Json.key "detections" ++ "["
     ++ String.concat "," (map Json.detection_object detections)
     ++ "]," ++ Json.key "count"
     ++ Json.decimal (Z.of_nat (List.length detections)))%string in
  let fields :=
    Json.timing_fields inference_time (cols image) (rows image) in
  Json.ocrResultsToJson results = (ocr_body ++ "}")%string
  /\ Json.ocr_json results inference_time image
     = (ocr_body ++ "," ++ fields ++ "}")%string
  /\ Json.detectionsToJson detections = (layout_body ++ "}")%string
  /\ Json.layout_json detections inference_time image
     = (layout_body ++ "," ++ fields ++ "}")%string.
Proof.
  cbv zeta.
  unfold Json.ocrResultsToJson, Json.ocr_json, Json.detectionsToJson,
    Json.layout_json.
  rewrite ocr_objects_join, detection_objects_join.
  repeat split; repeat rewrite append_assoc; reflexivity.
Qed.

End Documents.

(** ** The answers of the native library *)

Lemma class_names_plain :
  Forall (fun name => Json.escape name = name
                      /\ JsonGrammar.unescape name = Some name)
    Layout.DOC_CLASSES.
Proof.
  unfold Layout.DOC_CLASSES. repeat (constructor; [split; reflexivity |]).
  constructor.
Qed.

Section NativeAnswers.

Context {io : IoStream} {m : LibM} {cv : OpenCV}.

Variable imread : string -> Mat.
Variable inference_time : Z.

(** X21.  What [detectLayout] answers.  The call never raises.  An image
    that cannot be read gives the error [IMAGE_LOAD_FAILED] and leaves the
    detector as it was.  Otherwise the answer is the document of the
    detections of [detectDocLayout]; a model that cannot be loaded is not
    reported as an error: the answer is the document of no detection, and
    the detector stays as it was.  The class name of every detection is
    written without escaping, and needs none. *)
Theorem detectLayout_answers (ns : string -> outcome Session) (g : Layout.Globals)
    (img_path : string) (conf_threshold : float) :
  let image := imread img_path in
  let answer := Json.detectLayout imread inference_time ns g img_path conf_threshold in
  (Mat_empty image = true ->
   answer = (Returns (Json.error_json "Could not load image" "IMAGE_LOAD_FAILED"), g))
  /\ (Mat_empty image = false ->
      exists results,
        Layout.detectDocLayout ns g image conf_threshold
        = (Returns results, snd answer)
        /\ fst answer = Returns (Json.layout_json results inference_time image)
        /\ forall d, In d results ->
             Json.escape (Layout.class_name d) = Layout.class_name d
             /\ JsonGrammar.unescape (Layout.class_name d)
                = Some (Layout.class_name d))
  /\ (Mat_empty image = false -> Layout.g_initialized g = false ->
      (exists e, ns (Layout.MODEL_PATH g) = Throws e) ->
      answer = (Returns (Json.layout_json [] inference_time image), g)).
Proof.
  intros image answer. subst answer. unfold Json.detectLayout. fold image.
  split; [| split].
  - intros ->. reflexivity.
  - intros ->.
    destruct (Layout.detectDocLayout ns g image conf_threshold) as [r g'] eqn:Hcall.
    pose proof (detectDocLayout_returns ns g image conf_threshold) as [l Hl].
    rewrite Hcall in Hl. cbn [fst] in Hl. subst r. exists l. cbn [fst snd bind].
    split; [reflexivity |]. split; [reflexivity |].
    intros d Hd. apply detectDocLayout_cases in Hcall.
    destruct Hcall as [[= ->] | (session & output & _ & _ & _ & [= ->])];
      [destruct Hd |].
    apply in_parse_output in Hd. destruct Hd as (i & _ & [_ Hc] & ->).
    cbn [Layout.clamp_box Layout.restore_box Layout.class_name].
    apply (proj1 (Forall_forall _ _) class_names_plain).
    apply nth_In. simpl. lia.
  - intros -> Hinit (e & He).
    unfold Layout.detectDocLayout, Layout.initOnnxSession.
    fold image. rewrite Hinit, He.
    destruct (Mat_empty image); reflexivity.
Qed.

(** X22.  What [recognizeTextFromPath] answers.  The image is looked at
    before the engine: an image that cannot be read gives
    [IMAGE_LOAD_FAILED] whatever the engine, and an engine that is not
    initialized gives [ENGINE_NOT_INITIALIZED] on an image that can.
    Otherwise the answer is the document of the lines of [RecognizeText];
    when the run of the detection model raises, the answer is the document
    of no line, not an error. *)
Theorem recognizeTextFromPath_answers (eng : Ocr.OcrEngine) (img_path : string)
    (det_threshold rec_threshold : float) :
  let image := imread img_path in
  let answer :=
    Json.recognizeTextFromPath imread inference_time eng img_path
      det_threshold rec_threshold in
  (Mat_empty image = true ->
   answer = Returns (Json.error_json "Could not load image" "IMAGE_LOAD_FAILED"))
  /\ (Mat_empty image = false -> Ocr.initialized_ eng = false ->
      answer = Returns (Json.error_json "OCR engine not initialized"
                          "ENGINE_NOT_INITIALIZED"))
  /\ (Mat_empty image = false -> Ocr.initialized_ eng = true ->
      forall results,
        Ocr.RecognizeText eng image det_threshold rec_threshold = Returns results ->
        answer = Returns (Json.ocr_json results inference_time image))
  /\ (Mat_empty image = false -> Ocr.initialized_ eng = true ->
      forall session,
        Ocr.det_session_ eng = Some session ->
        (forall inputs, exists e, Run session inputs = Throws e) ->
        answer = Returns (Json.ocr_json [] inference_time image)).
Proof.
  intros image answer. subst answer. unfold Json.recognizeTextFromPath. fold image.
  split; [| split; [| split]].
  - intros ->. reflexivity.
  - intros -> ->. reflexivity.
  - intros -> -> results ->. reflexivity.
  - intros Himg Hinit session Hs Hfail. rewrite Himg, Hinit. cbn [negb].
    unfold Ocr.RecognizeText. rewrite Himg, Hinit. cbn [negb].
    unfold Ocr.DetectText. rewrite Hinit, Hs, Himg.
    destruct (Ocr.PreprocessForDetection image) as [[[[[blob h] w] sx] sy] | e0];
      [| reflexivity]. cbn [bind].
    match goal with
    | |- context [Run session ?i] => destruct (Hfail i) as [e ->]
    end.
    reflexivity.
Qed.

End NativeAnswers.

(** X21 on a model file that does not load. *)
Lemma detectLayout_answers_witness :
  let imread := fun _ : string => Vectors.image 320 320 in
  let ns := fun _ : string => @Throws Session OrtException in
  Mat_empty (imread "page.png"%string) = false
  /\ @Json.detectLayout Fixtures.iostream Vectors.axis_aligned imread 7 ns
       Vectors.globals "page.png" (1 # 2)
     = (Returns (@Json.layout_json Fixtures.iostream [] 7 (Vectors.image 320 320)),
        Vectors.globals).
Proof.
  cbv zeta. split; [reflexivity |].
  apply (proj2 (proj2 (@detectLayout_answers Fixtures.iostream Vectors.axis_aligned
                         (fun _ => Vectors.image 320 320) 7
                         (fun _ => Throws OrtException) Vectors.globals
                         "page.png" (1 # 2)))).
  - reflexivity.
  - reflexivity.
  - exists OrtException. reflexivity.
Defined.

(** X22 on an engine that is not initialized. *)
Lemma recognizeTextFromPath_answers_witness :
  let imread := fun _ : string => Vectors.image 8 8 in
  Mat_empty (imread "page.png"%string) = false
  /\ @Json.recognizeTextFromPath Fixtures.iostream Vectors.libm Vectors.axis_aligned
       imread 7 Lifecycle.fresh "page.png" (1 # 2) (1 # 2)
     = Returns (Json.error_json "OCR engine not initialized" "ENGINE_NOT_INITIALIZED").
Proof.
  cbv zeta. split; [reflexivity |].
  apply (proj1 (proj2 (@recognizeTextFromPath_answers
                         Fixtures.iostream Vectors.libm Vectors.axis_aligned
                         (fun _ => Vectors.image 8 8) 7 Lifecycle.fresh
                         "page.png" (1 # 2) (1 # 2)))); reflexivity.
Defined.

(** ** The rows of the layout output *)

(** The conversion to [int] truncates toward zero: the values that become
    a non-negative integer below [n] are those strictly between -1 and
    [n]. *)
Lemma static_cast_int_range (v : float) (n : Z) :
  (0 < n)%Z ->
  ((0 <= static_cast_int v < n)%Z <-> - (1) < v /\ v < inject_Z n).
Proof.
  intros Hn. destruct v as [a d]. unfold static_cast_int, Qlt, inject_Z. simpl.
  destruct (Z.le_gt_cases 0 a) as [Ha | Ha].
  - rewrite Z.quot_div_nonneg by lia.
    split.
    + intros [_ H]. split; [lia |].
      destruct (Z.lt_ge_cases a (n * Z.pos d)) as [Hlt | Hge]; [lia |].
      assert (n <= a / Z.pos d)%Z by (apply Z.div_le_lower_bound; lia). lia.
    + intros [_ H]. split; [apply Z.div_pos; lia |].
      apply Z.div_lt_upper_bound; lia.
  - replace a with (- (- a))%Z by lia. rewrite Z.quot_opp_l by lia.
    rewrite Z.quot_div_nonneg by lia.
    assert (Hq : (0 <= - a / Z.pos d)%Z) by (apply Z.div_pos; lia).
    split.
    + intros [H _]. assert (E : (- a / Z.pos d = 0)%Z) by lia.
      apply Z.div_small_iff in E; lia.
    + intros [H _]. assert (E : (- a / Z.pos d = 0)%Z)
        by (apply Z.div_small; lia).
      rewrite E. lia.
Qed.

Lemma flat_map_filter {A B} (keep : A -> bool) (f : A -> B) (l : list A) :
  flat_map (fun x => if keep x then [f x] else []) l = map f (filter keep l).
Proof.
  induction l as [| x l IH]; simpl; [reflexivity |].
  destruct (keep x); simpl; rewrite IH; reflexivity.
Qed.

Section LayoutRows.

Context {cv : OpenCV}.

(** X23.  The rows of the layout output.  The Detections are those of the
    rows that pass the test, one per row, in the order of the rows: they
    are neither sorted nor merged, and there are at most as many as rows.
    A row passes exactly when its score is at least the threshold and its
    class value lies strictly between -1 and 23: the class value is
    truncated toward zero, so that a value in (-1, 0) counts as class 0. *)
Theorem layout_rows_in_order (is_l : bool) (sf : list float) (image : Mat)
    (thr : float) (out : Tensor) :
  Layout.parse_output is_l sf image thr out
  = map (fun i => Layout.clamp_box image (Layout.restore_box is_l sf (data out) i))
      (filter (Layout.row_passes thr (data out)) (range 0 (nth 0 (shape out) 0%Z)))
  /\ (List.length (Layout.parse_output is_l sf image thr out)
      <= Z.to_nat (nth 0 (shape out) 0%Z))%nat
  /\ forall i,
       Layout.row_passes thr (data out) i = true
       <-> thr <= at_ (data out) (i * 6 + 1)
           /\ - (1) < at_ (data out) (i * 6 + 0)
           /\ at_ (data out) (i * 6 + 0) < 23.
Proof.
  assert (Heq : Layout.parse_output is_l sf image thr out
                = map (fun i => Layout.clamp_box image
                                  (Layout.restore_box is_l sf (data out) i))
                    (filter (Layout.row_passes thr (data out))
                       (range 0 (nth 0 (shape out) 0%Z)))).
  { unfold Layout.parse_output. rewrite <- flat_map_filter. reflexivity. }
  split; [exact Heq |]. split.
  - rewrite Heq, length_map.
    etransitivity; [apply filter_length_le |].
    unfold range. rewrite length_map, length_seq. lia.
  - intros i. unfold Layout.row_passes.
    rewrite !andb_true_iff, geb_le, Z.geb_le, Z.ltb_lt.
    change (Z.of_nat (List.length Layout.DOC_CLASSES)) with 23%Z.
    pose proof (static_cast_int_range (at_ (data out) (i * 6 + 0)) 23 ltac:(lia))
      as Hrange.
    change (inject_Z 23) with 23 in Hrange. tauto.
Qed.

End LayoutRows.

(** ** The normalization of the pixels *)

(** X24.  The values that reach the models.  For an 8-bit value [p] of
    channel [c], the recognition input is [p / 127.5 - 1], which is the
    normalization [(p / 255 - mean) / std] with the declared mean and
    deviation 0.5, and lies in [[-1, 1]]; the layout input is [p / 255] and
    lies in [[0, 1]]; the detection input lies in [[-2.12, 2.64]]; and each
    of the three grows strictly with [p]. *)
Theorem pixel_normalization (c p q : Z) :
  (0 <= c < 3)%Z -> (0 <= p <= 255)%Z -> (0 <= q <= 255)%Z ->
  (Pixels.rec_normalize p
   == (static_cast_float p / 255 - at_ Pixels.REC_MEAN c) / at_ Pixels.REC_STD c
   /\ - (1) <= Pixels.rec_normalize p /\ Pixels.rec_normalize p <= 1)
  /\ (0 <= Pixels.layout_normalize p /\ Pixels.layout_normalize p <= 1)
  /\ (- (53 # 25) <= Pixels.det_normalize c p
      /\ Pixels.det_normalize c p <= 66 # 25)
  /\ ((p < q)%Z ->
      Pixels.rec_normalize p < Pixels.rec_normalize q
      /\ Pixels.layout_normalize p < Pixels.layout_normalize q
      /\ Pixels.det_normalize c p < Pixels.det_normalize c q).
Proof.
  intros Hc Hp Hq.
  assert (Hp' : 0 <= inject_Z p /\ inject_Z p <= 255).
  { split; [change 0 with (inject_Z 0) | change 255 with (inject_Z 255)];
      rewrite <- Zle_Qle; lia. }
  assert (Hpq : (p < q)%Z -> inject_Z p < inject_Z q)
    by (intros H; rewrite <- Zlt_Qlt; exact H).
  unfold Pixels.rec_normalize, Pixels.layout_normalize, Pixels.det_normalize,
    Pixels.convertTo_32F, static_cast_float.
  set (x := inject_Z p) in *. set (y := inject_Z q) in *.
  assert (Hcase : c = 0%Z \/ c = 1%Z \/ c = 2%Z) by lia.
  destruct Hcase as [-> | [-> | ->]];
    [ change (at_ Pixels.DET_MEAN 0) with (485 # 1000);
      change (at_ Pixels.DET_STD 0) with (229 # 1000);
      change (at_ Pixels.REC_MEAN 0) with (1 # 2);
      change (at_ Pixels.REC_STD 0) with (1 # 2)
    | change (at_ Pixels.DET_MEAN 1) with (456 # 1000);
      change (at_ Pixels.DET_STD 1) with (224 # 1000);
      change (at_ Pixels.REC_MEAN 1) with (1 # 2);
      change (at_ Pixels.REC_STD 1) with (1 # 2)
    | change (at_ Pixels.DET_MEAN 2) with (406 # 1000);
      change (at_ Pixels.DET_STD 2) with (225 # 1000);
      change (at_ Pixels.REC_MEAN 2) with (1 # 2);
      change (at_ Pixels.REC_STD 2) with (1 # 2) ];
    unfold Qdiv;
    try change (/ 255) with (1 # 255);
    try change (/ (255 # 2)) with (2 # 255);
    try change (/ (1 # 2)) with 2;
    try change (/ (229 # 1000)) with (1000 # 229);
    try change (/ (224 # 1000)) with (1000 # 224);
    try change (/ (225 # 1000)) with (1000 # 225);
    (split; [split; [ring | split; lra] |]);
    (split; [split; lra |]);
    (split; [split; lra |]);
    intros H; specialize (Hpq H); repeat split; lra.
Qed.

(** X24 on the values 0 and 255 of the first channel. *)
Lemma pixel_normalization_witness :
  Pixels.rec_normalize 0 == - (1) /\ Pixels.rec_normalize 255 == 1
  /\ Pixels.rec_normalize 0 < Pixels.rec_normalize 255.
Proof.
  split; [reflexivity |]. split; [reflexivity |].
  exact (proj1 (proj2 (proj2 (proj2 (pixel_normalization 0 0 255
                                       ltac:(lia) ltac:(lia) ltac:(lia))))
                  ltac:(lia))).
Defined.
